(** * DeepBayesMutSig.barplots: aggregation and report logic

    A shallow embedding of [src/DeepBayesMutSig/barplots.py].  pandas Series
    are lists, a DataFrame is a record of columns, Python exceptions are an
    explicit [result] type, and the PDF document is a trace of events.

    The tables of the first part hold their numeric cells as integers
    ([Z]) and add them exactly.  pandas adds the cells of a column in the
    type of the column, int64 with wrap-around or float64 with rounding:
    the part on cell arithmetic has the parser over such cells, for the
    statements that depend on how cells are added.  Text is ASCII. *)

From Stdlib Require Import ZArith List String Ascii Bool Lia.
From Stdlib Require Import QArith Permutation Sorted DecimalString DecimalNat.
From Stdlib Require Import PrimFloat.
Import ListNotations.

Set Warnings "-inexact-float".

Local Open Scope string_scope.
Local Open Scope list_scope.
Local Open Scope Z_scope.

Set Implicit Arguments.

(** ** Python exceptions *)

Inductive exn : Type :=
| KeyError (key : string)
| IndexError
| ValueError
| RenderError (msg : string).

Inductive result (A : Type) : Type :=
| Ok (a : A)
| Raise (e : exn).

Arguments Ok {A} a.
Arguments Raise {A} e.

Definition bind {A B : Type} (r : result A) (k : A -> result B) : result B :=
  match r with
  | Ok a => k a
  | Raise e => Raise e
  end.

Notation "x <- r ;; k" := (bind r (fun x => k))
  (at level 61, r at next level, right associativity).

(** A [for] loop whose body may raise and which appends what each round
    emits: the first exception aborts the loop. *)
Fixpoint for_each {A B : Type} (body : A -> result (list B)) (l : list A)
  : result (list B) :=
  match l with
  | [] => Ok []
  | a :: l' =>
      out <- body a ;;
      rest <- for_each body l' ;;
      Ok (out ++ rest)
  end.

(** ** Strings *)

(** [s[i]] as pandas' [.str[i]] reads it: negative indices count from the
    end, and an index out of range gives NaN ([None]) instead of raising. *)
Definition str_get (s : string) (i : Z) : option ascii :=
  let n := Z.of_nat (String.length s) in
  if (i <? n) && (- n <=? i)
  then String.get (Z.to_nat (if i <? 0 then i + n else i)) s
  else None.

(** [s[i]] of a Python [str]: the same indexing, but out of range raises. *)
Definition str_index (s : string) (i : Z) : result ascii :=
  match str_get s i with
  | Some c => Ok c
  | None => Raise IndexError
  end.

Definition option_string_eqb (o : option string) (s : string) : bool :=
  match o with
  | Some t => String.eqb t s
  | None => false
  end.

Definition option_ascii_eqb (o : option ascii) (c : ascii) : bool :=
  match o with
  | Some d => Ascii.eqb d c
  | None => false
  end.

(** ** Tables *)

(** The wide input table.  Its first column holds the mutation-type keys,
    the sample/signature columns follow in column order, and the derived
    ["context"] column, when present, comes last ([None] in a cell is NaN).
    Sample columns are not named ["MutationType"] or ["context"]. *)
Record DataFrame : Type := mkDataFrame {
  MutationType : list string;
  samples : list (string * list Z);
  context : option (list (option string))
}.

Fixpoint lookup_column (col : string) (cols : list (string * list Z))
  : result (list Z) :=
  match cols with
  | [] => Raise (KeyError col)
  | (name, vals) :: cols' =>
      if String.eqb name col then Ok vals else lookup_column col cols'
  end.

Definition get_context (df : DataFrame) : result (list (option string)) :=
  match context df with
  | Some c => Ok c
  | None => Raise (KeyError "context")
  end.

(** All columns of a table have one length, its number of rows. *)
Definition well_formed (df : DataFrame) : Prop :=
  Forall (fun c => List.length (snd c) = List.length (MutationType df)) (samples df)
  /\ match context df with
     | Some c => List.length c = List.length (MutationType df)
     | None => True
     end.

(** One row of [col_df], the three-column frame [parse_lager_context_df]
    builds. *)
Record ColRow : Type := mkColRow {
  cr_MutationType : string;
  cr_value : Z;
  cr_context : option string
}.

Fixpoint make_col_df (mt : list string) (vals : list Z)
  (ctx : list (option string)) : list ColRow :=
  match mt, vals, ctx with
  | m :: mt', v :: vals', c :: ctx' =>
      mkColRow m v c :: make_col_df mt' vals' ctx'
  | _, _, _ => []
  end.

(** [pd.DataFrame({"MutationType": ..., col: df[col], "context": ...})],
    for a sample column [col]: the two text columns, which [df[col]] finds
    as well, are not read as numbers here. *)
Definition build_col_df (df : DataFrame) (col : string) : result (list ColRow) :=
  vals <- lookup_column col (samples df) ;;
  ctx <- get_context df ;;
  Ok (make_col_df (MutationType df) vals ctx).

(** [series.sum()] of integer cells that do not overflow; sums in the
    arithmetic of the column are in the part on cell arithmetic. *)
Definition col_sum (rows : list ColRow) : Z :=
  fold_right (fun r acc => cr_value r + acc) 0 rows.

(** [col_df[col_df["context"] == mut]] *)
Definition select_context (col_df : list ColRow) (mut : string) : list ColRow :=
  filter (fun r => option_string_eqb (cr_context r) mut) col_df.

(** [temp_df[temp_df["MutationType"].str[idx] == aa]] *)
Definition select_base (temp_df : list ColRow) (idx : Z) (aa : ascii)
  : list ColRow :=
  filter (fun r => option_ascii_eqb (str_get (cr_MutationType r) idx) aa) temp_df.

(** [series[0]]: the entry labelled 0, the first row of a table with the
    default index. *)
Definition first_entry (mt : list string) : result string :=
  match mt with
  | s :: _ => Ok s
  | [] => Raise (KeyError "0")
  end.

(** ** parse_lager_context_df *)

Definition amino : list ascii := ["A"; "C"; "T"; "G"]%char.

Section Parse.

(** Position labels, as [generate_sequence] gives them. *)
Variable Name : Type.

(** [helpers.MUTATION_LIST], [helpers.generate_numbers] and
    [helpers.generate_sequence] are imported by the module; here they
    are parameters, and the helpers may raise. *)
Variable MUTATION_LIST : list string.
Variable generate_numbers : Z -> result (list Z).
Variable generate_sequence : Z -> result (list Name).

Record LongFormRow : Type := mkLongFormRow {
  lf_name : Name;
  lf_context : string;
  lf_variable : ascii;
  lf_sbs : string;
  lf_value : Z
}.

(** The value of one emitted row (the [if total_sbs_mut == 0] of the
    inner loop). *)
Definition row_value (temp_df : list ColRow) (total_sbs_mut : Z)
  (idx : Z) (aa : ascii) : Z :=
  if total_sbs_mut =? 0 then 0
  else col_sum (select_base temp_df idx aa).

(** The [for aa in amino] loop at one position. *)
Definition rows_at_position (col mut : string) (temp_df : list ColRow)
  (total_sbs_mut : Z) (pos : Z * Name) : list LongFormRow :=
  map (fun aa =>
         mkLongFormRow (snd pos) mut aa col
           (row_value temp_df total_sbs_mut (fst pos) aa))
      amino.

(** [zip(context_index_list, seq)]: the string index and the label of
    each flanking position, from the length of the first key. *)
Definition flanking_positions (df : DataFrame) : result (list (Z * Name)) :=
  first <- first_entry (MutationType df) ;;
  context_index_list <- generate_numbers (Z.of_nat (String.length first) - 4) ;;
  first' <- first_entry (MutationType df) ;;
  seq <- generate_sequence (Z.of_nat (String.length first') - 4) ;;
  Ok (combine context_index_list seq).

(** The body of [for mut in MUTATION_LIST]. *)
Definition rows_for_mutation (df : DataFrame) (col : string)
  (col_df : list ColRow) (mut : string) : result (list LongFormRow) :=
  let temp_df := select_context col_df mut in
  let total_sbs_mut := col_sum temp_df in
  contex_name_generator <- flanking_positions df ;;
  Ok (flat_map (rows_at_position col mut temp_df total_sbs_mut)
        contex_name_generator).

Definition parse_lager_context_df (df : DataFrame) (col : string)
  : result (list LongFormRow) :=
  col_df <- build_col_df df col ;;
  for_each (rows_for_mutation df col col_df) MUTATION_LIST.

End Parse.

(** ** format_xlabels *)

(** [f"{label[0]}{label[2]}{label[-1]}"] *)
Definition format_xlabel (label : string) : result string :=
  a <- str_index label 0 ;;
  b <- str_index label 2 ;;
  c <- str_index label (-1) ;;
  Ok (String a (String b (String c ""))).

Fixpoint format_xlabels (x_labels : list string) : result (list string) :=
  match x_labels with
  | [] => Ok []
  | label :: rest =>
      l <- format_xlabel label ;;
      ls <- format_xlabels rest ;;
      Ok (l :: ls)
  end.

(** ** The context pattern [(\w\[.*\]\w)] *)

Definition is_digit (c : ascii) : bool :=
  let n := nat_of_ascii c in ((48 <=? n) && (n <=? 57))%nat.

(** [\w] on ASCII text: a letter, a digit or the underscore. *)
Definition is_word (c : ascii) : bool :=
  let n := nat_of_ascii c in
  (is_digit c
   || ((65 <=? n) && (n <=? 90))
   || ((97 <=? n) && (n <=? 122))
   || (n =? 95))%nat.

(** [.] matches every character but the line feed. *)
Definition is_dot (c : ascii) : bool := negb (nat_of_ascii c =? 10)%nat.

(** [.*\]\w] at the head of [s], as the backtracking matcher runs it: the
    greedy star first tries to take one more character and only then lets
    the closing bracket and the word character match. *)
Fixpoint match_tail (s : string) : option string :=
  match s with
  | EmptyString => None
  | String c s' =>
      match (if is_dot c then match_tail s' else None) with
      | Some t => Some (String c t)
      | None =>
          if Ascii.eqb c "]" then
            match s' with
            | String d _ => if is_word d then Some (String c (String d "")) else None
            | EmptyString => None
            end
          else None
      end
  end.

(** The whole pattern at the head of [s]. *)
Definition match_here (s : string) : option string :=
  match s with
  | String a (String b s') =>
      if is_word a && Ascii.eqb b "[" then
        match match_tail s' with
        | Some t => Some (String a (String b t))
        | None => None
        end
      else None
  | _ => None
  end.

(** [re.search]: the match at the leftmost position that has one. *)
Fixpoint search_context (s : string) : option string :=
  match match_here s with
  | Some m => Some m
  | None =>
      match s with
      | EmptyString => None
      | String _ s' => search_context s'
      end
  end.

(** [series.str.extract(r"(\w\[.*\]\w)")]: the group of the first match, NaN
    where the pattern does not match. *)
Definition str_extract_context (mt : list string) : list (option string) :=
  map search_context mt.

(** ** Bar geometry of create_increased_context_barplot *)

Section Unique.
Variable A : Type.
Variable eqb : A -> A -> bool.

(** [series.unique()] and [drop_duplicates()]: first occurrences, in
    order. *)
Fixpoint unique_from (seen : list A) (l : list A) : list A :=
  match l with
  | [] => []
  | a :: l' =>
      if existsb (eqb a) seen then unique_from seen l'
      else a :: unique_from (a :: seen) l'
  end.

Definition unique (l : list A) : list A := unique_from [] l.
End Unique.

(** [np.arange(n)] *)
Definition arange (n : nat) : list Q :=
  map (fun i => inject_Z (Z.of_nat i)) (seq 0 n).

Section Geometry.

Variable Name : Type.
Variable Name_eq_dec : forall a b : Name, {a = b} + {a <> b}.

Definition Name_eqb (a b : Name) : bool :=
  if Name_eq_dec a b then true else false.

(** [str(name)], as an f-string formats a label. *)
Variable Name_str : Name -> string.

Local Open Scope Q_scope.

(** One [ax.bar] call: a bar per context tick, at the positions [bar_x]. *)
Record Bar : Type := mkBar {
  bar_x : list Q;
  bar_width : Q;
  bar_name : Name;
  bar_variable : ascii;
  bar_height : list Z
}.

(** The [if stacks == 2 ... elif stacks == 4] block: the bar width and the
    list [x1] of position arrays.  The offsets are the expressions of the
    source, taken over the rationals; the source evaluates them in binary64,
    which rounds them. *)
Definition cluster_offsets (stacks : nat) (x0 : list Q) : Q * list (list Q) :=
  let w := 45 # 100 in
  let n := inject_Z (Z.of_nat stacks) in
  if (stacks =? 2)%nat then
    (w, [map (fun x => x - w / n) x0; map (fun x => x + w / n) x0])
  else if (stacks =? 4)%nat then
    let w := 2 # 10 in
    (w, [map (fun x => x - w * 4 / n - w / 2) x0;
         map (fun x => x - w * 2 / n) x0;
         map (fun x => x + w * 2 / n) x0;
         map (fun x => x + w * 4 / n + w / 2) x0])
  else (w, []).

(** The rows of one (name, variable) group of [df.groupby], in row order. *)
Definition group_rows (df : list (LongFormRow Name)) (name : Name)
  (var : ascii) : list (LongFormRow Name) :=
  filter (fun r => Name_eqb (lf_name r) name && Ascii.eqb (lf_variable r) var) df.

(** [data[f"{name}{var}"].value]: the dictionary has an entry for each
    group that has rows, under the formatted pair; it is looked up here by
    the pair itself, distinct pairs being taken to format differently. *)
Definition group_values (df : list (LongFormRow Name)) (name : Name)
  (var : ascii) : result (list Z) :=
  match group_rows df name var with
  | [] => Raise (KeyError (Name_str name ++ String var ""))
  | rows => Ok (map (@lf_value Name) rows)
  end.

(** The bars of the loop [for x, name in zip(x1, names)], one per variable,
    as far as the lookup of the heights goes; [increased_context_bars] below
    has the colours and the drawing calls as well. *)
Definition grouped_bars (df : list (LongFormRow Name)) : result (list Bar) :=
  let labels := unique String.eqb (map (@lf_context Name) df) in
  let x0 := arange (List.length labels) in
  let names := unique Name_eqb (map (@lf_name Name) df) in
  let stacks := List.length names in
  let variable := unique Ascii.eqb (map (@lf_variable Name) df) in
  let '(w, x1) := cluster_offsets stacks x0 in
  for_each
    (fun xn : list Q * Name =>
       for_each
         (fun var =>
            height <- group_values df (snd xn) var ;;
            Ok [mkBar (fst xn) w (snd xn) var height])
         variable)
    (combine x1 names).

End Geometry.

(** The bar loop with everything in it that can raise: the lookup of the
    heights, the lookup of the colour, the [ax.bar] call and the update of
    [bottom]. *)
Section Bars.

Variable Name : Type.
Variable Name_eq_dec : forall a b : Name, {a = b} + {a <> b}.
Variable Name_str : Name -> string.

(** [helpers.COLOR_DICT], a dictionary from variables to colours. *)
Variable Color : Type.
Variable COLOR_DICT : ascii -> option Color.

(** [COLOR_DICT[var]] *)
Definition variable_color (var : ascii) : result Color :=
  match COLOR_DICT var with
  | Some c => Ok c
  | None => Raise (KeyError (String var ""))
  end.

(** [df["sbs"].unique()[0]]: the column name of the first row.  A table
    without rows is the frame the parser returns when its loops do not run,
    which has no column ["sbs"]. *)
Definition sbs_title (df : list (LongFormRow Name)) : result string :=
  match df with
  | r :: _ => Ok (lf_sbs r)
  | [] => Raise (KeyError "sbs")
  end.

(** Whether one-dimensional arrays of these lengths broadcast to one shape:
    the lengths other than 1 are all the same. *)
Definition broadcastable (lens : list nat) : bool :=
  match filter (fun n => negb (n =? 1)%nat) lens with
  | [] => true
  | n :: rest => forallb (Nat.eqb n) rest
  end.

(** The loop [for var in variable] of one name.  [bottom] is the length of
    the array [bottom], and [None] as long as [bottom] is the number 0.
    [ax.bar] broadcasts [x], [height] and [bottom] against each other and
    raises [ValueError] when their lengths do not fit; [bottom += height]
    makes an array of the number 0 and then adds in place, which raises
    [ValueError] unless [height] broadcasts to the shape [bottom] has.  A bar
    is the [ax.bar] call with its colour; the values of [bottom] are left to
    the drawing. *)
Fixpoint stacked_bars (df : list (LongFormRow Name)) (x : list Q) (w : Q)
  (name : Name) (bottom : option nat) (variable : list ascii)
  : result (list (Bar Name * Color)) :=
  match variable with
  | [] => Ok []
  | var :: rest =>
      height <- group_values Name_eq_dec Name_str df name var ;;
      color <- variable_color var ;;
      let g := List.length height in
      if broadcastable
           (List.length x :: g :: match bottom with Some b => [b] | None => [] end)
      then
        match bottom with
        | None =>
            bars <- stacked_bars df x w name (Some g) rest ;;
            Ok ((mkBar x w name var height, color) :: bars)
        | Some b =>
            if ((g =? b) || (g =? 1))%nat then
              bars <- stacked_bars df x w name (Some b) rest ;;
              Ok ((mkBar x w name var height, color) :: bars)
            else Raise ValueError
        end
      else Raise ValueError
  end.

(** [create_increased_context_barplot] from its first line to the end of
    the loop [for x, name in zip(x1, names)]: the bars it draws, in drawing
    order. *)
Definition increased_context_bars (df : list (LongFormRow Name))
  : result (list (Bar Name * Color)) :=
  title <- sbs_title df ;;
  let labels := unique String.eqb (map (@lf_context Name) df) in
  let x0 := arange (List.length labels) in
  let names := unique (Name_eqb Name_eq_dec) (map (@lf_name Name) df) in
  let stacks := List.length names in
  let variable := unique Ascii.eqb (map (@lf_variable Name) df) in
  let '(w, x1) := cluster_offsets stacks x0 in
  for_each
    (fun xn : list Q * Name =>
       stacked_bars df (fst xn) w (snd xn) None variable)
    (combine x1 names).

End Bars.

(** ** The reports *)

(** [sorted(names, key=key)]: a stable sort that compares keys with [<]
    only. *)
Section Sorted.
Variable Key : Type.
Variable key : string -> Key.
Variable key_ltb : Key -> Key -> bool.

Fixpoint insert_by_key (x : string) (l : list string) : list string :=
  match l with
  | [] => [x]
  | y :: l' =>
      if key_ltb (key y) (key x) then y :: insert_by_key x l'
      else x :: y :: l'
  end.

Definition sorted (names : list string) : list string :=
  fold_right insert_by_key [] names.
End Sorted.

(** A [pathlib.Path], as its components. *)
Definition Path : Type := list string.

(** [folder / name], for a relative one-component [name]. *)
Definition path_join (folder : Path) (name : string) : Path := folder ++ [name].

(** [str(n)] of a non-negative integer. *)
Definition decimal (n : nat) : string := NilEmpty.string_of_uint (Nat.to_uint n).

(** [df.shape[0]] *)
Definition row_count (df : DataFrame) : nat := List.length (MutationType df).

(** [df.columns] *)
Definition columns (df : DataFrame) : list string :=
  "MutationType" :: map fst (samples df)
    ++ match context df with Some _ => ["context"] | None => [] end.

(** [df["context"] = values]: the assignment writes into the caller's
    table; a new column is appended after the others, an old one is
    overwritten where it is. *)
Definition set_context (df : DataFrame) (values : list (option string))
  : DataFrame :=
  mkDataFrame (MutationType df) (samples df) (Some values).

(** Tables are Python objects that caller and callee share: a store maps
    each reference to the table it holds. *)
Definition Ref : Type := nat.
Definition Store : Type := Ref -> DataFrame.

Definition store_set (st : Store) (r : Ref) (df : DataFrame) : Store :=
  fun r' => if Nat.eqb r' r then df else st r'.

Section Report.

Variable Name : Type.
Variable Page : Type.

(** What happens to the output document. *)
Inductive event : Type :=
| Opened (path : Path)
| Saved (page : Page)
| Closed.

Definition is_Opened (ev : event) : bool :=
  match ev with Opened _ => true | _ => false end.

Definition is_Closed (ev : event) : bool :=
  match ev with Closed => true | _ => false end.

(** A document that was opened once, first, and closed once, last. *)
Definition scoped (doc : list event) : Prop :=
  exists path pages, doc = Opened path :: map Saved pages ++ [Closed].

Definition count_events (f : event -> bool) (doc : list event) : nat :=
  List.length (filter f doc).

(** What a report call leaves behind: the store, the document events in
    order, and the return value or the exception. *)
Record outcome : Type := mkOutcome {
  tables : Store;
  document : list event;
  returned : result unit
}.

(** [with PdfPages(path) as pdf: body]: the document is opened on entry
    and [__exit__] closes it however the body ends; the exception of the
    body, if any, propagates.  Opening is taken to succeed. *)
Definition with_PdfPages (path : Path) (body : list event * result unit)
  : list event * result unit :=
  (Opened path :: fst body ++ [Closed], snd body).

(** [for col in sorted_columns: page(col)], where a page that is
    rendered is saved to the document. *)
Fixpoint for_columns (page : string -> result Page) (cols : list string)
  : list event * result unit :=
  match cols with
  | [] => ([], Ok tt)
  | col :: rest =>
      match page col with
      | Raise e => ([], Raise e)
      | Ok p =>
          let r := for_columns page rest in
          (Saved p :: fst r, snd r)
      end
  end.

(** [helpers.custom_sort_column_names] with the order of its keys, the
    helpers of the parser, and the two page renderers (matplotlib), which
    may raise. *)
Variable Key : Type.
Variable custom_sort_column_names : string -> Key.
Variable key_ltb : Key -> Key -> bool.
Variable MUTATION_LIST : list string.
Variable generate_numbers : Z -> result (list Z).
Variable generate_sequence : Z -> result (list Name).
Variable create_increased_context_barplot :
  list (LongFormRow Name) -> result Page.
Variable parse_96_df : DataFrame -> string -> result Page.

(** One round of the loop of [larger_context_barplot]. *)
Definition larger_context_page (df : DataFrame) (col : string) : result Page :=
  result_df <- parse_lager_context_df MUTATION_LIST
                 generate_numbers generate_sequence df col ;;
  create_increased_context_barplot result_df.

Definition larger_context_barplot (st : Store) (df_multi_contexct : Ref)
  (folder_path : Path) : outcome :=
  let st :=
    store_set st df_multi_contexct
      (set_context (st df_multi_contexct)
         (str_extract_context (MutationType (st df_multi_contexct)))) in
  let df := st df_multi_contexct in
  let sorted_columns :=
    sorted custom_sort_column_names key_ltb (removelast (tl (columns df))) in
  let path := path_join folder_path
                ("signatures." ++ decimal (row_count df) ++ ".pdf")%string in
  let r :=
    with_PdfPages path
      (for_columns (larger_context_page df) sorted_columns) in
  mkOutcome st (fst r) (snd r).

Definition create_96_barplot (st : Store) (df : Ref) (figure_folder : Path)
  : outcome :=
  let sorted_columns :=
    sorted custom_sort_column_names key_ltb (tl (columns (st df))) in
  let path := path_join figure_folder "signatures.96.pdf" in
  let r :=
    with_PdfPages path
      (for_columns (parse_96_df (st df)) sorted_columns) in
  mkOutcome st (fst r) (snd r).

End Report.

(** ** The helpers, from the specification *)

(** Modelled from the spec: [helpers.MUTATION_LIST], whose module is not
    among the sources: the six canonical substitution classes, in the order
    C>A, C>G, C>T, T>A, T>C, T>G. *)
Definition MUTATION_LIST : list string :=
  ["C>A"; "C>G"; "C>T"; "T>A"; "T>C"; "T>G"].

(** Modelled from the spec: [helpers.generate_numbers] and
    [helpers.generate_sequence], whose module is not among the sources: for
    a position count [n] they give [n] position indices and [n] position
    labels.  The spec fixes neither the indices nor the labels. *)
Definition position_scheme (Name : Type)
  (generate_numbers : Z -> result (list Z))
  (generate_sequence : Z -> result (list Name)) : Prop :=
  forall n : Z, 0 <= n ->
    exists idxs names,
      generate_numbers n = Ok idxs /\ generate_sequence n = Ok names
      /\ List.length idxs = Z.to_nat n /\ List.length names = Z.to_nat n.

(** A scheme to run examples with: the indices and labels [0 .. n-1]. *)
Definition count_up (n : Z) : result (list Z) :=
  Ok (map Z.of_nat (seq 0 (Z.to_nat n))).

(** The part of a name before its first digit. *)
Fixpoint name_prefix (s : string) : string :=
  match s with
  | EmptyString => EmptyString
  | String c s' => if is_digit c then EmptyString else String c (name_prefix s')
  end.

(** The part of a name from its first digit on. *)
Fixpoint name_digits (s : string) : string :=
  match s with
  | EmptyString => EmptyString
  | String c s' => if is_digit c then s else name_digits s'
  end.

(** The number that the leading digits of [s] spell, after [acc]. *)
Fixpoint digits_value (acc : N) (s : string) : N :=
  match s with
  | EmptyString => acc
  | String c s' =>
      if is_digit c
      then digits_value (10 * acc + (N_of_ascii c - 48))%N s'
      else acc
  end.

(** Modelled from the spec: [helpers.custom_sort_column_names], whose module
    is not among the sources: the sort key of a column name, which puts
    names with numeric suffixes in numeric order, not in lexicographic
    order.  The key is the name up to its first digit, then the number that
    the digits from there spell. *)
Definition custom_sort_column_names (name : string) : string * N :=
  (name_prefix name, digits_value 0%N (name_digits name)).

(** The order of Python tuples: by first component, then by second. *)
Definition key_ltb (a b : string * N) : bool :=
  match String.compare (fst a) (fst b) with
  | Lt => true
  | Eq => (snd a <? snd b)%N
  | Gt => false
  end.

(** [sorted(names, key=custom_sort_column_names)], the column sort of both
    reports. *)
Definition sorted_columns (names : list string) : list string :=
  sorted custom_sort_column_names key_ltb names.

(** What it is for a key to match [\w\[.*\]\w] somewhere: a word character,
    an opening bracket, any text without a line feed, a closing bracket and
    a word character. *)
Definition all_dot (body : string) : Prop :=
  forall c, In c (list_ascii_of_string body) -> is_dot c = true.

Definition matches_context_pattern (s : string) : Prop :=
  exists pre a body b post,
    s = (pre ++ String a (String "[" (body ++ String "]" (String b post))))%string
    /\ is_word a = true /\ is_word b = true /\ all_dot body.

(** The token [x[y>z]w] with one flanking base on each side. *)
Definition trinucleotide (t : ascii * ascii * ascii * ascii) : string :=
  let '(x, y, z, w) := t in
  String x (String "[" (String y (String ">" (String z (String "]" (String w "")))))).

Definition simplified (t : ascii * ascii * ascii * ascii) : string :=
  let '(x, y, _, w) := t in String x (String y (String w "")).

(** A string without digits, as the alphabetic prefix of a column name. *)
Fixpoint digit_free (s : string) : bool :=
  match s with
  | EmptyString => true
  | String c s' => negb (is_digit c) && digit_free s'
  end.

(** The column name with prefix [prefix] and numeric suffix [n]. *)
Definition column_name (prefix : string) (n : nat) : string :=
  (prefix ++ decimal n)%string.

(** Renderers to run examples with: one that renders every page, and one
    with a failure injected at the column SBS2. *)
Definition render_rows (Name : Type) (rows : list (LongFormRow Name))
  : result nat :=
  Ok (List.length rows).

Definition render_column (df : DataFrame) (col : string) : result string :=
  if String.eqb col "SBS2" then Raise (RenderError "injected") else Ok col.

Definition render_failing (Name : Type) (rows : list (LongFormRow Name))
  : result nat :=
  match rows with
  | r :: _ =>
      if String.eqb (lf_sbs r) "SBS2" then Raise (RenderError "injected")
      else Ok (List.length rows)
  | [] => Ok 0%nat
  end.

(** Tables to run examples with. *)
Definition example_table : DataFrame :=
  mkDataFrame
    ["TA[C>A]AT"; "GA[C>A]AC"; "CC[C>G]TT"; "GT[C>G]AA"]
    [("SBS2", [1; 0; 1; 2]); ("SBS10", [0; 0; 2; 5]); ("SBS1", [3; 4; 5; 6])]
    (Some [Some "C>A"; Some "C>A"; Some "C>G"; Some "C>G"]).

Definition empty_table : DataFrame :=
  mkDataFrame [] [("SBS1", [])] (Some []).

Definition malformed_table : DataFrame :=
  mkDataFrame ["A[C>A]A"; "ACA"] [("SBS1", [3; 4])] None.

(** ** The class pattern [\[(.*?)\]] *)

(** [(.*?)\]] at the head of [s], giving the group: the lazy star tries
    the closing bracket first and takes one more character only when that
    fails. *)
Fixpoint match_class_tail (s : string) : option string :=
  match s with
  | EmptyString => None
  | String c s' =>
      if Ascii.eqb c "]" then Some EmptyString
      else if is_dot c then
        match match_class_tail s' with
        | Some g => Some (String c g)
        | None => None
        end
      else None
  end.

(** [re.search] for the class pattern: the group of the match at the
    leftmost opening bracket that has one. *)
Fixpoint search_class (s : string) : option string :=
  match s with
  | EmptyString => None
  | String c s' =>
      match (if Ascii.eqb c "[" then match_class_tail s' else None) with
      | Some g => Some g
      | None => search_class s'
      end
  end.

(** Equality of cells that may be NaN, as [unique()] groups them. *)
Definition option_string_eq (a b : option string) : bool :=
  match a, b with
  | Some x, Some y => String.eqb x y
  | None, None => true
  | _, _ => false
  end.

(** ** Partition markers *)

Section Chunks.
Variable A : Type.

Fixpoint chunks_from (fuel k : nat) (l : list A) : list (list A) :=
  match fuel with
  | O => []
  | S fuel' =>
      match l with
      | [] => []
      | _ :: _ => firstn k l :: chunks_from fuel' k (skipn k l)
      end
  end.

(** [[l[i : i + k] for i in range(0, len(l), k)]]: [range] raises on a
    zero step. *)
Definition chunks (k : nat) (l : list A) : result (list (list A)) :=
  if (k =? 0)%nat then Raise ValueError
  else Ok (chunks_from (List.length l) k l).
End Chunks.

(** What the marker loop draws for one block: the label of the block, at
    [text_x], and the divider after the block, if any. *)
Record BlockMarker : Type := mkBlockMarker {
  text_x : Q;
  text_label : option string;
  divider : option Q
}.

(** The loop [for i, (mutation_type, indices_list) in enumerate(zip(...))]
    from round [i] on; [n_types] is [len(mutation_types)].  A block is never
    empty, so that its last and its middle entry exist. *)
Fixpoint block_markers (n_types i : nat) (blocks : list (option string * list Q))
  : list BlockMarker :=
  match blocks with
  | [] => []
  | (mutation_type, indices_list) :: rest =>
      let idx := last indices_list 0%Q in
      let middle := nth (List.length indices_list / 2) indices_list 0%Q in
      mkBlockMarker middle mutation_type
        (if (i <? n_types - 1)%nat then Some (idx + (1 # 2))%Q else None)
      :: block_markers n_types (S i) rest
  end.

(** The block labels and dividers of [create_increased_context_barplot]
    (the lines from [sublist_length] to [plt.axvline]). *)
Definition increased_context_markers (Name : Type)
  (df : list (LongFormRow Name)) : result (list BlockMarker) :=
  let labels := unique String.eqb (map (@lf_context Name) df) in
  let x0 := arange (List.length labels) in
  let sublist_length := (List.length x0 / 6)%nat in
  indices <- chunks sublist_length x0 ;;
  let mutation_types :=
    unique option_string_eq (map search_class (map (@lf_context Name) df)) in
  Ok (block_markers (List.length mutation_types) 0 (combine mutation_types indices)).

(** ** parse_96_df *)

(** The positions of the rows of class [k], in row order. *)
Fixpoint rows_of_class (k : string) (i : nat) (classes : list (option string))
  : list nat :=
  match classes with
  | [] => []
  | c :: rest =>
      if option_string_eqb c k then i :: rows_of_class k (S i) rest
      else rows_of_class k (S i) rest
  end.

(** The classes that occur, NaN left out. *)
Fixpoint present_classes (classes : list (option string)) : list string :=
  match classes with
  | [] => []
  | Some k :: rest => k :: present_classes rest
  | None :: rest => present_classes rest
  end.

(** [temp_df.groupby("mutation").groups.items()]: the classes in sorted
    order, each with the row labels of its rows; rows without a class belong
    to no group. *)
Definition groupby_groups (classes : list (option string))
  : list (string * list nat) :=
  map (fun k => (k, rows_of_class k 0 classes))
    (sorted (fun k => k) String.ltb (unique String.eqb (present_classes classes))).

Section Parse96.

(** [helpers.COLOR_DICT_MUTATION], a dictionary from classes to colours. *)
Variable Color : Type.
Variable COLOR_DICT_MUTATION : string -> option Color.

(** [COLOR_DICT_MUTATION[mutation]] *)
Definition mutation_color (mutation : option string) : result Color :=
  match mutation with
  | None => Raise (KeyError "nan")
  | Some m =>
      match COLOR_DICT_MUTATION m with
      | Some c => Ok c
      | None => Raise (KeyError m)
      end
  end.

(** [temp_df.iloc[x, 1]] *)
Definition iloc (values : list Z) (x : nat) : result Z :=
  match nth_error values x with
  | Some v => Ok v
  | None => Raise IndexError
  end.

(** One [ax.bar] call of [parse_96_df]; the label is given to the first bar
    of each class. *)
Record Bar96 : Type := mkBar96 {
  bar96_x : nat;
  bar96_height : Z;
  bar96_color : Color;
  bar96_label : option string
}.

(** The loop [for x, mutation in zip(x0, temp_df.mutation)]. *)
Fixpoint draw_bars (values : list Z) (added_labels : list string)
  (pairs : list (nat * option string)) : result (list Bar96) :=
  match pairs with
  | [] => Ok []
  | (x, mutation) :: rest =>
      color <- mutation_color mutation ;;
      value <- iloc values x ;;
      match mutation with
      | Some m =>
          if existsb (String.eqb m) added_labels then
            bars <- draw_bars values added_labels rest ;;
            Ok (mkBar96 x value color None :: bars)
          else
            bars <- draw_bars values (m :: added_labels) rest ;;
            Ok (mkBar96 x value color (Some m) :: bars)
      | None => Raise (KeyError "nan")
      end
  end.

(** The loop over the groups, from round [i] on. *)
Fixpoint group_markers (n_groups i : nat) (groups : list (string * list nat))
  : list BlockMarker :=
  match groups with
  | [] => []
  | (mutation_type, indices) :: rest =>
      let idx := last indices 0%nat in
      let middle := nth (List.length indices / 2) indices 0%nat in
      mkBlockMarker (inject_Z (Z.of_nat middle)) (Some mutation_type)
        (if (i <? n_groups - 1)%nat
         then Some (inject_Z (Z.of_nat idx) + (1 # 2))%Q else None)
      :: group_markers n_groups (S i) rest
  end.

(** The page of one column: its bars, block markers, title, tick labels
    (one per tick of [x0]) and the right end of the x axis. *)
Record Page96 : Type := mkPage96 {
  page_bars : list Bar96;
  page_markers : list BlockMarker;
  page_title : string;
  page_ticks : list string;
  page_xlim : nat
}.

(** [parse_96_df(df, col, pdf)], up to the page it saves.  [col] is read
    among the numeric sample columns, none of which is named "mutation";
    the drawing calls are taken to succeed. *)
Definition parse_96_df (df : DataFrame) (col : string) : result Page96 :=
  values <- lookup_column col (samples df) ;;
  let mutation := map search_class (MutationType df) in
  let muts := unique String.eqb (MutationType df) in
  let x0 := seq 0 (List.length muts) in
  bars <- draw_bars values [] (combine x0 mutation) ;;
  let groups := groupby_groups mutation in
  let markers := group_markers (List.length groups) 0 groups in
  x_labels_ticks <- format_xlabels muts ;;
  Ok (mkPage96 bars markers col x_labels_ticks (List.length (MutationType df))).

End Parse96.

(** A colour table to run examples with: the six substitution classes. *)
Definition example_colors (m : string) : option nat :=
  if String.eqb m "C>A" then Some 0%nat
  else if String.eqb m "C>G" then Some 1%nat
  else if String.eqb m "C>T" then Some 2%nat
  else if String.eqb m "T>A" then Some 3%nat
  else if String.eqb m "T>C" then Some 4%nat
  else if String.eqb m "T>G" then Some 5%nat
  else None.

Definition example_table_96 : DataFrame :=
  mkDataFrame
    ["A[C>A]A"; "A[C>A]C"; "A[T>G]A"; "A[C>G]T"]
    [("SBS2", [1; 0; 1; 2]); ("SBS1", [3; 4; 5; 6])]
    None.

(** A string in which the character [c] does not occur. *)
Definition lacks (c : ascii) (s : string) : Prop :=
  forall d, In d (list_ascii_of_string s) -> d <> c.

(** The key with the flanks [left ++ a] and [b ++ right] around the
    bracketed [core]. *)
Definition flanked_key (left : string) (a : ascii) (core : string) (b : ascii)
  (right : string) : string :=
  (left ++ String a (String "[" (core ++ String "]" (String b right))))%string.

(** The legend entries of a page: the labels of its bars, in drawing
    order. *)
Definition legend (Color : Type) (bars : list (Bar96 Color)) : list string :=
  flat_map (fun b => match bar96_label b with Some m => [m] | None => [] end) bars.

(** Long-form rows with one row per context, to run examples with. *)
Definition rows_of_contexts (contexts : list string) : list (LongFormRow Z) :=
  map (fun c => mkLongFormRow 0 c "A" "SBS1" 0) contexts.

(** The pages of a document against the columns of the loop: the pages
    are those of the columns before the first whose page raises, and the call
    returns when there is no such column and raises its exception
    otherwise. *)
Definition rendered_prefix (Page : Type) (page : string -> result Page)
  (cols : list string) (pages : list Page) (ret : result unit) : Prop :=
  exists done rest,
    cols = done ++ rest
    /\ Forall2 (fun c p => page c = Ok p) done pages
    /\ ((rest = [] /\ ret = Ok tt)
        \/ exists c rest' e, rest = c :: rest' /\ page c = Raise e /\ ret = Raise e).

(** ** Cell arithmetic *)

(** [parse_lager_context_df] over a cell type with its own addition: the
    selections and the loops are those of the definitions above, and the
    sums are taken in the arithmetic of the cells. *)
Section Cells.

Variable cell : Type.

(** The number 0 in the cell type: the sum of no cells, and the value
    written for a class whose total is zero. *)
Variable cell_zero : cell.

(** One step of [sum()]: the running sum and the next cell. *)
Variable cell_add : cell -> cell -> cell.

(** [total_sbs_mut == 0] *)
Variable cell_is_zero : cell -> bool.

Record CellFrame : Type := mkCellFrame {
  cf_MutationType : list string;
  cf_samples : list (string * list cell);
  cf_context : option (list (option string))
}.

Fixpoint lookup_cells (col : string) (cols : list (string * list cell))
  : result (list cell) :=
  match cols with
  | [] => Raise (KeyError col)
  | (name, vals) :: cols' =>
      if String.eqb name col then Ok vals else lookup_cells col cols'
  end.

Definition get_cell_context (df : CellFrame) : result (list (option string)) :=
  match cf_context df with
  | Some c => Ok c
  | None => Raise (KeyError "context")
  end.

Record CellRow : Type := mkCellRow {
  cl_MutationType : string;
  cl_value : cell;
  cl_context : option string
}.

Fixpoint make_cell_df (mt : list string) (vals : list cell)
  (ctx : list (option string)) : list CellRow :=
  match mt, vals, ctx with
  | m :: mt', v :: vals', c :: ctx' =>
      mkCellRow m v c :: make_cell_df mt' vals' ctx'
  | _, _, _ => []
  end.

(** [pd.DataFrame({"MutationType": ..., col: df[col], "context": ...})],
    for a sample column [col]. *)
Definition build_cell_df (df : CellFrame) (col : string)
  : result (list CellRow) :=
  vals <- lookup_cells col (cf_samples df) ;;
  ctx <- get_cell_context df ;;
  Ok (make_cell_df (cf_MutationType df) vals ctx).

(** [series.sum()]: the cells are added one after the other, from the
    first row on, starting from zero.  This is the order in which numpy adds
    fewer than eight cells; it adds longer columns in blocks, which gives the
    same sum whenever the addition is associative and commutative. *)
Definition col_sum_cells (rows : list CellRow) : cell :=
  fold_left (fun acc r => cell_add acc (cl_value r)) rows cell_zero.

(** [col_df[col_df["context"] == mut]] *)
Definition select_context_cells (col_df : list CellRow) (mut : string)
  : list CellRow :=
  filter (fun r => option_string_eqb (cl_context r) mut) col_df.

(** [temp_df[temp_df["MutationType"].str[idx] == aa]] *)
Definition select_base_cells (temp_df : list CellRow) (idx : Z) (aa : ascii)
  : list CellRow :=
  filter (fun r => option_ascii_eqb (str_get (cl_MutationType r) idx) aa) temp_df.

Variable Name : Type.
Variable MUTATION_LIST : list string.
Variable generate_numbers : Z -> result (list Z).
Variable generate_sequence : Z -> result (list Name).

Record CellLongFormRow : Type := mkCellLongFormRow {
  clf_name : Name;
  clf_context : string;
  clf_variable : ascii;
  clf_sbs : string;
  clf_value : cell
}.

(** The value of one emitted row. *)
Definition row_value_cells (temp_df : list CellRow) (total_sbs_mut : cell)
  (idx : Z) (aa : ascii) : cell :=
  if cell_is_zero total_sbs_mut then cell_zero
  else col_sum_cells (select_base_cells temp_df idx aa).

(** The [for aa in amino] loop at one position. *)
Definition rows_at_position_cells (col mut : string) (temp_df : list CellRow)
  (total_sbs_mut : cell) (pos : Z * Name) : list CellLongFormRow :=
  map (fun aa =>
         mkCellLongFormRow (snd pos) mut aa col
           (row_value_cells temp_df total_sbs_mut (fst pos) aa))
      amino.

Definition flanking_positions_cells (df : CellFrame)
  : result (list (Z * Name)) :=
  first <- first_entry (cf_MutationType df) ;;
  context_index_list <- generate_numbers (Z.of_nat (String.length first) - 4) ;;
  first' <- first_entry (cf_MutationType df) ;;
  seq <- generate_sequence (Z.of_nat (String.length first') - 4) ;;
  Ok (combine context_index_list seq).

(** The body of [for mut in MUTATION_LIST]. *)
Definition rows_for_mutation_cells (df : CellFrame) (col : string)
  (col_df : list CellRow) (mut : string) : result (list CellLongFormRow) :=
  let temp_df := select_context_cells col_df mut in
  let total_sbs_mut := col_sum_cells temp_df in
  contex_name_generator <- flanking_positions_cells df ;;
  Ok (flat_map (rows_at_position_cells col mut temp_df total_sbs_mut)
        contex_name_generator).

Definition parse_lager_context_df_cells (df : CellFrame) (col : string)
  : result (list CellLongFormRow) :=
  col_df <- build_cell_df df col ;;
  for_each (rows_for_mutation_cells df col col_df) MUTATION_LIST.

(** Whether the key of a row carries one of the four bases at [idx]. *)
Definition has_base_cells (idx : Z) (r : CellRow) : bool :=
  match str_get (cl_MutationType r) idx with
  | Some c => existsb (Ascii.eqb c) amino
  | None => false
  end.

End Cells.

(** int64 cells: a sum is taken modulo 2^64, in the range from -2^63 up to
    2^63 - 1. *)
Definition wrap64 (z : Z) : Z := (z + 2 ^ 63) mod 2 ^ 64 - 2 ^ 63.

Definition int64_add (a b : Z) : Z := wrap64 (a + b).

Definition int64_is_zero (a : Z) : bool := a =? 0.

Definition col_sum_int64 : list (CellRow Z) -> Z := col_sum_cells 0 int64_add.

(** The sum of integer cells without wrap-around, to compare with. *)
Definition col_sum_exact : list (CellRow Z) -> Z := col_sum_cells 0 Z.add.

(** A row of integer cells of the first part, as a row of int64 cells. *)
Definition cell_row (r : ColRow) : CellRow Z :=
  mkCellRow (cr_MutationType r) (cr_value r) (cr_context r).

Definition parse_lager_context_df_int64 (Name : Type)
  (MUTATION_LIST : list string) (generate_numbers : Z -> result (list Z))
  (generate_sequence : Z -> result (list Name))
  : CellFrame Z -> string -> result (list (CellLongFormRow Z Name)) :=
  parse_lager_context_df_cells 0 int64_add int64_is_zero
    MUTATION_LIST generate_numbers generate_sequence.

(** float64 cells: binary64 addition, rounding to nearest.  [sum()] skips
    NaN cells, which comes to adding zero for them, and [== 0] is the
    comparison of IEEE 754: true of both zeros and false of NaN. *)
Definition float64_add (acc x : float) : float :=
  (acc + (if is_nan x then 0 else x))%float.

Definition float64_is_zero (a : float) : bool := (a =? 0)%float.

Definition col_sum_float64 : list (CellRow float) -> float :=
  col_sum_cells 0%float float64_add.

Definition parse_lager_context_df_float64 (Name : Type)
  (MUTATION_LIST : list string) (generate_numbers : Z -> result (list Z))
  (generate_sequence : Z -> result (list Name))
  : CellFrame float -> string -> result (list (CellLongFormRow float Name)) :=
  parse_lager_context_df_cells 0%float float64_add float64_is_zero
    MUTATION_LIST generate_numbers generate_sequence.

(** Helpers to run examples with: the two flanking positions of a key
    [x[y>z]w], and their labels. *)
Definition flank_indices (n : Z) : result (list Z) := Ok [0; 6].

Definition flank_labels (n : Z) : result (list Z) := Ok [-1; 1].

(** Tables to run examples with, one per cell type. *)
Definition float64_table : CellFrame float :=
  mkCellFrame
    ["A[C>A]G"; "C[C>A]T"; "C[C>A]T"]
    [("SBS1", [0.1; 0.2; 0.3]%float)]
    (Some [Some "C>A"; Some "C>A"; Some "C>A"]).

Definition int64_table : CellFrame Z :=
  mkCellFrame
    ["A[C>A]G"; "A[C>A]G"; "C[C>A]T"; "C[C>A]T"; "C[C>A]T"]
    [("SBS1", [2 ^ 62; 2 ^ 62; 2 ^ 62; 2 ^ 62; 1])]
    (Some [Some "C>A"; Some "C>A"; Some "C>A"; Some "C>A"; Some "C>A"]).

Definition small_table : CellFrame Z :=
  mkCellFrame
    ["A[C>A]G"; "C[C>A]T"; "C[C>A]T"; "T[C>G]A"]
    [("SBS1", [3; 4; 5; 6])]
    (Some [Some "C>A"; Some "C>A"; Some "C>A"; Some "C>G"]).

(** A colour table to run examples with: the four bases. *)
Definition example_base_colors (var : ascii) : option nat :=
  if Ascii.eqb var "A" then Some 0%nat
  else if Ascii.eqb var "C" then Some 1%nat
  else if Ascii.eqb var "T" then Some 2%nat
  else if Ascii.eqb var "G" then Some 3%nat
  else None.

(** * Properties *)

(** ** The result monad and the loops *)

Lemma bind_Ok_inv (A B : Type) (r : result A) (k : A -> result B) (b : B) :
  bind r k = Ok b -> exists a, r = Ok a /\ k a = Ok b.
Proof.
  destruct r as [a | e]; simpl; intros H.
  - exists a. split; [reflexivity | exact H].
  - discriminate H.
Qed.

Lemma for_each_Ok (A B : Type) (body : A -> result (list B))
  (f : A -> list B) (l : list A) :
  (forall a, In a l -> body a = Ok (f a)) ->
  for_each body l = Ok (flat_map f l).
Proof.
  induction l as [| a l IH]; intros Hbody; simpl.
  - reflexivity.
  - rewrite (Hbody a (or_introl eq_refl)). simpl.
    rewrite IH by (intros x Hx; apply Hbody; right; exact Hx).
    reflexivity.
Qed.

Lemma flat_map_block (A B : Type) (f : A -> list B) (x : A) (l : list A) :
  In x l -> exists pre post, flat_map f l = pre ++ f x ++ post.
Proof.
  intros Hin. apply in_split in Hin. destruct Hin as (l1 & l2 & ->).
  exists (flat_map f l1), (flat_map f l2).
  rewrite flat_map_app. reflexivity.
Qed.

Lemma flat_map_singleton (A B : Type) (g : A -> B) (l : list A) :
  flat_map (fun a => [g a]) l = map g l.
Proof.
  induction l as [| a l IH]; simpl; [reflexivity | rewrite IH; reflexivity].
Qed.

Lemma flat_map_length_const (A B : Type) (f : A -> list B) (k : nat)
  (l : list A) :
  (forall a, In a l -> List.length (f a) = k) ->
  List.length (flat_map f l) = (List.length l * k)%nat.
Proof.
  induction l as [| a l IH]; intros Hk; simpl.
  - reflexivity.
  - rewrite length_app, Hk by (left; reflexivity).
    rewrite IH by (intros x Hx; apply Hk; right; exact Hx).
    reflexivity.
Qed.

(** ** parse_lager_context_df *)

Section ParseFacts.

Variable Name : Type.
Variable ML : list string.
Variable generate_numbers : Z -> result (list Z).
Variable generate_sequence : Z -> result (list Name).

Let parse := parse_lager_context_df ML generate_numbers generate_sequence.
Let positions_of := flanking_positions generate_numbers generate_sequence.

Lemma parse_lager_context_df_Ok (df : DataFrame) (col : string)
  (col_df : list ColRow) (positions : list (Z * Name)) :
  build_col_df df col = Ok col_df ->
  positions_of df = Ok positions ->
  parse df col
  = Ok (flat_map
          (fun mut =>
             flat_map
               (rows_at_position col mut (select_context col_df mut)
                  (col_sum (select_context col_df mut)))
               positions)
          ML).
Proof.
  intros Hcol Hpos. unfold parse, parse_lager_context_df.
  rewrite Hcol. simpl. apply for_each_Ok. intros mut _.
  unfold rows_for_mutation. fold positions_of. rewrite Hpos. reflexivity.
Qed.

Lemma parse_block (df : DataFrame) (col : string) (col_df : list ColRow)
  (positions : list (Z * Name)) (mut : string) (pos : Z * Name) :
  build_col_df df col = Ok col_df ->
  positions_of df = Ok positions ->
  In mut ML -> In pos positions ->
  exists pre post,
    parse df col
    = Ok (pre ++ rows_at_position col mut (select_context col_df mut)
                   (col_sum (select_context col_df mut)) pos ++ post).
Proof.
  intros Hcol Hpos Hmut Hin.
  rewrite (parse_lager_context_df_Ok _ _ Hcol Hpos).
  destruct (flat_map_block
              (fun mut =>
                 flat_map
                   (rows_at_position col mut (select_context col_df mut)
                      (col_sum (select_context col_df mut)))
                   positions) _ _ Hmut)
    as (pre1 & post1 & ->).
  destruct (flat_map_block
              (rows_at_position col mut (select_context col_df mut)
                 (col_sum (select_context col_df mut))) _ _ Hin)
    as (pre2 & post2 & ->).
  exists (pre1 ++ pre2), (post2 ++ post1).
  rewrite <- !app_assoc. reflexivity.
Qed.

End ParseFacts.

(** ** Sums of cells *)

Section CellFacts.

Variable cell : Type.
Variable cell_zero : cell.
Variable cell_add : cell -> cell -> cell.
Variable cell_is_zero : cell -> bool.
Variable Name : Type.
Variable ML : list string.
Variable generate_numbers : Z -> result (list Z).
Variable generate_sequence : Z -> result (list Name).

Let parse :=
  parse_lager_context_df_cells cell_zero cell_add cell_is_zero
    ML generate_numbers generate_sequence.
Let positions_of :=
  @flanking_positions_cells cell Name generate_numbers generate_sequence.
Let block (col : string) (col_df : list (CellRow cell)) (mut : string) :=
  @rows_at_position_cells cell cell_zero cell_add cell_is_zero Name col mut
    (select_context_cells col_df mut)
    (col_sum_cells cell_zero cell_add (select_context_cells col_df mut)).

Lemma parse_cells_Ok (df : CellFrame cell) (col : string)
  (col_df : list (CellRow cell)) (positions : list (Z * Name)) :
  build_cell_df df col = Ok col_df ->
  positions_of df = Ok positions ->
  parse df col
  = Ok (flat_map (fun mut => flat_map (block col col_df mut) positions) ML).
Proof.
  intros Hcol Hpos. unfold parse, parse_lager_context_df_cells.
  rewrite Hcol. simpl. apply for_each_Ok. intros mut _.
  unfold rows_for_mutation_cells. fold positions_of. rewrite Hpos. reflexivity.
Qed.

Lemma parse_cells_block (df : CellFrame cell) (col : string)
  (col_df : list (CellRow cell)) (positions : list (Z * Name))
  (mut : string) (pos : Z * Name) :
  build_cell_df df col = Ok col_df ->
  positions_of df = Ok positions ->
  In mut ML -> In pos positions ->
  exists pre post,
    parse df col = Ok (pre ++ block col col_df mut pos ++ post).
Proof.
  intros Hcol Hpos Hmut Hin.
  rewrite (parse_cells_Ok _ _ Hcol Hpos).
  destruct (flat_map_block
              (fun mut => flat_map (block col col_df mut) positions) _ _ Hmut)
    as (pre1 & post1 & ->).
  destruct (flat_map_block (block col col_df mut) _ _ Hin)
    as (pre2 & post2 & ->).
  exists (pre1 ++ pre2), (post2 ++ post1).
  rewrite <- !app_assoc. reflexivity.
Qed.

Lemma parse_cells_Ok_inv (df : CellFrame cell) (col : string)
  (out : list (CellLongFormRow cell Name)) :
  parse df col = Ok out ->
  (exists col_df, build_cell_df df col = Ok col_df)
  /\ (ML = [] \/ exists positions, positions_of df = Ok positions).
Proof.
  intros H. unfold parse, parse_lager_context_df_cells in H.
  apply bind_Ok_inv in H. destruct H as (col_df & Hcol & H).
  split; [exists col_df; exact Hcol |].
  destruct ML as [| mut ML']; [left; reflexivity | right].
  simpl in H. apply bind_Ok_inv in H. destruct H as (o & Hmut & _).
  unfold rows_for_mutation_cells in Hmut.
  apply bind_Ok_inv in Hmut. destruct Hmut as (positions & Hpos & _).
  exists positions. exact Hpos.
Qed.

(** The rows of the output, one by one. *)
Lemma parse_cells_rows_In (df : CellFrame cell) (col : string)
  (col_df : list (CellRow cell)) (positions : list (Z * Name))
  (out : list (CellLongFormRow cell Name)) (r : CellLongFormRow cell Name) :
  build_cell_df df col = Ok col_df ->
  positions_of df = Ok positions ->
  parse df col = Ok out ->
  In r out ->
  exists mut pos aa,
    In mut ML /\ In pos positions /\ In aa amino
    /\ r = mkCellLongFormRow (snd pos) mut aa col
             (row_value_cells cell_zero cell_add cell_is_zero
                (select_context_cells col_df mut)
                (col_sum_cells cell_zero cell_add (select_context_cells col_df mut))
                (fst pos) aa).
Proof.
  intros Hcol Hpos Hparse.
  rewrite (parse_cells_Ok _ _ Hcol Hpos) in Hparse.
  injection Hparse as <-.
  intros Hin. apply in_flat_map in Hin. destruct Hin as (mut & Hmut & Hin).
  apply in_flat_map in Hin. destruct Hin as (pos & Hp & Hin).
  unfold block, rows_at_position_cells in Hin. apply in_map_iff in Hin.
  destruct Hin as (aa & <- & Haa).
  exists mut, pos, aa. auto.
Qed.

Lemma select_base_cells_cons (r : CellRow cell) (rows : list (CellRow cell))
  (idx : Z) (aa : ascii) :
  select_base_cells (r :: rows) idx aa
  = if option_ascii_eqb (str_get (cl_MutationType r) idx) aa
    then r :: select_base_cells rows idx aa
    else select_base_cells rows idx aa.
Proof. reflexivity. Qed.

(** Where every key carries one of the four bases, no row is left out. *)
Lemma has_base_cells_all (temp_df : list (CellRow cell)) (idx : Z) :
  (forall r, In r temp_df ->
     exists c, str_get (cl_MutationType r) idx = Some c /\ In c amino) ->
  filter (has_base_cells idx) temp_df = temp_df.
Proof.
  induction temp_df as [| r rows IH]; intros Hbase.
  - reflexivity.
  - cbn [filter]. unfold has_base_cells at 1.
    destruct (Hbase r (or_introl eq_refl)) as (c & -> & Hin).
    assert (Hex : existsb (Ascii.eqb c) amino = true).
    { apply existsb_exists. exists c. split; [exact Hin | apply Ascii.eqb_refl]. }
    rewrite Hex. f_equal. apply IH. intros x Hx. apply Hbase. right. exact Hx.
Qed.

End CellFacts.

(** *** int64 cells *)

Lemma wrap64_range (z : Z) : - 2 ^ 63 <= wrap64 z < 2 ^ 63.
Proof.
  unfold wrap64.
  change (2 ^ 63) with 9223372036854775808.
  change (2 ^ 64) with 18446744073709551616.
  assert (H := Z.mod_pos_bound (z + 9223372036854775808) 18446744073709551616).
  lia.
Qed.

Lemma wrap64_small (z : Z) : - 2 ^ 63 <= z < 2 ^ 63 -> wrap64 z = z.
Proof.
  unfold wrap64.
  change (2 ^ 63) with 9223372036854775808.
  change (2 ^ 64) with 18446744073709551616.
  intros H. rewrite Z.mod_small by lia. lia.
Qed.

Lemma wrap64_add_l (a b : Z) : wrap64 (wrap64 a + b) = wrap64 (a + b).
Proof.
  unfold wrap64. f_equal.
  replace ((a + 2 ^ 63) mod 2 ^ 64 - 2 ^ 63 + b + 2 ^ 63)
    with ((a + 2 ^ 63) mod 2 ^ 64 + b) by lia.
  rewrite Z.add_mod_idemp_l by (change (2 ^ 64) with 18446744073709551616; lia).
  f_equal. lia.
Qed.

Lemma wrap64_add_r (a b : Z) : wrap64 (a + wrap64 b) = wrap64 (a + b).
Proof. rewrite (Z.add_comm a), wrap64_add_l, Z.add_comm. reflexivity. Qed.

Lemma int64_add_wrap (a b : Z) :
  int64_add (wrap64 a) (wrap64 b) = wrap64 (a + b).
Proof. unfold int64_add. rewrite wrap64_add_l, wrap64_add_r. reflexivity. Qed.

Lemma fold_exact_acc (rows : list (CellRow Z)) (a : Z) :
  fold_left (fun acc r => acc + cl_value r) rows a
  = a + fold_left (fun acc r => acc + cl_value r) rows 0.
Proof.
  revert a. induction rows as [| r rows IH]; intros a; cbn [fold_left].
  - lia.
  - rewrite (IH (a + cl_value r)), (IH (0 + cl_value r)). lia.
Qed.

Lemma col_sum_exact_cons (r : CellRow Z) (rows : list (CellRow Z)) :
  col_sum_exact (r :: rows) = cl_value r + col_sum_exact rows.
Proof.
  unfold col_sum_exact, col_sum_cells. cbn [fold_left].
  rewrite fold_exact_acc. lia.
Qed.

Lemma fold_int64_exact (rows : list (CellRow Z)) (a : Z) :
  fold_left (fun acc r => int64_add acc (cl_value r)) rows (wrap64 a)
  = wrap64 (fold_left (fun acc r => acc + cl_value r) rows a).
Proof.
  revert a. induction rows as [| r rows IH]; intros a; cbn [fold_left].
  - reflexivity.
  - unfold int64_add at 2. rewrite wrap64_add_l. apply IH.
Qed.

(** An int64 sum is the exact sum, wrapped. *)
Lemma col_sum_int64_exact (rows : list (CellRow Z)) :
  col_sum_int64 rows = wrap64 (col_sum_exact rows).
Proof.
  unfold col_sum_int64, col_sum_exact, col_sum_cells.
  change 0 with (wrap64 0) at 1. apply fold_int64_exact.
Qed.

(** The sums of the first part are the exact sums, which the int64 sums
    are up to wrap-around. *)
Lemma col_sum_is_exact (rows : list ColRow) :
  col_sum rows = col_sum_exact (map cell_row rows)
  /\ col_sum_int64 (map cell_row rows) = wrap64 (col_sum rows).
Proof.
  assert (H : col_sum rows = col_sum_exact (map cell_row rows)).
  { induction rows as [| r rows IH]; [reflexivity |].
    cbn [map]. rewrite col_sum_exact_cons. cbn [col_sum fold_right].
    fold (col_sum rows). rewrite IH. reflexivity. }
  split; [exact H |]. rewrite col_sum_int64_exact, H. reflexivity.
Qed.

Lemma col_sum_exact_filter_bounds (f : CellRow Z -> bool)
  (rows : list (CellRow Z)) :
  Forall (fun r => 0 <= cl_value r) rows ->
  0 <= col_sum_exact (filter f rows) <= col_sum_exact rows.
Proof.
  induction 1 as [| r rows Hr _ IH]; cbn [filter].
  - unfold col_sum_exact, col_sum_cells; simpl; lia.
  - destruct (f r); rewrite ?col_sum_exact_cons; lia.
Qed.

(** Without overflow the int64 sum of a selection is its exact sum. *)
Lemma col_sum_int64_filter (f : CellRow Z -> bool) (rows : list (CellRow Z)) :
  Forall (fun r => 0 <= cl_value r) rows ->
  col_sum_exact rows < 2 ^ 63 ->
  col_sum_int64 (filter f rows) = col_sum_exact (filter f rows).
Proof.
  intros Hnn Hsmall. rewrite col_sum_int64_exact. apply wrap64_small.
  assert (H := col_sum_exact_filter_bounds f Hnn).
  change (2 ^ 63) with 9223372036854775808 in *. lia.
Qed.

Lemma filter_true (A : Type) (l : list A) : filter (fun _ => true) l = l.
Proof. induction l as [| a l IH]; [reflexivity | cbn [filter]; f_equal; exact IH]. Qed.

Ltac decide_closed_eqb :=
  repeat match goal with
         | |- context [Ascii.eqb (Ascii ?a0 ?a1 ?a2 ?a3 ?a4 ?a5 ?a6 ?a7)
                         (Ascii ?b0 ?b1 ?b2 ?b3 ?b4 ?b5 ?b6 ?b7)] =>
             let t := constr:(Ascii.eqb (Ascii a0 a1 a2 a3 a4 a5 a6 a7)
                                (Ascii b0 b1 b2 b3 b4 b5 b6 b7)) in
             let v := eval vm_compute in t in
             change t with v
         end;
  cbn [orb]; cbv iota.

(** The four selections by base take apart the rows that carry one of the
    four bases at the position. *)
Lemma select_base_cells_has_base (temp_df : list (CellRow Z)) (idx : Z) :
  col_sum_exact (select_base_cells temp_df idx "A")
  + col_sum_exact (select_base_cells temp_df idx "C")
  + col_sum_exact (select_base_cells temp_df idx "T")
  + col_sum_exact (select_base_cells temp_df idx "G")
  = col_sum_exact (filter (has_base_cells idx) temp_df).
Proof.
  induction temp_df as [| r rows IH].
  - reflexivity.
  - rewrite !select_base_cells_cons. cbn [filter]. unfold has_base_cells at 1.
    destruct (str_get (cl_MutationType r) idx) as [c |]; cbn [option_ascii_eqb].
    + unfold amino. cbn [existsb].
      destruct (Ascii.eqb_spec c "A") as [-> | HA];
        [decide_closed_eqb; rewrite !col_sum_exact_cons; lia |].
      destruct (Ascii.eqb_spec c "C") as [-> | HC];
        [decide_closed_eqb; rewrite !col_sum_exact_cons; lia |].
      destruct (Ascii.eqb_spec c "T") as [-> | HT];
        [decide_closed_eqb; rewrite !col_sum_exact_cons; lia |].
      destruct (Ascii.eqb_spec c "G") as [-> | HG];
        [decide_closed_eqb; rewrite !col_sum_exact_cons; lia |].
      cbn [orb]. cbv iota. exact IH.
    + exact IH.
Qed.

(** The four values, added in int64, give the int64 sum of the rows that
    carry one of the four bases. *)
Lemma int64_sum_of_four (temp_df : list (CellRow Z)) (idx : Z) :
  int64_add
    (int64_add
       (int64_add (col_sum_int64 (select_base_cells temp_df idx "A"))
          (col_sum_int64 (select_base_cells temp_df idx "C")))
       (col_sum_int64 (select_base_cells temp_df idx "T")))
    (col_sum_int64 (select_base_cells temp_df idx "G"))
  = col_sum_int64 (filter (has_base_cells idx) temp_df).
Proof.
  rewrite !col_sum_int64_exact, !int64_add_wrap, select_base_cells_has_base.
  reflexivity.
Qed.

(** The claim about exact sums fails on float64 cells and on int64 cells
    that overflow.  With the float64 cells 0.1, 0.2, 0.3 of one class, whose
    keys carry A, C, C at the first position, the total of the class is
    0.6000000000000001, and the values emitted at that position are 0.1,
    0.5, 0 and 0, which add up to 0.6.  With the int64 cells 2^62, 2^62 (A)
    and 2^62, 2^62, 1 (C) the total wraps to 1 and the emitted values are
    -2^63 and -2^63 + 1, whose sum is neither that total nor the total of the
    cells. *)
Lemma conservation_of_mass_inexact :
  (build_cell_df float64_table "SBS1"
   = Ok [mkCellRow "A[C>A]G" 0.1%float (Some "C>A");
         mkCellRow "C[C>A]T" 0.2%float (Some "C>A");
         mkCellRow "C[C>A]T" 0.3%float (Some "C>A")]
   /\ parse_lager_context_df_float64 ["C>A"] flank_indices flank_labels
        float64_table "SBS1"
      = Ok [mkCellLongFormRow (-1) "C>A" "A" "SBS1" 0.1%float;
            mkCellLongFormRow (-1) "C>A" "C" "SBS1" 0.5%float;
            mkCellLongFormRow (-1) "C>A" "T" "SBS1" 0%float;
            mkCellLongFormRow (-1) "C>A" "G" "SBS1" 0%float;
            mkCellLongFormRow 1 "C>A" "A" "SBS1" 0%float;
            mkCellLongFormRow 1 "C>A" "C" "SBS1" 0%float;
            mkCellLongFormRow 1 "C>A" "T" "SBS1" 0.5%float;
            mkCellLongFormRow 1 "C>A" "G" "SBS1" 0.1%float]
   /\ col_sum_float64
        [mkCellRow "A[C>A]G" 0.1%float (Some "C>A");
         mkCellRow "C[C>A]T" 0.2%float (Some "C>A");
         mkCellRow "C[C>A]T" 0.3%float (Some "C>A")]
      = 0.6000000000000001%float
   /\ (0 <? 0.6000000000000001)%float = true
   /\ (0.1 + 0.5 + 0 + 0)%float = 0.6%float
   /\ (0.6 =? 0.6000000000000001)%float = false)
  /\ (parse_lager_context_df_int64 ["C>A"] flank_indices flank_labels
        int64_table "SBS1"
      = Ok [mkCellLongFormRow (-1) "C>A" "A" "SBS1" (- 2 ^ 63);
            mkCellLongFormRow (-1) "C>A" "C" "SBS1" (- 2 ^ 63 + 1);
            mkCellLongFormRow (-1) "C>A" "T" "SBS1" 0;
            mkCellLongFormRow (-1) "C>A" "G" "SBS1" 0;
            mkCellLongFormRow 1 "C>A" "A" "SBS1" 0;
            mkCellLongFormRow 1 "C>A" "C" "SBS1" 0;
            mkCellLongFormRow 1 "C>A" "T" "SBS1" (- 2 ^ 63 + 1);
            mkCellLongFormRow 1 "C>A" "G" "SBS1" (- 2 ^ 63)]
      /\ col_sum_int64
           [mkCellRow "A[C>A]G" (2 ^ 62) (Some "C>A");
            mkCellRow "A[C>A]G" (2 ^ 62) (Some "C>A");
            mkCellRow "C[C>A]T" (2 ^ 62) (Some "C>A");
            mkCellRow "C[C>A]T" (2 ^ 62) (Some "C>A");
            mkCellRow "C[C>A]T" 1 (Some "C>A")]
         = 1
      /\ - 2 ^ 63 + (- 2 ^ 63 + 1) + 0 + 0 <> 1
      /\ - 2 ^ 63 + (- 2 ^ 63 + 1) + 0 + 0 <> 2 ^ 62 + 2 ^ 62 + 2 ^ 62 + 2 ^ 62 + 1).
Proof.
  split.
  - repeat (split; [vm_compute; reflexivity |]). vm_compute; reflexivity.
  - split; [vm_compute; reflexivity |].
    split; [vm_compute; reflexivity |].
    split; vm_compute; discriminate.
Qed.

(** C1 (amended): for a table of int64 cells, a column and a class whose
    column total over the rows of the class is strictly positive, and a
    flanking position at which every key of the class carries one of A, C,
    T, G, the parser returns rows among which the four of that (class,
    position, column), one per base in the order A, C, T, G, stand together;
    each value is the int64 sum over the rows of the class with that base at
    the position, and the four values, added in int64, give the total of the
    class.  When the cells of the class are not negative and their exact
    total is below 2^63, nothing wraps: the four values add up to the total
    as integers, and the total is the exact total of the cells. *)
Theorem conservation_of_mass_int64 :
  forall (Name : Type) (ML : list string)
         (generate_numbers : Z -> result (list Z))
         (generate_sequence : Z -> result (list Name))
         (df : CellFrame Z) (col : string) (col_df : list (CellRow Z))
         (positions : list (Z * Name)) (mut : string) (idx : Z) (name : Name),
    build_cell_df df col = Ok col_df ->
    flanking_positions_cells generate_numbers generate_sequence df = Ok positions ->
    In mut ML ->
    In (idx, name) positions ->
    0 < col_sum_int64 (select_context_cells col_df mut) ->
    (forall r, In r (select_context_cells col_df mut) ->
       exists c, str_get (cl_MutationType r) idx = Some c /\ In c amino) ->
    let temp_df := select_context_cells col_df mut in
    let va := col_sum_int64 (select_base_cells temp_df idx "A") in
    let vc := col_sum_int64 (select_base_cells temp_df idx "C") in
    let vt := col_sum_int64 (select_base_cells temp_df idx "T") in
    let vg := col_sum_int64 (select_base_cells temp_df idx "G") in
    (exists pre post,
       parse_lager_context_df_int64 ML generate_numbers generate_sequence df col
       = Ok (pre
             ++ [mkCellLongFormRow name mut "A" col va;
                 mkCellLongFormRow name mut "C" col vc;
                 mkCellLongFormRow name mut "T" col vt;
                 mkCellLongFormRow name mut "G" col vg]
             ++ post))
    /\ int64_add (int64_add (int64_add va vc) vt) vg = col_sum_int64 temp_df
    /\ (Forall (fun r => 0 <= cl_value r) temp_df ->
        col_sum_exact temp_df < 2 ^ 63 ->
        va + vc + vt + vg = col_sum_int64 temp_df
        /\ col_sum_int64 temp_df = col_sum_exact temp_df).
Proof.
  intros Name ML gn gs df col col_df positions mut idx name
         Hcol Hpos Hmut Hin Htotal Hbase temp_df va vc vt vg.
  split; [| split].
  - destruct (parse_cells_block 0 int64_add int64_is_zero ML gn gs df col
                mut (idx, name) Hcol Hpos Hmut Hin)
      as (pre & post & Hparse).
    exists pre, post. unfold parse_lager_context_df_int64. rewrite Hparse.
    unfold rows_at_position_cells, row_value_cells, amino. cbn [map fst snd].
    fold col_sum_int64. fold temp_df.
    assert (Hnz : int64_is_zero (col_sum_int64 temp_df) = false)
      by (apply Z.eqb_neq; unfold temp_df; lia).
    rewrite Hnz. reflexivity.
  - unfold va, vc, vt, vg. rewrite int64_sum_of_four.
    rewrite (has_base_cells_all temp_df idx Hbase). reflexivity.
  - intros Hnn Hsmall.
    assert (Hall : col_sum_int64 temp_df = col_sum_exact temp_df).
    { rewrite <- (filter_true temp_df) at 1.
      rewrite (col_sum_int64_filter _ Hnn Hsmall), filter_true. reflexivity. }
    split; [| exact Hall].
    unfold va, vc, vt, vg, select_base_cells.
    rewrite !(col_sum_int64_filter _ Hnn Hsmall), Hall.
    fold (select_base_cells temp_df idx "A"). fold (select_base_cells temp_df idx "C").
    fold (select_base_cells temp_df idx "T"). fold (select_base_cells temp_df idx "G").
    rewrite select_base_cells_has_base, (has_base_cells_all temp_df idx Hbase).
    reflexivity.
Qed.

Lemma conservation_of_mass_int64_witness :
  let temp_df :=
    [mkCellRow "A[C>A]G" 3 (Some "C>A"); mkCellRow "C[C>A]T" 4 (Some "C>A");
     mkCellRow "C[C>A]T" 5 (Some "C>A")] in
  let va := col_sum_int64 (select_base_cells temp_df 0 "A") in
  let vc := col_sum_int64 (select_base_cells temp_df 0 "C") in
  let vt := col_sum_int64 (select_base_cells temp_df 0 "T") in
  let vg := col_sum_int64 (select_base_cells temp_df 0 "G") in
  (exists pre post,
     parse_lager_context_df_int64 ["C>A"; "C>G"] flank_indices flank_labels
       small_table "SBS1"
     = Ok (pre
           ++ [mkCellLongFormRow (-1) "C>A" "A" "SBS1" va;
               mkCellLongFormRow (-1) "C>A" "C" "SBS1" vc;
               mkCellLongFormRow (-1) "C>A" "T" "SBS1" vt;
               mkCellLongFormRow (-1) "C>A" "G" "SBS1" vg]
           ++ post))
  /\ int64_add (int64_add (int64_add va vc) vt) vg = 12
  /\ va + vc + vt + vg = 12
  /\ 12 = col_sum_exact temp_df.
Proof.
  intros temp_df va vc vt vg.
  destruct (@conservation_of_mass_int64 Z ["C>A"; "C>G"] flank_indices
              flank_labels small_table "SBS1"
              [mkCellRow "A[C>A]G" 3 (Some "C>A");
               mkCellRow "C[C>A]T" 4 (Some "C>A");
               mkCellRow "C[C>A]T" 5 (Some "C>A");
               mkCellRow "T[C>G]A" 6 (Some "C>G")]
              [(0, -1); (6, 1)] "C>A" 0 (-1))
    as (Hrows & Hsum & Hexact).
  - reflexivity.
  - reflexivity.
  - simpl; auto.
  - simpl; auto.
  - reflexivity.
  - intros r [<- | [<- | [<- | []]]]; simpl.
    + exists "A"%char. split; [reflexivity | simpl; auto].
    + exists "C"%char. split; [reflexivity | simpl; auto].
    + exists "C"%char. split; [reflexivity | simpl; auto].
  - split; [exact Hrows |]. split; [exact Hsum |].
    apply Hexact.
    + repeat constructor; simpl; lia.
    + vm_compute. reflexivity.
Defined.

Lemma col_sum_no_rows (col_df : list ColRow) (mut : string) :
  select_context col_df mut = [] -> col_sum (select_context col_df mut) = 0.
Proof. intros ->. reflexivity. Qed.

(** The first key of the table gives the position count, so a table
    without rows makes the parser raise, whatever the helpers are. *)
Lemma parse_lager_context_df_no_rows (Name : Type)
  (gn : Z -> result (list Z)) (gs : Z -> result (list Name)) :
  parse_lager_context_df MUTATION_LIST gn gs empty_table "SBS1"
  = Raise (KeyError "0").
Proof. reflexivity. Qed.

(** C2: for a table, a column, a substitution class and a flanking position,
    if the column's values over the rows of the class add up to zero (as
    they do when the class has no rows), the parser returns normally, and
    the four rows of that (class, column, position), one per base, carry the
    value zero. *)
Theorem zero_total_emits_zero :
  forall (Name : Type) (ML : list string)
         (generate_numbers : Z -> result (list Z))
         (generate_sequence : Z -> result (list Name))
         (df : DataFrame) (col : string) (col_df : list ColRow)
         (positions : list (Z * Name)) (mut : string) (idx : Z) (name : Name),
    build_col_df df col = Ok col_df ->
    flanking_positions generate_numbers generate_sequence df = Ok positions ->
    In mut ML ->
    In (idx, name) positions ->
    col_sum (select_context col_df mut) = 0 ->
    exists pre post,
      parse_lager_context_df ML generate_numbers generate_sequence df col
      = Ok (pre
            ++ [mkLongFormRow name mut "A" col 0;
                mkLongFormRow name mut "C" col 0;
                mkLongFormRow name mut "T" col 0;
                mkLongFormRow name mut "G" col 0]
            ++ post).
Proof.
  intros Name ML gn gs df col col_df positions mut idx name
         Hcol Hpos Hmut Hin Hzero.
  destruct (parse_block ML gn gs df col mut (idx, name) Hcol Hpos Hmut Hin)
    as (pre & post & Hparse).
  exists pre, post. rewrite Hparse.
  unfold rows_at_position, row_value, amino. rewrite Hzero. reflexivity.
Qed.

Lemma zero_total_emits_zero_witness :
  exists pre post,
    parse_lager_context_df MUTATION_LIST count_up count_up example_table "SBS2"
    = Ok (pre
          ++ [mkLongFormRow 4 "T>A" "A" "SBS2" 0;
              mkLongFormRow 4 "T>A" "C" "SBS2" 0;
              mkLongFormRow 4 "T>A" "T" "SBS2" 0;
              mkLongFormRow 4 "T>A" "G" "SBS2" 0]
          ++ post).
Proof.
  apply (@zero_total_emits_zero Z MUTATION_LIST count_up count_up
           example_table "SBS2"
           [mkColRow "TA[C>A]AT" 1 (Some "C>A"); mkColRow "GA[C>A]AC" 0 (Some "C>A");
            mkColRow "CC[C>G]TT" 1 (Some "C>G"); mkColRow "GT[C>G]AA" 2 (Some "C>G")]
           [(0, 0); (1, 1); (2, 2); (3, 3); (4, 4)] "T>A" 4 4).
  - reflexivity.
  - reflexivity.
  - unfold MUTATION_LIST; simpl; auto.
  - simpl; auto 10.
  - reflexivity.
Defined.

(** ** The order and the number of the emitted rows *)

Lemma count_up_scheme : position_scheme count_up count_up.
Proof.
  intros n Hn. unfold count_up.
  exists (map Z.of_nat (seq 0 (Z.to_nat n))), (map Z.of_nat (seq 0 (Z.to_nat n))).
  rewrite length_map, length_seq. auto.
Qed.

Lemma flanking_positions_count (Name : Type)
  (gn : Z -> result (list Z)) (gs : Z -> result (list Name))
  (df : DataFrame) (first : string) :
  position_scheme gn gs ->
  first_entry (MutationType df) = Ok first ->
  (4 <= String.length first)%nat ->
  exists positions,
    flanking_positions gn gs df = Ok positions
    /\ List.length positions = (String.length first - 4)%nat.
Proof.
  intros Hscheme Hfirst Hlen.
  destruct (Hscheme (Z.of_nat (String.length first) - 4))
    as (idxs & names & Hgn & Hgs & Hli & Hln); [lia |].
  exists (combine idxs names). split.
  - unfold flanking_positions. rewrite Hfirst. simpl.
    rewrite Hgn. simpl. rewrite Hgs. reflexivity.
  - rewrite length_combine, Hli, Hln. lia.
Qed.

(** C5: the parser emits its rows class by class in the order C>A, C>G,
    C>T, T>A, T>C, T>G, within a class position by position, and within a
    position base by base in the order A, C, T, G; the positions number the
    length [L] of the table's first key minus 4, so that 6 * 4 * (L - 4)
    rows are emitted. *)
Theorem emission_order :
  forall (Name : Type)
         (generate_numbers : Z -> result (list Z))
         (generate_sequence : Z -> result (list Name))
         (df : DataFrame) (col : string) (col_df : list ColRow)
         (first : string),
    position_scheme generate_numbers generate_sequence ->
    build_col_df df col = Ok col_df ->
    first_entry (MutationType df) = Ok first ->
    (4 <= String.length first)%nat ->
    exists positions out,
      flanking_positions generate_numbers generate_sequence df = Ok positions
      /\ List.length positions = (String.length first - 4)%nat
      /\ parse_lager_context_df MUTATION_LIST generate_numbers
           generate_sequence df col = Ok out
      /\ map (fun r => (lf_context r, lf_name r, lf_variable r)) out
         = flat_map
             (fun mut =>
                flat_map
                  (fun pos : Z * Name =>
                     map (fun aa => (mut, snd pos, aa)) ["A"; "C"; "T"; "G"]%char)
                  positions)
             ["C>A"; "C>G"; "C>T"; "T>A"; "T>C"; "T>G"]
      /\ Forall (fun r => lf_sbs r = col) out
      /\ List.length out = (6 * 4 * (String.length first - 4))%nat.
Proof.
  intros Name gn gs df col col_df first Hscheme Hcol Hfirst Hlen.
  destruct (flanking_positions_count df Hscheme Hfirst Hlen)
    as (positions & Hpos & Hcount).
  exists positions. eexists. split; [exact Hpos |]. split; [exact Hcount |].
  split; [apply (parse_lager_context_df_Ok _ _ _ _ _ Hcol Hpos) |].
  split; [| split].
  - unfold MUTATION_LIST. rewrite !flat_map_concat_map, !concat_map, !map_map.
    f_equal. apply map_ext. intros mut.
    rewrite !flat_map_concat_map, !concat_map, !map_map.
    f_equal.
  - apply Forall_forall. intros r Hr.
    apply in_flat_map in Hr. destruct Hr as (mut & _ & Hr).
    apply in_flat_map in Hr. destruct Hr as (pos & _ & Hr).
    unfold rows_at_position in Hr. apply in_map_iff in Hr.
    destruct Hr as (aa & <- & _). reflexivity.
  - rewrite (@flat_map_length_const _ _ _ (4 * List.length positions)%nat).
    + unfold MUTATION_LIST. simpl List.length. lia.
    + intros mut _.
      rewrite (@flat_map_length_const _ _ _ 4%nat); [lia |].
      intros pos _. reflexivity.
Qed.

Lemma emission_order_witness :
  exists positions out,
    flanking_positions count_up count_up example_table = Ok positions
    /\ List.length positions = 5%nat
    /\ parse_lager_context_df MUTATION_LIST count_up count_up
         example_table "SBS10" = Ok out
    /\ map (fun r => (lf_context r, lf_name r, lf_variable r)) out
       = flat_map
           (fun mut =>
              flat_map
                (fun pos : Z * Z =>
                   map (fun aa => (mut, snd pos, aa)) ["A"; "C"; "T"; "G"]%char)
                positions)
           ["C>A"; "C>G"; "C>T"; "T>A"; "T>C"; "T>G"]
    /\ Forall (fun r => lf_sbs r = "SBS10") out
    /\ List.length out = 120%nat.
Proof.
  apply (@emission_order Z count_up count_up example_table "SBS10"
           [mkColRow "TA[C>A]AT" 0 (Some "C>A"); mkColRow "GA[C>A]AC" 0 (Some "C>A");
            mkColRow "CC[C>G]TT" 2 (Some "C>G"); mkColRow "GT[C>G]AA" 5 (Some "C>G")]
           "TA[C>A]AT").
  - exact count_up_scheme.
  - reflexivity.
  - reflexivity.
  - simpl; lia.
Defined.

(** ** format_xlabels *)

Lemma str_get_nonneg (s : string) (i : Z) :
  0 <= i < Z.of_nat (String.length s) ->
  str_get s i = String.get (Z.to_nat i) s.
Proof.
  intros Hi. unfold str_get.
  assert (H1 : (i <? Z.of_nat (String.length s)) = true)
    by (apply Z.ltb_lt; lia).
  assert (H2 : (- Z.of_nat (String.length s) <=? i) = true)
    by (apply Z.leb_le; lia).
  assert (H3 : (i <? 0) = false) by (apply Z.ltb_ge; lia).
  rewrite H1, H2, H3. reflexivity.
Qed.

Lemma str_get_last (s : string) :
  (0 < String.length s)%nat ->
  str_get s (-1) = String.get (String.length s - 1) s.
Proof.
  intros Hn. unfold str_get.
  assert (H1 : (-1 <? Z.of_nat (String.length s)) = true)
    by (apply Z.ltb_lt; lia).
  assert (H2 : (- Z.of_nat (String.length s) <=? -1) = true)
    by (apply Z.leb_le; lia).
  rewrite H1, H2. simpl andb. cbv iota.
  replace (-1 <? 0) with true by reflexivity. cbv iota.
  f_equal. lia.
Qed.

Lemma get_in_range (s : string) (n : nat) :
  (n < String.length s)%nat -> exists c, String.get n s = Some c.
Proof.
  revert n. induction s as [| a s IH]; intros n Hn; simpl in Hn.
  - lia.
  - destruct n as [| n]; simpl.
    + exists a. reflexivity.
    + apply IH. lia.
Qed.

(** What the label transform makes of a token with two flanking bases on
    each side: the opening bracket takes the place of the substituted
    base. *)
Lemma format_xlabels_pentanucleotide :
  format_xlabels ["TA[C>A]AT"] = Ok ["T[T"]
  /\ format_xlabels ["TA[C>A]AT"] <> Ok ["TCT"].
Proof. split; [reflexivity | discriminate]. Qed.

(** C6 (amended): for a token with one flanking base on each side of the
    bracket, [x[y>z]w], the label is the flanking base, the substituted
    base and the other flanking base, [xyw]; so "A[C>A]A" gives "ACA" and
    "T[G>C]T" gives "TGT".  In general the label of a token is its first, its
    third and its last character, and a token of fewer than three characters
    raises an index error. *)
Theorem format_xlabels_trinucleotide :
  (forall tokens : list (ascii * ascii * ascii * ascii),
     format_xlabels (map trinucleotide tokens) = Ok (map simplified tokens))
  /\ format_xlabels ["A[C>A]A"; "T[G>C]T"] = Ok ["ACA"; "TGT"]
  /\ (forall (a b c : ascii) (rest : string),
        exists l,
          String.get (String.length rest + 2) (String a (String b (String c rest)))
          = Some l
          /\ format_xlabel (String a (String b (String c rest)))
             = Ok (String a (String c (String l ""))))
  /\ (forall label : string,
        (String.length label < 3)%nat -> format_xlabel label = Raise IndexError).
Proof.
  split; [| split; [| split]].
  - induction tokens as [| [[[x y] z] w] tokens IH].
    + reflexivity.
    + cbn [map format_xlabels]. rewrite IH. reflexivity.
  - reflexivity.
  - intros a b c rest.
    set (s := String a (String b (String c rest))).
    assert (Hlen : String.length s = S (S (S (String.length rest)))) by reflexivity.
    destruct (@get_in_range s (String.length rest + 2)) as (l & Hl); [lia |].
    exists l. split; [exact Hl |].
    unfold format_xlabel, str_index.
    rewrite (@str_get_nonneg s 0), (@str_get_nonneg s 2) by lia.
    rewrite str_get_last by lia.
    replace (String.length s - 1)%nat with (String.length rest + 2)%nat by lia.
    rewrite Hl. reflexivity.
  - intros label Hlen.
    destruct label as [| a [| b [| c rest]]]; try reflexivity.
    simpl in Hlen. lia.
Qed.

Lemma format_xlabels_trinucleotide_witness :
  format_xlabel "AC" = Raise IndexError.
Proof.
  destruct format_xlabels_trinucleotide as (_ & _ & _ & H).
  apply H. simpl. lia.
Defined.

(** ** The column sort *)

Section SortedFacts.

Variable Key : Type.
Variable key : string -> Key.
Variable ltb : Key -> Key -> bool.

Lemma insert_by_key_perm (x : string) (l : list string) :
  Permutation (x :: l) (insert_by_key key ltb x l).
Proof.
  induction l as [| y l IH]; simpl.
  - apply Permutation_refl.
  - destruct (ltb (key y) (key x)).
    + eapply perm_trans; [apply perm_swap |].
      apply perm_skip. exact IH.
    + apply Permutation_refl.
Qed.

Lemma sorted_perm (names : list string) :
  Permutation names (sorted key ltb names).
Proof.
  induction names as [| x names IH]; simpl.
  - apply perm_nil.
  - eapply perm_trans; [apply perm_skip; exact IH |].
    apply insert_by_key_perm.
Qed.

(** Where the keys of the names are ordered by a measure, the sort leaves
    the names in the order of the measure. *)
Variable measure : string -> N.
Variable P : string -> Prop.
Hypothesis ltb_measure :
  forall a b, P a -> P b -> ltb (key a) (key b) = (measure a <? measure b)%N.

Lemma insert_by_key_sorted (x : string) (l : list string) :
  P x -> Forall P l ->
  StronglySorted (fun a b => (measure a <= measure b)%N) l ->
  StronglySorted (fun a b => (measure a <= measure b)%N)
    (insert_by_key key ltb x l).
Proof.
  intros Hx HP Hs. induction Hs as [| y l Hs IH Hy]; simpl.
  - constructor; constructor.
  - inversion HP as [| ? ? HPy HPl]; subst.
    rewrite (ltb_measure HPy Hx).
    destruct (measure y <? measure x)%N eqn:Hlt.
    + apply N.ltb_lt in Hlt. constructor.
      * apply IH. exact HPl.
      * apply (Permutation_Forall (insert_by_key_perm x l)).
        constructor; [lia | exact Hy].
    + apply N.ltb_ge in Hlt. constructor.
      * constructor; assumption.
      * constructor; [exact Hlt |].
        eapply Forall_impl; [| exact Hy].
        simpl. intros a Ha. lia.
Qed.

Lemma sorted_sorted (names : list string) :
  Forall P names ->
  StronglySorted (fun a b => (measure a <= measure b)%N)
    (sorted key ltb names).
Proof.
  induction names as [| x names IH]; intros HP; simpl.
  - constructor.
  - inversion HP as [| ? ? HPx HPl]; subst.
    apply insert_by_key_sorted.
    + exact HPx.
    + apply (Permutation_Forall (sorted_perm names)). exact HPl.
    + apply IH. exact HPl.
Qed.

End SortedFacts.

Lemma name_prefix_numeral (u : Decimal.uint) :
  name_prefix (NilEmpty.string_of_uint u) = EmptyString.
Proof. destruct u; reflexivity. Qed.

Lemma name_digits_numeral (u : Decimal.uint) :
  name_digits (NilEmpty.string_of_uint u) = NilEmpty.string_of_uint u.
Proof. destruct u; reflexivity. Qed.

Lemma name_prefix_column_name (prefix : string) (n : nat) :
  digit_free prefix = true -> name_prefix (column_name prefix n) = prefix.
Proof.
  unfold column_name, decimal. induction prefix as [| c prefix IH]; simpl.
  - intros _. apply name_prefix_numeral.
  - intros H. apply andb_prop in H. destruct H as [Hc Hrest].
    apply negb_true_iff in Hc. rewrite Hc, (IH Hrest). reflexivity.
Qed.

Lemma name_digits_column_name (prefix : string) (n : nat) :
  digit_free prefix = true -> name_digits (column_name prefix n) = decimal n.
Proof.
  unfold column_name, decimal. induction prefix as [| c prefix IH]; simpl.
  - intros _. apply name_digits_numeral.
  - intros H. apply andb_prop in H. destruct H as [Hc Hrest].
    apply negb_true_iff in Hc. rewrite Hc. exact (IH Hrest).
Qed.

Lemma digits_value_digit (c : ascii) (s : string) (acc : N) :
  is_digit c = true ->
  digits_value acc (String c s)
  = digits_value (10 * acc + (N_of_ascii c - 48))%N s.
Proof. intros H. simpl. rewrite H. reflexivity. Qed.

Ltac read_digit IH :=
  rewrite digits_value_digit by reflexivity;
  rewrite IH, Nat.tail_mul_spec;
  match goal with
  | |- context [(N_of_ascii ?c - 48)%N] =>
      let k := eval vm_compute in (N_of_ascii c - 48)%N in
      change (N_of_ascii c - 48)%N with k
  end;
  f_equal; f_equal; lia.

(** Reading the digits of a numeral gives the number it denotes. *)
Lemma digits_value_numeral (u : Decimal.uint) (acc : N) :
  digits_value acc (NilEmpty.string_of_uint u)
  = N.of_nat (Nat.of_uint_acc u (N.to_nat acc)).
Proof.
  revert acc.
  induction u as [| u IH | u IH | u IH | u IH | u IH | u IH | u IH | u IH
                  | u IH | u IH ];
    intros acc; cbn [NilEmpty.string_of_uint Nat.of_uint_acc];
    [ simpl; lia | read_digit IH .. ].
Qed.

Lemma digits_value_decimal (n : nat) :
  digits_value 0%N (decimal n) = N.of_nat n.
Proof.
  unfold decimal. rewrite digits_value_numeral. f_equal.
  exact (DecimalNat.Unsigned.of_to n).
Qed.

Lemma custom_sort_column_names_column_name (prefix : string) (n : nat) :
  digit_free prefix = true ->
  custom_sort_column_names (column_name prefix n) = (prefix, N.of_nat n).
Proof.
  intros H. unfold custom_sort_column_names.
  rewrite (name_prefix_column_name prefix n H), (name_digits_column_name prefix n H).
  rewrite digits_value_decimal. reflexivity.
Qed.

Lemma string_compare_refl (s : string) : String.compare s s = Eq.
Proof.
  induction s as [| c s IH]; simpl.
  - reflexivity.
  - unfold Ascii.compare. rewrite N.compare_refl. exact IH.
Qed.

Lemma key_ltb_same_prefix (a b : string) :
  name_prefix a = name_prefix b ->
  key_ltb (custom_sort_column_names a) (custom_sort_column_names b)
  = (snd (custom_sort_column_names a) <? snd (custom_sort_column_names b))%N.
Proof.
  intros H. unfold key_ltb, custom_sort_column_names. simpl. rewrite H.
  rewrite string_compare_refl. reflexivity.
Qed.

Lemma sorted_by_suffix (prefix : string) (ns : list nat) :
  digit_free prefix = true ->
  StronglySorted
    (fun a b => (snd (custom_sort_column_names a)
                 <= snd (custom_sort_column_names b))%N)
    (map (column_name prefix) ns) ->
  StronglySorted le ns.
Proof.
  intros Hp. induction ns as [| n ns IH]; intros Hs.
  - constructor.
  - cbn [map] in Hs. inversion Hs as [| ? ? Hs' Hall]; subst.
    constructor; [apply IH; exact Hs' |].
    rewrite Forall_map in Hall.
    eapply Forall_impl; [| exact Hall].
    cbv beta. intros m Hm.
    rewrite !custom_sort_column_names_column_name in Hm by exact Hp.
    cbn [snd] in Hm. lia.
Qed.

(** C4: column names made of a shared prefix without digits and numeric
    suffixes are put in the order of the numbers their suffixes denote:
    the sorted list holds the same names, and the numbers read along it never
    decrease; SBS1, SBS2, SBS10, SBS3 come out as SBS1, SBS2, SBS3, SBS10. *)
Theorem sort_is_numeric :
  forall (prefix : string) (ns : list nat),
    digit_free prefix = true ->
    (exists ns',
       sorted_columns (map (column_name prefix) ns)
       = map (column_name prefix) ns'
       /\ Permutation ns ns'
       /\ StronglySorted le ns')
    /\ sorted_columns ["SBS1"; "SBS2"; "SBS10"; "SBS3"]
       = ["SBS1"; "SBS2"; "SBS3"; "SBS10"].
Proof.
  intros prefix ns Hp. split; [| reflexivity].
  assert (Hperm := sorted_perm custom_sort_column_names key_ltb
                     (map (column_name prefix) ns)).
  apply Permutation_sym in Hperm.
  destruct (Permutation_map_inv _ _ Hperm) as (ns' & Hout & Hns).
  exists ns'. split; [exact Hout |]. split; [exact Hns |].
  apply (sorted_by_suffix prefix ns' Hp).
  unfold sorted_columns in Hout. rewrite <- Hout.
  apply (@sorted_sorted _ custom_sort_column_names key_ltb
           (fun a => snd (custom_sort_column_names a))
           (fun a => name_prefix a = prefix)).
  - intros a b Ha Hb. apply key_ltb_same_prefix. congruence.
  - apply Forall_map. apply Forall_forall. intros n _.
    apply name_prefix_column_name. exact Hp.
Qed.

Lemma sort_is_numeric_witness :
  (exists ns',
     sorted_columns (map (column_name "SBS") [1; 2; 10; 3]%nat)
     = map (column_name "SBS") ns'
     /\ Permutation [1; 2; 10; 3]%nat ns'
     /\ StronglySorted le ns')
  /\ sorted_columns ["SBS1"; "SBS2"; "SBS10"; "SBS3"]
     = ["SBS1"; "SBS2"; "SBS3"; "SBS10"].
Proof.
  apply (sort_is_numeric "SBS" [1; 2; 10; 3]%nat). reflexivity.
Defined.

(** ** Bar geometry *)

Section GeometryFacts.

Local Open Scope Q_scope.

Lemma group_values_Ok (Name : Type)
  (Name_eq_dec : forall a b : Name, {a = b} + {a <> b})
  (Name_str : Name -> string) (df : list (LongFormRow Name)) (name : Name)
  (var : ascii) :
  group_rows Name_eq_dec df name var <> [] ->
  group_values Name_eq_dec Name_str df name var
  = Ok (map (@lf_value Name) (group_rows Name_eq_dec df name var)).
Proof.
  intros Hrows. unfold group_values.
  destruct (group_rows Name_eq_dec df name var); [contradiction | reflexivity].
Qed.

(** Arrays of one length broadcast. *)
Lemma broadcastable_same (n : nat) (lens : list nat) :
  Forall (eq n) lens -> broadcastable lens = true.
Proof.
  intros Hall. unfold broadcastable.
  assert (Hf : Forall (eq n) (filter (fun m => negb (m =? 1)%nat) lens)).
  { apply Forall_forall. intros m Hm. apply filter_In in Hm.
    rewrite Forall_forall in Hall. apply Hall. apply Hm. }
  destruct (filter (fun m => negb (m =? 1)%nat) lens) as [| m rest];
    [reflexivity |].
  inversion Hf as [| ? ? Hm Hrest]; subst.
  apply forallb_forall. intros k Hk. rewrite Forall_forall in Hrest.
  rewrite <- (Hrest k Hk). apply Nat.eqb_refl.
Qed.

(** When every group of the name has one row per tick and every variable
    has a colour, the inner loop draws one bar per variable and raises
    nothing. *)
Lemma stacked_bars_Ok (Name : Type)
  (Name_eq_dec : forall a b : Name, {a = b} + {a <> b})
  (Name_str : Name -> string) (Color : Type)
  (COLOR_DICT : ascii -> option Color) (df : list (LongFormRow Name))
  (x : list Q) (w : Q) (name : Name) (variable : list ascii)
  (bottom : option nat) :
  (1 <= List.length x)%nat ->
  (forall var, In var variable ->
     List.length (group_rows Name_eq_dec df name var) = List.length x) ->
  (forall var, In var variable -> COLOR_DICT var <> None) ->
  bottom = None \/ bottom = Some (List.length x) ->
  exists bars,
    stacked_bars Name_eq_dec Name_str COLOR_DICT df x w name bottom variable
    = Ok bars
    /\ map fst bars
       = map (fun var =>
                mkBar x w name var
                  (map (@lf_value Name) (group_rows Name_eq_dec df name var)))
             variable
    /\ Forall (fun b => COLOR_DICT (bar_variable (fst b)) = Some (snd b)) bars.
Proof.
  intros Hx. revert bottom.
  induction variable as [| var rest IH]; intros bottom Hrows Hcolor Hbottom.
  - exists []. repeat split; constructor.
  - cbn [stacked_bars].
    assert (Hlen := Hrows var (or_introl eq_refl)).
    rewrite group_values_Ok
      by (intros Hnil; rewrite Hnil in Hlen; simpl in Hlen; lia).
    cbn [bind]. unfold variable_color.
    destruct (COLOR_DICT var) as [c |] eqn:Hc;
      [| exfalso; exact (Hcolor var (or_introl eq_refl) Hc)].
    cbn [bind]. rewrite length_map, Hlen.
    assert (IH' : forall b, b = None \/ b = Some (List.length x) ->
              exists bars,
                stacked_bars Name_eq_dec Name_str COLOR_DICT df x w name b rest
                = Ok bars
                /\ map fst bars
                   = map (fun var =>
                            mkBar x w name var
                              (map (@lf_value Name)
                                 (group_rows Name_eq_dec df name var)))
                         rest
                /\ Forall (fun b => COLOR_DICT (bar_variable (fst b)) = Some (snd b))
                     bars).
    { intros b Hb. apply IH; [| | exact Hb].
      - intros v Hv. apply Hrows. right. exact Hv.
      - intros v Hv. apply Hcolor. right. exact Hv. }
    destruct Hbottom as [-> | ->].
    + rewrite broadcastable_same with (n := List.length x)
        by (repeat constructor).
      destruct (IH' (Some (List.length x)) (or_intror eq_refl))
        as (bars & -> & Hfst & Hcol).
      cbn [bind]. eexists. split; [reflexivity |]. split.
      * cbn [map fst]. rewrite Hfst. reflexivity.
      * constructor; [exact Hc | exact Hcol].
    + rewrite broadcastable_same with (n := List.length x)
        by (repeat constructor).
      rewrite Nat.eqb_refl. cbn [orb].
      destruct (IH' (Some (List.length x)) (or_intror eq_refl))
        as (bars & -> & Hfst & Hcol).
      cbn [bind]. eexists. split; [reflexivity |]. split.
      * cbn [map fst]. rewrite Hfst. reflexivity.
      * constructor; [exact Hc | exact Hcol].
Qed.

Lemma unique_nonempty (A : Type) (eqb : A -> A -> bool) (l : list A) :
  l <> [] -> unique eqb l <> [].
Proof.
  destruct l as [| a l]; [contradiction |]. intros _. unfold unique. simpl.
  discriminate.
Qed.

(** A group of rows with two rows for three ticks makes [ax.bar] raise. *)
Example ragged_group_raises :
  increased_context_bars Z.eq_dec (fun _ => "") example_base_colors
    [mkLongFormRow (-1)%Z "C>A" "A" "SBS1" 3%Z;
     mkLongFormRow (-1)%Z "C>G" "A" "SBS1" 4%Z;
     mkLongFormRow 1%Z "C>A" "A" "SBS1" 7%Z;
     mkLongFormRow 1%Z "C>G" "A" "SBS1" 1%Z;
     mkLongFormRow 1%Z "C>T" "A" "SBS1" 5%Z]
  = Raise ValueError.
Proof. reflexivity. Qed.

(** C7: when the long-form rows carry exactly two distinct names, each
    (name, variable) group has one row per context tick and each variable has
    a colour, the bars of the first name stand at [x - w/2] and the bars of
    the second at [x + w/2] for every context tick [x], with the bar width
    [w = 0.45]; the two positions are symmetric around [x]. *)
Theorem two_groups_symmetric :
  forall (Name : Type) (Name_eq_dec : forall a b : Name, {a = b} + {a <> b})
         (Name_str : Name -> string) (Color : Type)
         (COLOR_DICT : ascii -> option Color) (df : list (LongFormRow Name)),
    let names := unique (Name_eqb Name_eq_dec) (map (@lf_name Name) df) in
    let variable := unique Ascii.eqb (map (@lf_variable Name) df) in
    let labels := unique String.eqb (map (@lf_context Name) df) in
    let x0 := arange (List.length labels) in
    let w := 45 # 100 in
    List.length names = 2%nat ->
    (forall name var, In name names -> In var variable ->
       List.length (group_rows Name_eq_dec df name var) = List.length labels) ->
    (forall var, In var variable -> COLOR_DICT var <> None) ->
    exists left right bars,
      names = [left; right]
      /\ increased_context_bars Name_eq_dec Name_str COLOR_DICT df = Ok bars
      /\ map fst bars
         = map (fun var =>
                  mkBar (map (fun x => x - w / 2) x0) w left var
                    (map (@lf_value Name) (group_rows Name_eq_dec df left var)))
               variable
           ++ map (fun var =>
                     mkBar (map (fun x => x + w / 2) x0) w right var
                       (map (@lf_value Name) (group_rows Name_eq_dec df right var)))
                  variable
      /\ Forall (fun b => COLOR_DICT (bar_variable (fst b)) = Some (snd b)) bars
      /\ (forall x : Q, ((x - w / 2) + (x + w / 2)) / 2 == x)
      /\ (forall x : Q, (x + w / 2) - (x - w / 2) == w).
Proof.
  intros Name Name_eq_dec Name_str Color COLOR_DICT df names variable labels
         x0 w Hstacks Hgroups Hcolor.
  destruct names as [| left [| right [| third rest]]] eqn:Hnames;
    try discriminate Hstacks.
  assert (Hdf : df <> []).
  { intros ->. discriminate Hnames. }
  assert (Hticks : (1 <= List.length labels)%nat).
  { assert (Hl : labels <> []).
    { apply unique_nonempty. destruct df; [contradiction | discriminate]. }
    destruct labels; [contradiction | simpl; lia]. }
  assert (Hx0 : List.length x0 = List.length labels).
  { unfold x0, arange. rewrite length_map, length_seq. reflexivity. }
  destruct (@stacked_bars_Ok Name Name_eq_dec Name_str Color COLOR_DICT df
              (map (fun x => x - w / 2) x0) w left variable None)
    as (bars1 & Hb1 & Hf1 & Hc1).
  { rewrite length_map, Hx0. exact Hticks. }
  { intros var Hvar. rewrite length_map, Hx0.
    apply Hgroups; [left; reflexivity | exact Hvar]. }
  { exact Hcolor. }
  { left. reflexivity. }
  destruct (@stacked_bars_Ok Name Name_eq_dec Name_str Color COLOR_DICT df
              (map (fun x => x + w / 2) x0) w right variable None)
    as (bars2 & Hb2 & Hf2 & Hc2).
  { rewrite length_map, Hx0. exact Hticks. }
  { intros var Hvar. rewrite length_map, Hx0.
    apply Hgroups; [right; left; reflexivity | exact Hvar]. }
  { exact Hcolor. }
  { left. reflexivity. }
  exists left, right, (bars1 ++ bars2).
  split; [reflexivity |]. split; [| split; [| split; [| split]]].
  - unfold increased_context_bars.
    destruct df as [| r df']; [contradiction |].
    cbn [sbs_title bind]. fold names. rewrite Hnames.
    cbn [List.length cluster_offsets Nat.eqb combine].
    fold variable. fold labels. fold x0.
    cbn [for_each fst snd].
    change (inject_Z (Z.of_nat 2)) with (2 : Q).
    fold w. rewrite Hb1, Hb2.
    cbn [bind]. rewrite app_nil_r. reflexivity.
  - rewrite map_app, Hf1, Hf2. reflexivity.
  - apply Forall_app. split; assumption.
  - intros x. unfold w. field.
  - intros x. unfold w. field.
Qed.

Lemma two_groups_symmetric_witness :
  let w := 45 # 100 in
  let df :=
    [mkLongFormRow (-2)%Z "C>A" "A" "SBS1" 3%Z;
     mkLongFormRow (-2)%Z "C>A" "C" "SBS1" 4%Z;
     mkLongFormRow 2%Z "C>A" "A" "SBS1" 7%Z;
     mkLongFormRow 2%Z "C>A" "C" "SBS1" 0%Z;
     mkLongFormRow (-2)%Z "C>G" "A" "SBS1" 1%Z;
     mkLongFormRow (-2)%Z "C>G" "C" "SBS1" 5%Z;
     mkLongFormRow 2%Z "C>G" "A" "SBS1" 6%Z;
     mkLongFormRow 2%Z "C>G" "C" "SBS1" 0%Z] in
  exists left right bars,
    [(-2)%Z; 2%Z] = [left; right]
    /\ increased_context_bars Z.eq_dec (fun _ => "") example_base_colors df
       = Ok bars
    /\ map fst bars
       = map (fun var =>
                mkBar (map (fun x => x - w / 2) (arange 2)) w left var
                  (map (@lf_value Z) (group_rows Z.eq_dec df left var)))
             ["A"; "C"]%char
         ++ map (fun var =>
                   mkBar (map (fun x => x + w / 2) (arange 2)) w right var
                     (map (@lf_value Z) (group_rows Z.eq_dec df right var)))
                ["A"; "C"]%char
    /\ Forall (fun b => example_base_colors (bar_variable (fst b)) = Some (snd b))
         bars
    /\ (forall x : Q, ((x - w / 2) + (x + w / 2)) / 2 == x)
    /\ (forall x : Q, (x + w / 2) - (x - w / 2) == w).
Proof.
  intros w df.
  apply (@two_groups_symmetric Z Z.eq_dec (fun _ => "") nat
           example_base_colors df).
  - reflexivity.
  - intros name var [<- | [<- | []]] [<- | [<- | []]]; reflexivity.
  - intros var [<- | [<- | []]]; discriminate.
Defined.

End GeometryFacts.

(** ** The context pattern *)

Lemma all_dot_nil : all_dot "".
Proof. intros c []. Qed.

Lemma all_dot_cons (c : ascii) (body : string) :
  is_dot c = true -> all_dot body -> all_dot (String c body).
Proof.
  intros Hc Hbody d [<- | Hd]; [exact Hc | apply Hbody; exact Hd].
Qed.

Lemma all_dot_inv (c : ascii) (body : string) :
  all_dot (String c body) -> is_dot c = true /\ all_dot body.
Proof.
  intros H. split.
  - apply H. left. reflexivity.
  - intros d Hd. apply H. right. exact Hd.
Qed.

Lemma match_tail_sound (s t : string) :
  match_tail s = Some t ->
  exists body b post,
    s = (body ++ String "]" (String b post))%string
    /\ t = (body ++ String "]" (String b ""))%string
    /\ all_dot body /\ is_word b = true.
Proof.
  revert t. induction s as [| c s IH]; intros t H; simpl in H.
  - discriminate H.
  - destruct (is_dot c) eqn:Hdot.
    + destruct (match_tail s) as [t' |] eqn:Htail.
      * injection H as <-.
        destruct (IH t' eq_refl) as (body & b & post & -> & -> & Hbody & Hb).
        exists (String c body), b, post.
        repeat split; try assumption. apply all_dot_cons; assumption.
      * destruct (Ascii.eqb c "]") eqn:Hc; [| discriminate H].
        apply Ascii.eqb_eq in Hc. subst c.
        destruct s as [| d s']; [discriminate H |].
        destruct (is_word d) eqn:Hd; [| discriminate H].
        injection H as <-.
        exists EmptyString, d, s'. repeat split; try assumption. apply all_dot_nil.
    + destruct (Ascii.eqb c "]") eqn:Hc; [| discriminate H].
      apply Ascii.eqb_eq in Hc. subst c. discriminate Hdot.
Qed.

Lemma match_tail_complete (body post : string) (b : ascii) :
  all_dot body -> is_word b = true ->
  exists t, match_tail (body ++ String "]" (String b post)) = Some t.
Proof.
  intros Hbody Hb. induction body as [| c body IH]; cbn [append].
  - remember (String b post) as rest eqn:Hrest.
    cbn [match_tail]. replace (is_dot "]") with true by reflexivity.
    destruct (match_tail rest) as [t |].
    + exists (String "]" t). reflexivity.
    + subst rest. replace (Ascii.eqb "]" "]") with true by reflexivity.
      rewrite Hb. eexists. reflexivity.
  - cbn [match_tail]. apply all_dot_inv in Hbody. destruct Hbody as [Hc Hbody].
    rewrite Hc. destruct (IH Hbody) as (t & ->).
    eexists. reflexivity.
Qed.

Lemma match_here_sound (s m : string) :
  match_here s = Some m ->
  exists a body b post,
    s = String a (String "[" (body ++ String "]" (String b post)))%string
    /\ m = String a (String "[" (body ++ String "]" (String b "")))%string
    /\ is_word a = true /\ is_word b = true /\ all_dot body.
Proof.
  intros H. destruct s as [| a [| c s']]; simpl in H; try discriminate H.
  destruct (is_word a) eqn:Ha; simpl in H; [| discriminate H].
  destruct (Ascii.eqb c "[") eqn:Hc; [| discriminate H].
  apply Ascii.eqb_eq in Hc. subst c.
  destruct (match_tail s') as [t |] eqn:Htail; [| discriminate H].
  injection H as <-.
  destruct (match_tail_sound _ Htail) as (body & b & post & -> & -> & Hbody & Hb).
  exists a, body, b, post. repeat split; assumption.
Qed.

(** What the search returns is a token [a[body]b] that stands in the key. *)
Lemma search_context_sound (s m : string) :
  search_context s = Some m ->
  exists pre a body b post,
    s = (pre ++ String a (String "[" (body ++ String "]" (String b post))))%string
    /\ m = String a (String "[" (body ++ String "]" (String b "")))%string
    /\ is_word a = true /\ is_word b = true /\ all_dot body.
Proof.
  induction s as [| c s IH]; intros H.
  - discriminate H.
  - cbn [search_context] in H.
    destruct (match_here (String c s)) as [m' |] eqn:Hhere.
    + injection H as <-.
      destruct (match_here_sound _ Hhere)
        as (a & body & b & post & Hs & Hm & Ha & Hb & Hbody).
      exists EmptyString, a, body, b, post. repeat split; assumption.
    + destruct (IH H) as (pre & a & body & b & post & -> & Hm & Ha & Hb & Hbody).
      exists (String c pre), a, body, b, post. repeat split; assumption.
Qed.

Lemma search_context_complete (s : string) :
  matches_context_pattern s -> exists m, search_context s = Some m.
Proof.
  intros (pre & a & body & b & post & -> & Ha & Hb & Hbody).
  induction pre as [| c pre IH].
  - destruct (@match_tail_complete body post b Hbody Hb) as (t & Ht).
    cbn [append search_context match_here]. rewrite Ha, Ht. simpl.
    eexists. reflexivity.
  - cbn [append search_context].
    destruct (match_here _) as [m |]; [eexists; reflexivity | exact IH].
Qed.

(** A key has no context exactly when it does not match the pattern. *)
Lemma search_context_None (s : string) :
  search_context s = None <-> ~ matches_context_pattern s.
Proof.
  split.
  - intros Hnone Hm. destruct (search_context_complete Hm) as (m & Hsome).
    congruence.
  - intros Hno. destruct (search_context s) as [m |] eqn:Hs; [| reflexivity].
    exfalso. apply Hno.
    destruct (search_context_sound _ Hs)
      as (pre & a & body & b & post & H1 & _ & Ha & Hb & Hbody).
    exists pre, a, body, b, post. repeat split; assumption.
Qed.

(** ** The reports *)

Section ReportFacts.

Variable Name : Type.
Variable Page : Type.

Lemma for_columns_saved (page : string -> result Page) (cols : list string) :
  exists pages, fst (for_columns page cols) = map (@Saved Page) pages.
Proof.
  induction cols as [| col cols IH]; simpl.
  - exists []. reflexivity.
  - destruct (page col) as [p | e]; simpl.
    + destruct IH as (pages & ->). exists (p :: pages). reflexivity.
    + exists []. reflexivity.
Qed.

Lemma for_columns_Raise (page : string -> result Page) (cols : list string)
  (col : string) (e : exn) :
  In col cols -> page col = Raise e ->
  exists e', snd (for_columns page cols) = Raise e'.
Proof.
  induction cols as [| c cols IH]; intros Hin Hpage; simpl.
  - destruct Hin.
  - destruct (page c) as [p | e0] eqn:Hc; simpl.
    + destruct Hin as [-> | Hin]; [congruence | apply IH; assumption].
    + exists e0. reflexivity.
Qed.

Lemma for_columns_Raise_inv (page : string -> result Page)
  (cols : list string) (e : exn) :
  snd (for_columns page cols) = Raise e ->
  exists col, In col cols /\ page col = Raise e.
Proof.
  induction cols as [| c cols IH]; simpl; intros H.
  - discriminate H.
  - destruct (page c) as [p | e0] eqn:Hc; simpl in H.
    + destruct (IH H) as (col & Hin & Hcol).
      exists col. split; [right; exact Hin | exact Hcol].
    + injection H as ->. exists c. split; [left; reflexivity | exact Hc].
Qed.

Lemma for_columns_Ok (page : string -> result Page) (cols : list string) :
  (forall col, In col cols -> exists p, page col = Ok p) ->
  snd (for_columns page cols) = Ok tt.
Proof.
  induction cols as [| c cols IH]; simpl; intros H.
  - reflexivity.
  - destruct (H c (or_introl eq_refl)) as (p & ->). simpl.
    apply IH. intros col Hcol. apply H. right. exact Hcol.
Qed.

Lemma with_PdfPages_scoped (path : Path) (page : string -> result Page)
  (cols : list string) :
  scoped (fst (with_PdfPages path (for_columns page cols))).
Proof.
  destruct (for_columns_saved page cols) as (pages & Hpages).
  exists path, pages. simpl. rewrite Hpages. reflexivity.
Qed.

Lemma scoped_counts (doc : list (event Page)) :
  scoped doc ->
  count_events (@is_Opened Page) doc = 1%nat
  /\ count_events (@is_Closed Page) doc = 1%nat
  /\ last doc (@Closed Page) = @Closed Page
  /\ (exists path, hd_error doc = Some (Opened Page path)).
Proof.
  intros (path & pages & ->). unfold count_events.
  repeat split.
  - simpl. rewrite filter_app. simpl. rewrite length_app. simpl.
    replace (filter (@is_Opened Page) (map (@Saved Page) pages)) with (@nil (event Page)).
    + reflexivity.
    + induction pages; simpl; auto.
  - simpl. rewrite filter_app. simpl. rewrite length_app. simpl.
    replace (filter (@is_Closed Page) (map (@Saved Page) pages)) with (@nil (event Page)).
    + reflexivity.
    + induction pages; simpl; auto.
  - rewrite app_comm_cons. apply last_last.
  - exists path. reflexivity.
Qed.

(** The columns a report iterates over are the sample columns. *)
Lemma larger_context_columns (df : DataFrame) (ctx : list (option string)) :
  removelast (tl (columns (set_context df ctx))) = map fst (samples df).
Proof.
  unfold columns, set_context. simpl. apply removelast_last.
Qed.

End ReportFacts.

(** An injected failure at the column SBS2: the two reports still close
    their document, after the pages saved before the failure. *)
Example injected_failure_larger :
  let o := larger_context_barplot custom_sort_column_names key_ltb
             MUTATION_LIST count_up count_up (@render_failing Z)
             (fun _ => example_table) 0%nat ["out"] in
  document o = [Opened nat ["out"; "signatures.4.pdf"]; Saved 120%nat; Closed nat]
  /\ returned o = Raise (RenderError "injected").
Proof. split; reflexivity. Qed.

Example injected_failure_96 :
  let o := create_96_barplot custom_sort_column_names key_ltb render_column
             (fun _ => example_table) 0%nat ["out"] in
  document o = [Opened string ["out"; "signatures.96.pdf"]; Saved "SBS1"; Closed string]
  /\ returned o = Raise (RenderError "injected").
Proof. split; reflexivity. Qed.

(** C8: in both reports the document is opened once, before anything
    else, and closed once, after everything else, whatever the renderers
    do; and when the page of some column raises, the call raises, its
    document closed all the same. *)
Theorem document_closed_once :
  forall (Name Page Key : Type) (key : string -> Key)
         (ltb : Key -> Key -> bool) (ML : list string)
         (gn : Z -> result (list Z)) (gs : Z -> result (list Name))
         (render : list (LongFormRow Name) -> result Page)
         (parse_96 : DataFrame -> string -> result Page)
         (st : Store) (df : Ref) (folder : Path),
    let o1 := larger_context_barplot key ltb ML gn gs render st df folder in
    let o2 := create_96_barplot key ltb parse_96 st df folder in
    (scoped (document o1)
     /\ count_events (@is_Opened Page) (document o1) = 1%nat
     /\ count_events (@is_Closed Page) (document o1) = 1%nat
     /\ last (document o1) (Closed Page) = Closed Page)
    /\ (scoped (document o2)
        /\ count_events (@is_Opened Page) (document o2) = 1%nat
        /\ count_events (@is_Closed Page) (document o2) = 1%nat
        /\ last (document o2) (Closed Page) = Closed Page)
    /\ (forall col e,
          In col (map fst (samples (st df))) ->
          larger_context_page ML gn gs render (tables o1 df) col = Raise e ->
          exists e', returned o1 = Raise e')
    /\ (forall col e,
          In col (tl (columns (st df))) ->
          parse_96 (st df) col = Raise e ->
          exists e', returned o2 = Raise e').
Proof.
  intros Name Page Key key ltb ML gn gs render parse_96 st df folder o1 o2.
  assert (Hs1 : scoped (document o1)) by apply with_PdfPages_scoped.
  assert (Hs2 : scoped (document o2)) by apply with_PdfPages_scoped.
  split; [| split; [| split]].
  - split; [exact Hs1 |]. destruct (scoped_counts Hs1) as (H1 & H2 & H3 & _).
    auto.
  - split; [exact Hs2 |]. destruct (scoped_counts Hs2) as (H1 & H2 & H3 & _).
    auto.
  - intros col e Hin Hraise.
    unfold o1, larger_context_barplot. cbn [returned with_PdfPages snd].
    eapply for_columns_Raise.
    + eapply Permutation_in; [apply sorted_perm |].
      unfold store_set at 1. rewrite Nat.eqb_refl.
      rewrite larger_context_columns. exact Hin.
    + unfold o1, larger_context_barplot in Hraise. cbn [tables] in Hraise.
      exact Hraise.
  - intros col e Hin Hraise.
    unfold o2, create_96_barplot. cbn [returned with_PdfPages snd].
    eapply for_columns_Raise.
    + eapply Permutation_in; [apply sorted_perm | exact Hin].
    + exact Hraise.
Qed.

Lemma document_closed_once_witness :
  exists e',
    returned (larger_context_barplot custom_sort_column_names key_ltb
                MUTATION_LIST count_up count_up (@render_failing Z)
                (fun _ => example_table) 0%nat ["out"])
    = Raise e'.
Proof.
  destruct (@document_closed_once Z nat (string * N) custom_sort_column_names
              key_ltb MUTATION_LIST count_up count_up (@render_failing Z)
              (fun _ _ => Ok 0%nat) (fun _ => example_table) 0%nat ["out"])
    as (_ & _ & H & _).
  apply (H "SBS2" (RenderError "injected")).
  - simpl. auto.
  - reflexivity.
Defined.

(** The numeral in a file name reads back as the number of rows. *)
Lemma decimal_reads_back (n : nat) :
  option_map Nat.of_uint (NilEmpty.uint_of_string (decimal n)) = Some n.
Proof.
  unfold decimal. rewrite NilEmpty.usu. simpl.
  rewrite DecimalNat.Unsigned.of_to. reflexivity.
Qed.

Example larger_context_file_name :
  document (larger_context_barplot custom_sort_column_names key_ltb
              MUTATION_LIST count_up count_up (@render_rows Z)
              (fun _ => example_table) 0%nat ["results"; "figures"])
  = [Opened nat ["results"; "figures"; "signatures.4.pdf"];
     Saved 120%nat; Saved 120%nat; Saved 120%nat; Closed nat].
Proof. reflexivity. Qed.

(** C9: the larger-context report writes its document to the file
    [signatures.<N>.pdf] of the output directory, [N] the number of rows of
    the table in decimal, and the 96-context report writes its document to
    the file [signatures.96.pdf] of the output directory; neither opens any
    other file. *)
Theorem output_file_names :
  forall (Name Page Key : Type) (key : string -> Key)
         (ltb : Key -> Key -> bool) (ML : list string)
         (gn : Z -> result (list Z)) (gs : Z -> result (list Name))
         (render : list (LongFormRow Name) -> result Page)
         (parse_96 : DataFrame -> string -> result Page)
         (st : Store) (df : Ref) (folder : Path),
    let N := List.length (MutationType (st df)) in
    let o1 := larger_context_barplot key ltb ML gn gs render st df folder in
    let o2 := create_96_barplot key ltb parse_96 st df folder in
    let file1 := folder ++ [("signatures." ++ decimal N ++ ".pdf")%string] in
    let file2 := folder ++ ["signatures.96.pdf"] in
    hd_error (document o1) = Some (Opened Page file1)
    /\ filter (@is_Opened Page) (document o1) = [Opened Page file1]
    /\ hd_error (document o2) = Some (Opened Page file2)
    /\ filter (@is_Opened Page) (document o2) = [Opened Page file2]
    /\ option_map Nat.of_uint (NilEmpty.uint_of_string (decimal N)) = Some N.
Proof.
  intros Name Page Key key ltb ML gn gs render parse_96 st df folder
         N o1 o2 file1 file2.
  assert (Hnone : forall pages : list Page,
             filter (@is_Opened Page) (map (@Saved Page) pages ++ [Closed Page]) = [])
    by (induction pages; simpl; auto).
  assert (Hrow : forall ctx, row_count (set_context (st df) ctx) = N)
    by reflexivity.
  split; [| split; [| split; [| split]]].
  - unfold o1, larger_context_barplot, with_PdfPages, path_join.
    cbn [document fst hd_error].
    unfold store_set. rewrite Nat.eqb_refl, Hrow. reflexivity.
  - unfold o1, larger_context_barplot, with_PdfPages, path_join.
    cbn [document fst]. unfold store_set at 1 2. rewrite Nat.eqb_refl, Hrow.
    match goal with
    | |- context [for_columns ?page ?cols] =>
        destruct (for_columns_saved page cols) as (pages & ->)
    end.
    cbn [filter is_Opened]. rewrite Hnone. reflexivity.
  - reflexivity.
  - unfold o2, create_96_barplot, with_PdfPages, path_join.
    cbn [document fst].
    match goal with
    | |- context [for_columns ?page ?cols] =>
        destruct (for_columns_saved page cols) as (pages & ->)
    end.
    cbn [filter is_Opened]. rewrite Hnone. reflexivity.
  - apply decimal_reads_back.
Qed.

(** ** The context column *)

Example extracted_token :
  str_extract_context ["TA[C>A]AT"; "A[C>A]A"; "ACA"]
  = [Some "A[C>A]A"; Some "A[C>A]A"; None].
Proof. reflexivity. Qed.

(** The extracted token keeps a flanking character on each side of the
    bracket, so it is none of the bare substitution classes. *)
Lemma extracted_token_is_no_class (s m : string) :
  search_context s = Some m -> ~ In m MUTATION_LIST.
Proof.
  intros Hs Hin.
  destruct (search_context_sound _ Hs) as (pre & a & body & b & post & _ & -> & _).
  unfold MUTATION_LIST in Hin. simpl in Hin.
  repeat (destruct Hin as [Hin | Hin]; [discriminate Hin |]).
  exact Hin.
Qed.

(** C10: the larger-context report writes into the table it was given:
    after the call, whether it returned or raised, the caller's table has a
    "context" column that holds for each row the token extracted from its
    key, its other columns are as they were, and no other table is touched;
    a table that had no such column is therefore not what it was. *)
Theorem context_written_in_place :
  forall (Name Page Key : Type) (key : string -> Key)
         (ltb : Key -> Key -> bool) (ML : list string)
         (gn : Z -> result (list Z)) (gs : Z -> result (list Name))
         (render : list (LongFormRow Name) -> result Page)
         (st : Store) (df : Ref) (folder : Path),
    let o := larger_context_barplot key ltb ML gn gs render st df folder in
    tables o df
    = mkDataFrame (MutationType (st df)) (samples (st df))
        (Some (map search_context (MutationType (st df))))
    /\ (forall r : Ref, r <> df -> tables o r = st r)
    /\ (context (st df) = None -> tables o df <> st df)
    /\ (forall i s,
          nth_error (MutationType (st df)) i = Some s ->
          exists ctx,
            context (tables o df) = Some ctx
            /\ nth_error ctx i = Some (search_context s)).
Proof.
  intros Name Page Key key ltb ML gn gs render st df folder o.
  assert (Htab : tables o df
                 = mkDataFrame (MutationType (st df)) (samples (st df))
                     (Some (map search_context (MutationType (st df))))).
  { unfold o, larger_context_barplot. cbn [tables].
    unfold store_set. rewrite Nat.eqb_refl. reflexivity. }
  split; [exact Htab |]. split; [| split].
  - intros r Hr. unfold o, larger_context_barplot. cbn [tables].
    unfold store_set. apply Nat.eqb_neq in Hr. rewrite Hr. reflexivity.
  - intros Hnone Heq. rewrite Htab in Heq. rewrite <- Heq in Hnone.
    discriminate Hnone.
  - intros i s Hs. rewrite Htab. cbn [context].
    eexists. split; [reflexivity |].
    rewrite nth_error_map, Hs. reflexivity.
Qed.

Lemma context_written_in_place_witness :
  tables (larger_context_barplot custom_sort_column_names key_ltb
            MUTATION_LIST count_up count_up (@render_rows Z)
            (fun _ => malformed_table) 0%nat ["out"]) 0%nat
  <> malformed_table.
Proof.
  destruct (@context_written_in_place Z nat (string * N)
              custom_sort_column_names key_ltb MUTATION_LIST count_up count_up
              (@render_rows Z) (fun _ => malformed_table) 0%nat ["out"])
    as (_ & _ & H & _).
  apply H. reflexivity.
Defined.

(** ** Keys that do not match the pattern *)

Lemma lookup_column_In (col : string) (cols : list (string * list Z))
  (vals : list Z) :
  lookup_column col cols = Ok vals -> exists name, In (name, vals) cols.
Proof.
  induction cols as [| [name v] cols IH]; simpl; intros H.
  - discriminate H.
  - destruct (String.eqb name col).
    + injection H as ->. exists name. left. reflexivity.
    + destruct (IH H) as (name' & Hin). exists name'. right. exact Hin.
Qed.

Lemma make_col_df_nth (mt : list string) (vals : list Z)
  (ctx : list (option string)) (i : nat) (s : string) (c : option string) :
  List.length vals = List.length mt ->
  List.length ctx = List.length mt ->
  nth_error mt i = Some s ->
  nth_error ctx i = Some c ->
  exists v, nth_error (make_col_df mt vals ctx) i = Some (mkColRow s v c).
Proof.
  revert vals ctx i.
  induction mt as [| m mt IH]; intros vals ctx i Hv Hc Hs Hctx.
  - destruct i; discriminate Hs.
  - destruct vals as [| v vals]; [discriminate Hv |].
    destruct ctx as [| c0 ctx]; [discriminate Hc |].
    destruct i as [| i]; simpl in *.
    + injection Hs as ->. injection Hctx as ->. exists v. reflexivity.
    + apply IH; auto.
Qed.

(** A row without context is in no class: the selection of every class is
    what it would be without the row. *)
Lemma select_context_skips_nan (pre post : list ColRow) (r : ColRow)
  (mut : string) :
  cr_context r = None ->
  select_context (pre ++ r :: post) mut = select_context (pre ++ post) mut.
Proof.
  intros Hr. unfold select_context. rewrite !filter_app. simpl.
  rewrite Hr. reflexivity.
Qed.

(** A table with a key that does not match the pattern, on which the
    report returns normally. *)
Lemma malformed_key_raises_nothing :
  let o := larger_context_barplot custom_sort_column_names key_ltb
             MUTATION_LIST count_up count_up (@render_rows Z)
             (fun _ => malformed_table) 0%nat ["out"] in
  In "ACA" (MutationType malformed_table)
  /\ ~ matches_context_pattern "ACA"
  /\ returned o = Ok tt
  /\ document o = [Opened nat ["out"; "signatures.2.pdf"]; Saved 72%nat; Closed nat].
Proof.
  split; [right; left; reflexivity |].
  split; [apply search_context_None; reflexivity |].
  split; reflexivity.
Qed.

(** C3 (amended): a key that does not match the pattern gets no context
    (NaN) in the derived column; its row is then in the selection of no class,
    so that it adds to no emitted value; and the report raises no error on
    its account: the call returns normally when the pages of all columns are
    rendered, and an exception of the call is the exception of the page of
    some column. *)
Theorem malformed_key_is_dropped :
  forall (Name Page Key : Type) (key : string -> Key)
         (ltb : Key -> Key -> bool) (ML : list string)
         (gn : Z -> result (list Z)) (gs : Z -> result (list Name))
         (render : list (LongFormRow Name) -> result Page)
         (st : Store) (df : Ref) (folder : Path) (i : nat) (s : string),
    well_formed (st df) ->
    nth_error (MutationType (st df)) i = Some s ->
    ~ matches_context_pattern s ->
    let o := larger_context_barplot key ltb ML gn gs render st df folder in
    let page := larger_context_page ML gn gs render (tables o df) in
    (exists ctx,
       context (tables o df) = Some ctx /\ nth_error ctx i = Some None)
    /\ (forall col col_df,
          build_col_df (tables o df) col = Ok col_df ->
          exists pre v post,
            col_df = pre ++ mkColRow s v None :: post
            /\ List.length pre = i
            /\ forall mut,
                 select_context col_df mut = select_context (pre ++ post) mut)
    /\ ((forall col, In col (map fst (samples (st df))) ->
           exists p, page col = Ok p) ->
        returned o = Ok tt)
    /\ (forall e, returned o = Raise e ->
          exists col, In col (map fst (samples (st df))) /\ page col = Raise e).
Proof.
  intros Name Page Key key ltb ML gn gs render st df folder i s
         Hwf Hs Hbad o page.
  assert (Htab : tables o df
                 = set_context (st df) (str_extract_context (MutationType (st df)))).
  { unfold o, larger_context_barplot. cbn [tables].
    unfold store_set. rewrite Nat.eqb_refl. reflexivity. }
  assert (Hcols : forall col,
             In col (sorted key ltb (removelast (tl (columns (tables o df)))))
             <-> In col (map fst (samples (st df)))).
  { intros col. rewrite Htab, larger_context_columns. split; intros H.
    - eapply Permutation_in; [apply Permutation_sym, sorted_perm | exact H].
    - eapply Permutation_in; [apply sorted_perm | exact H]. }
  assert (Hret : returned o
                 = snd (for_columns page
                          (sorted key ltb (removelast (tl (columns (tables o df))))))).
  { unfold page. rewrite Htab. unfold o, larger_context_barplot.
    cbn [returned with_PdfPages snd]. unfold store_set.
    rewrite Nat.eqb_refl. reflexivity. }
  assert (Hnan : nth_error (str_extract_context (MutationType (st df))) i
                 = Some None).
  { unfold str_extract_context. rewrite nth_error_map, Hs. simpl.
    f_equal. apply search_context_None. exact Hbad. }
  split; [| split; [| split]].
  - rewrite Htab. eexists. split; [reflexivity | exact Hnan].
  - intros col col_df Hbuild. rewrite Htab in Hbuild.
    unfold build_col_df in Hbuild. cbn [samples set_context get_context context
                                        MutationType] in Hbuild.
    apply bind_Ok_inv in Hbuild. destruct Hbuild as (vals & Hvals & Hbuild).
    simpl in Hbuild. injection Hbuild as <-.
    destruct (lookup_column_In _ _ Hvals) as (name & Hin).
    destruct Hwf as [Hsamples _].
    rewrite Forall_forall in Hsamples. specialize (Hsamples _ Hin).
    simpl in Hsamples.
    destruct (@make_col_df_nth (MutationType (st df)) vals
                (str_extract_context (MutationType (st df))) i s None)
      as (v & Hrow); auto.
    { unfold str_extract_context. apply length_map. }
    destruct (nth_error_split _ _ Hrow) as (pre & post & Hsplit & Hlen).
    exists pre, v, post. split; [exact Hsplit |]. split; [exact Hlen |].
    intros mut. rewrite Hsplit. apply select_context_skips_nan. reflexivity.
  - intros Hall. rewrite Hret. apply for_columns_Ok.
    intros col Hcol. apply Hall. apply Hcols. exact Hcol.
  - intros e He. rewrite Hret in He.
    destruct (for_columns_Raise_inv _ _ He) as (col & Hin & Hcol).
    exists col. split; [apply Hcols; exact Hin | exact Hcol].
Qed.

Lemma malformed_key_is_dropped_witness :
  returned (larger_context_barplot custom_sort_column_names key_ltb
              MUTATION_LIST count_up count_up (@render_rows Z)
              (fun _ => malformed_table) 0%nat ["out"])
  = Ok tt.
Proof.
  destruct (@malformed_key_is_dropped Z nat (string * N)
              custom_sort_column_names key_ltb MUTATION_LIST count_up count_up
              (@render_rows Z) (fun _ => malformed_table) 0%nat ["out"]
              1%nat "ACA")
    as (_ & _ & H & _).
  - split; [repeat constructor | exact I].
  - reflexivity.
  - apply search_context_None. reflexivity.
  - apply H. intros col [<- | []]. eexists. reflexivity.
Defined.

(** * Further properties *)

(** ** The parser: failures, shape and bounds of its output *)

Lemma lookup_column_Raise (col : string) (cols : list (string * list Z))
  (e : exn) :
  lookup_column col cols = Raise e -> e = KeyError col.
Proof.
  induction cols as [| [name v] cols IH]; simpl; intros H.
  - injection H as <-. reflexivity.
  - destruct (String.eqb name col); [discriminate H | exact (IH H)].
Qed.

Lemma for_each_Ok_exists (A B : Type) (body : A -> result (list B))
  (l : list A) :
  (forall a, In a l -> exists o, body a = Ok o) ->
  exists out, for_each body l = Ok out.
Proof.
  induction l as [| a l IH]; simpl; intros H.
  - exists []. reflexivity.
  - destruct (H a (or_introl eq_refl)) as (o & ->).
    destruct IH as (rest & ->); [intros x Hx; apply H; right; exact Hx |].
    exists (o ++ rest). reflexivity.
Qed.

Lemma parse_lager_context_df_Ok_inv (Name : Type) (ML : list string)
  (gn : Z -> result (list Z)) (gs : Z -> result (list Name))
  (df : DataFrame) (col : string) (out : list (LongFormRow Name)) :
  parse_lager_context_df ML gn gs df col = Ok out ->
  (exists col_df, build_col_df df col = Ok col_df)
  /\ (ML = [] \/ exists positions, flanking_positions gn gs df = Ok positions).
Proof.
  intros H. unfold parse_lager_context_df in H.
  apply bind_Ok_inv in H. destruct H as (col_df & Hcol & H).
  split; [exists col_df; exact Hcol |].
  destruct ML as [| mut ML]; [left; reflexivity | right].
  simpl in H. apply bind_Ok_inv in H. destruct H as (o & Hmut & _).
  unfold rows_for_mutation in Hmut.
  apply bind_Ok_inv in Hmut. destruct Hmut as (positions & Hpos & _).
  exists positions. exact Hpos.
Qed.

(** X1: for a column name other than those of the two text columns, the
    parser returns exactly when the sample column and the context column
    exist and, unless the list of classes is empty, the positions can be
    computed (the table has a first key and the helpers return); when there
    is no sample column of that name, the key error of that column is raised
    before anything else. *)
Theorem parse_lager_context_df_returns_iff :
  forall (Name : Type) (ML : list string)
         (gn : Z -> result (list Z)) (gs : Z -> result (list Name))
         (df : DataFrame) (col : string),
    col <> "MutationType" ->
    col <> "context" ->
    ((exists out, parse_lager_context_df ML gn gs df col = Ok out)
     <-> ((exists col_df, build_col_df df col = Ok col_df)
          /\ (ML = [] \/ exists positions, flanking_positions gn gs df = Ok positions)))
    /\ ((forall vals, lookup_column col (samples df) <> Ok vals) ->
        parse_lager_context_df ML gn gs df col = Raise (KeyError col)).
Proof.
  intros Name ML gn gs df col _ _. split; [split |].
  - intros (out & H). exact (parse_lager_context_df_Ok_inv _ _ _ _ _ H).
  - intros ((col_df & Hcol) & [-> | (positions & Hpos)]).
    + exists []. unfold parse_lager_context_df. rewrite Hcol. reflexivity.
    + eexists. apply (parse_lager_context_df_Ok ML gn gs df col Hcol Hpos).
  - intros Hmissing. unfold parse_lager_context_df, build_col_df.
    destruct (lookup_column col (samples df)) as [vals | e] eqn:Hl.
    + exfalso. exact (Hmissing vals eq_refl).
    + apply lookup_column_Raise in Hl. subst e. reflexivity.
Qed.

Lemma parse_lager_context_df_returns_iff_witness :
  parse_lager_context_df MUTATION_LIST count_up count_up example_table "SBS7"
  = Raise (KeyError "SBS7").
Proof.
  destruct (@parse_lager_context_df_returns_iff Z MUTATION_LIST count_up count_up
              example_table "SBS7") as (_ & H).
  - discriminate.
  - discriminate.
  - apply H. intros vals Hvals. discriminate Hvals.
Defined.

(** The rows of the output, one by one. *)
Lemma parse_rows_In (Name : Type) (ML : list string)
  (gn : Z -> result (list Z)) (gs : Z -> result (list Name))
  (df : DataFrame) (col : string) (col_df : list ColRow)
  (positions : list (Z * Name)) (out : list (LongFormRow Name))
  (r : LongFormRow Name) :
  build_col_df df col = Ok col_df ->
  flanking_positions gn gs df = Ok positions ->
  parse_lager_context_df ML gn gs df col = Ok out ->
  (In r out <->
   exists mut pos aa,
     In mut ML /\ In pos positions /\ In aa amino
     /\ r = mkLongFormRow (snd pos) mut aa col
              (row_value (select_context col_df mut)
                 (col_sum (select_context col_df mut)) (fst pos) aa)).
Proof.
  intros Hcol Hpos Hparse.
  rewrite (parse_lager_context_df_Ok ML gn gs df col Hcol Hpos) in Hparse.
  injection Hparse as <-. split.
  - intros Hin. apply in_flat_map in Hin. destruct Hin as (mut & Hmut & Hin).
    apply in_flat_map in Hin. destruct Hin as (pos & Hp & Hin).
    unfold rows_at_position in Hin. apply in_map_iff in Hin.
    destruct Hin as (aa & <- & Haa).
    exists mut, pos, aa. auto.
  - intros (mut & pos & aa & Hmut & Hp & Haa & ->).
    apply in_flat_map. exists mut. split; [exact Hmut |].
    apply in_flat_map. exists pos. split; [exact Hp |].
    unfold rows_at_position. apply in_map_iff. exists aa. auto.
Qed.

Lemma int64_add_0_l (a : Z) : int64_add 0 (wrap64 a) = wrap64 a.
Proof. unfold int64_add. rewrite wrap64_add_r. reflexivity. Qed.

(** X2: with int64 cells, at every position the four emitted values, added
    in int64, give the int64 sum over the rows of the class whose key has
    one of A, C, T, G at that position: a row whose key is too short for the
    position, or has another character there (a bracket, say), is counted in
    the class total but in none of the four values.  When the class total is
    zero the four values are zero. *)
Theorem emitted_values_accounting :
  forall (Name : Type) (col mut : string) (temp_df : list (CellRow Z))
         (pos : Z * Name),
    fold_left int64_add
      (map (@clf_value Z Name)
         (rows_at_position_cells 0 int64_add int64_is_zero col mut temp_df
            (col_sum_int64 temp_df) pos))
      0
    = if col_sum_int64 temp_df =? 0 then 0
      else col_sum_int64 (filter (has_base_cells (fst pos)) temp_df).
Proof.
  intros Name col mut temp_df pos.
  unfold rows_at_position_cells, amino, row_value_cells, int64_is_zero.
  cbn [map fold_left clf_value].
  destruct (col_sum_int64 temp_df =? 0).
  - reflexivity.
  - fold col_sum_int64. rewrite <- int64_sum_of_four.
    rewrite (col_sum_int64_exact (select_base_cells temp_df (fst pos) "A")) at 1.
    rewrite int64_add_0_l, <- col_sum_int64_exact. reflexivity.
Qed.

(** X3: with int64 cells, when no cell of the column is negative and the
    exact total of the column is below 2^63, so that no sum wraps, every
    emitted value lies between zero and the column total of the class of its
    row. *)
Theorem emitted_values_bounded :
  forall (Name : Type) (ML : list string)
         (gn : Z -> result (list Z)) (gs : Z -> result (list Name))
         (df : CellFrame Z) (col : string) (col_df : list (CellRow Z))
         (out : list (CellLongFormRow Z Name)),
    build_cell_df df col = Ok col_df ->
    Forall (fun r => 0 <= cl_value r) col_df ->
    col_sum_exact col_df < 2 ^ 63 ->
    parse_lager_context_df_int64 ML gn gs df col = Ok out ->
    Forall (fun r =>
              0 <= clf_value r
              <= col_sum_int64 (select_context_cells col_df (clf_context r)))
           out.
Proof.
  intros Name ML gn gs df col col_df out Hcol Hnn Hsmall Hparse.
  destruct ML as [| mut0 ML].
  { unfold parse_lager_context_df_int64, parse_lager_context_df_cells in Hparse.
    rewrite Hcol in Hparse. injection Hparse as <-. constructor. }
  destruct (@parse_cells_Ok_inv _ 0 int64_add int64_is_zero _ (mut0 :: ML)
              gn gs df col out Hparse)
    as (_ & [Hnil | (positions & Hp)]); [discriminate Hnil |].
  apply Forall_forall. intros r Hr.
  destruct (@parse_cells_rows_In _ 0 int64_add int64_is_zero _ (mut0 :: ML)
              gn gs df col col_df positions out r Hcol Hp Hparse Hr)
    as (mut & pos & aa & _ & _ & _ & ->).
  cbn [clf_value clf_context]. fold col_sum_int64.
  set (temp_df := select_context_cells col_df mut).
  assert (Htemp : Forall (fun r => 0 <= cl_value r) temp_df).
  { unfold temp_df, select_context_cells. apply Forall_forall. intros x Hx.
    apply filter_In in Hx. destruct Hx as [Hx _].
    rewrite Forall_forall in Hnn. exact (Hnn x Hx). }
  assert (Hbound := col_sum_exact_filter_bounds
                      (fun r => option_string_eqb (cl_context r) mut) Hnn).
  fold (select_context_cells col_df mut) in Hbound. fold temp_df in Hbound.
  assert (Htotal : col_sum_int64 temp_df = col_sum_exact temp_df)
    by (apply (col_sum_int64_filter _ Hnn Hsmall)).
  unfold row_value_cells, int64_is_zero. fold col_sum_int64.
  destruct (col_sum_int64 temp_df =? 0) eqn:Hz.
  - apply Z.eqb_eq in Hz. lia.
  - unfold select_base_cells.
    rewrite col_sum_int64_filter by (try exact Htemp; lia).
    rewrite Htotal. apply col_sum_exact_filter_bounds. exact Htemp.
Qed.

(** X4: the output has a row for every class of the list, every position
    and every base, and nothing else: its length is the product of the three
    counts, and each row carries the column name, a class of the list, one of
    the four bases and the label of a position. *)
Theorem parse_output_shape :
  forall (Name : Type) (ML : list string)
         (gn : Z -> result (list Z)) (gs : Z -> result (list Name))
         (df : DataFrame) (col : string) (col_df : list ColRow)
         (positions : list (Z * Name)),
    build_col_df df col = Ok col_df ->
    flanking_positions gn gs df = Ok positions ->
    exists out,
      parse_lager_context_df ML gn gs df col = Ok out
      /\ List.length out = (List.length ML * List.length positions * 4)%nat
      /\ Forall (fun r =>
                   lf_sbs r = col
                   /\ In (lf_context r) ML
                   /\ In (lf_variable r) amino
                   /\ In (lf_name r) (map snd positions))
                out.
Proof.
  intros Name ML gn gs df col col_df positions Hcol Hpos.
  assert (Hparse := parse_lager_context_df_Ok ML gn gs df col Hcol Hpos).
  eexists. split; [exact Hparse |]. split.
  - rewrite (@flat_map_length_const _ _ _ (List.length positions * 4)%nat).
    + lia.
    + intros mut _. apply flat_map_length_const. intros pos _. reflexivity.
  - apply Forall_forall. intros r Hr.
    apply (parse_rows_In ML gn gs df col r Hcol Hpos Hparse) in Hr.
    destruct Hr as (mut & pos & aa & Hmut & Hp & Haa & ->).
    cbn [lf_sbs lf_context lf_variable lf_name].
    repeat split; try assumption.
    apply in_map. exact Hp.
Qed.

Lemma parse_output_shape_witness :
  exists out,
    parse_lager_context_df MUTATION_LIST count_up count_up example_table "SBS1"
    = Ok out
    /\ List.length out = 120%nat
    /\ Forall (fun r =>
                 lf_sbs r = "SBS1"
                 /\ In (lf_context r) MUTATION_LIST
                 /\ In (lf_variable r) amino
                 /\ In (lf_name r) (map snd [(0, 0); (1, 1); (2, 2); (3, 3); (4, 4)]))
              out.
Proof.
  apply (@parse_output_shape Z MUTATION_LIST count_up count_up example_table
           "SBS1"
           [mkColRow "TA[C>A]AT" 3 (Some "C>A"); mkColRow "GA[C>A]AC" 4 (Some "C>A");
            mkColRow "CC[C>G]TT" 5 (Some "C>G"); mkColRow "GT[C>G]AA" 6 (Some "C>G")]
           [(0, 0); (1, 1); (2, 2); (3, 3); (4, 4)]);
    reflexivity.
Defined.

Lemma emitted_values_bounded_witness :
  Forall (fun r : CellLongFormRow Z Z =>
            0 <= clf_value r
            <= col_sum_int64
                 (select_context_cells
                    [mkCellRow "A[C>A]G" 3 (Some "C>A");
                     mkCellRow "C[C>A]T" 4 (Some "C>A");
                     mkCellRow "C[C>A]T" 5 (Some "C>A");
                     mkCellRow "T[C>G]A" 6 (Some "C>G")]
                    (clf_context r)))
         [mkCellLongFormRow (-1) "C>A" "A" "SBS1" 3;
          mkCellLongFormRow (-1) "C>A" "C" "SBS1" 9;
          mkCellLongFormRow (-1) "C>A" "T" "SBS1" 0;
          mkCellLongFormRow (-1) "C>A" "G" "SBS1" 0;
          mkCellLongFormRow 1 "C>A" "A" "SBS1" 0;
          mkCellLongFormRow 1 "C>A" "C" "SBS1" 0;
          mkCellLongFormRow 1 "C>A" "T" "SBS1" 9;
          mkCellLongFormRow 1 "C>A" "G" "SBS1" 3;
          mkCellLongFormRow (-1) "C>G" "A" "SBS1" 0;
          mkCellLongFormRow (-1) "C>G" "C" "SBS1" 0;
          mkCellLongFormRow (-1) "C>G" "T" "SBS1" 6;
          mkCellLongFormRow (-1) "C>G" "G" "SBS1" 0;
          mkCellLongFormRow 1 "C>G" "A" "SBS1" 6;
          mkCellLongFormRow 1 "C>G" "C" "SBS1" 0;
          mkCellLongFormRow 1 "C>G" "T" "SBS1" 0;
          mkCellLongFormRow 1 "C>G" "G" "SBS1" 0].
Proof.
  apply (@emitted_values_bounded Z ["C>A"; "C>G"] flank_indices flank_labels
           small_table "SBS1").
  - reflexivity.
  - repeat constructor; simpl; lia.
  - vm_compute. reflexivity.
  - vm_compute. reflexivity.
Defined.

(** ** The parser's output under the bar loop *)

Lemma unique_from_In (A : Type) (eqb : A -> A -> bool) (seen l : list A) (x : A) :
  In x (unique_from eqb seen l) -> In x l.
Proof.
  revert seen. induction l as [| a l IH]; intros seen H; simpl in H.
  - exact H.
  - destruct (existsb (eqb a) seen).
    + right. exact (IH _ H).
    + destruct H as [<- | H]; [left; reflexivity | right; exact (IH _ H)].
Qed.

Lemma Name_eqb_refl (Name : Type)
  (Name_eq_dec : forall a b : Name, {a = b} + {a <> b}) (a : Name) :
  Name_eqb Name_eq_dec a a = true.
Proof.
  unfold Name_eqb. destruct (Name_eq_dec a a); [reflexivity | contradiction].
Qed.

Lemma map_flat_map (A B C : Type) (f : B -> C) (g : A -> list B) (l : list A) :
  map f (flat_map g l) = flat_map (fun a => map f (g a)) l.
Proof.
  induction l as [| a l IH]; simpl; [reflexivity |].
  rewrite map_app, IH. reflexivity.
Qed.

Lemma filter_flat_map (A B : Type) (p : B -> bool) (g : A -> list B)
  (l : list A) :
  filter p (flat_map g l) = flat_map (fun a => filter p (g a)) l.
Proof.
  induction l as [| a l IH]; simpl; [reflexivity |].
  rewrite filter_app, IH. reflexivity.
Qed.

Lemma unique_from_repeat_skip (seen : list string) (m : string) (k : nat)
  (rest : list string) :
  existsb (String.eqb m) seen = true ->
  unique_from String.eqb seen (repeat m k ++ rest)
  = unique_from String.eqb seen rest.
Proof.
  intros Hseen. induction k as [| k IH]; simpl; [reflexivity |].
  rewrite Hseen. exact IH.
Qed.

(** The first occurrences in a list of blocks of equal entries, one block
    per entry of a list without repetition. *)
Lemma unique_from_blocks (k : nat) (ML seen : list string) :
  (1 <= k)%nat -> NoDup ML ->
  (forall m, In m ML -> existsb (String.eqb m) seen = false) ->
  unique_from String.eqb seen (flat_map (fun m => repeat m k) ML) = ML.
Proof.
  intros Hk. revert seen.
  induction ML as [| m ML IH]; intros seen Hnd Hseen; [reflexivity |].
  inversion Hnd as [| ? ? Hm Hrest]; subst.
  destruct k as [| k]; [lia |].
  cbn [flat_map repeat app unique_from].
  rewrite (Hseen m (or_introl eq_refl)).
  rewrite unique_from_repeat_skip
    by (cbn [existsb]; rewrite String.eqb_refl; reflexivity).
  f_equal. apply (IH (m :: seen) Hrest).
  intros m' Hm'. cbn [existsb].
  rewrite (Hseen m' (or_intror Hm')).
  destruct (String.eqb_spec m' m) as [-> | _]; [contradiction | reflexivity].
Qed.

Section ParserOutputFacts.

Variable Name : Type.
Variable Name_eq_dec : forall a b : Name, {a = b} + {a <> b}.

(** The rows of one (name, variable) group among the rows of a position. *)
Lemma group_rows_at_position (col mut : string) (temp_df : list ColRow)
  (total : Z) (pos : Z * Name) (name : Name) (var : ascii) :
  In var amino ->
  List.length (group_rows Name_eq_dec
                 (rows_at_position col mut temp_df total pos) name var)
  = if Name_eq_dec (snd pos) name then 1%nat else 0%nat.
Proof.
  intros Hvar. unfold group_rows, rows_at_position, amino, Name_eqb.
  cbn [map filter lf_name lf_variable].
  destruct (Name_eq_dec (snd pos) name); cbn [andb].
  - destruct Hvar as [<- | [<- | [<- | [<- | []]]]]; reflexivity.
  - reflexivity.
Qed.

Lemma group_rows_of_class (col mut : string) (temp_df : list ColRow)
  (total : Z) (positions : list (Z * Name)) (name : Name) (var : ascii) :
  In var amino ->
  NoDup (map snd positions) ->
  In name (map snd positions) ->
  List.length (group_rows Name_eq_dec
                 (flat_map (rows_at_position col mut temp_df total) positions)
                 name var)
  = 1%nat.
Proof.
  intros Hvar. unfold group_rows. rewrite filter_flat_map.
  fold (group_rows Name_eq_dec).
  induction positions as [| pos positions IH]; intros Hnd Hin; [destruct Hin |].
  cbn [flat_map map] in *. rewrite length_app.
  inversion Hnd as [| ? ? Hpos Hrest]; subst.
  change (filter
            (fun r : LongFormRow Name =>
               Name_eqb Name_eq_dec (lf_name r) name
               && Ascii.eqb (lf_variable r) var)
            (rows_at_position col mut temp_df total pos))
    with (group_rows Name_eq_dec
            (rows_at_position col mut temp_df total pos) name var).
  rewrite (group_rows_at_position col mut temp_df total pos name Hvar).
  destruct (Name_eq_dec (snd pos) name) as [Heq | Hne].
  - subst name.
    assert (Hzero : List.length
                      (flat_map
                         (fun a =>
                            filter
                              (fun r : LongFormRow Name =>
                                 Name_eqb Name_eq_dec (lf_name r) (snd pos)
                                 && Ascii.eqb (lf_variable r) var)
                              (rows_at_position col mut temp_df total a))
                         positions) = 0%nat).
    { rewrite (@flat_map_length_const _ _ _ 0%nat); [lia |].
      intros a Ha.
      change (List.length
                (group_rows Name_eq_dec
                   (rows_at_position col mut temp_df total a) (snd pos) var)
              = 0%nat).
      rewrite (group_rows_at_position col mut temp_df total a (snd pos) Hvar).
      destruct (Name_eq_dec (snd a) (snd pos)) as [Heq | _]; [| reflexivity].
      exfalso. apply Hpos. rewrite <- Heq. apply in_map. exact Ha. }
    rewrite Hzero. reflexivity.
  - destruct Hin as [Heq | Hin]; [contradiction |].
    rewrite (IH Hrest Hin). reflexivity.
Qed.

Lemma contexts_of_class (col mut : string) (temp_df : list ColRow) (total : Z)
  (positions : list (Z * Name)) :
  map (@lf_context Name)
    (flat_map (rows_at_position col mut temp_df total) positions)
  = repeat mut (List.length positions * 4).
Proof.
  induction positions as [| pos positions IH]; [reflexivity |].
  cbn [flat_map]. rewrite map_app, IH. reflexivity.
Qed.

Lemma offsets_length (stacks : nat) (x0 x : list Q) :
  In x (snd (cluster_offsets stacks x0)) -> List.length x = List.length x0.
Proof.
  unfold cluster_offsets.
  destruct (stacks =? 2)%nat; [| destruct (stacks =? 4)%nat]; cbn [snd In];
    intros H; repeat (destruct H as [<- | H]; [apply length_map |]);
    destruct H.
Qed.

End ParserOutputFacts.

(** X5: the parser's output fits the bar loop.  For a list of distinct
    classes and distinct position labels, each (label, base) group of the
    output has exactly one row per class, which is one row per context tick;
    so, given a colour for each of the four bases, the loop finds every
    group it looks up, every [ax.bar] call gets arrays of one length, and
    the loop raises nothing. *)
Theorem parser_output_has_all_groups :
  forall (Name : Type) (Name_eq_dec : forall a b : Name, {a = b} + {a <> b})
         (Name_str : Name -> string) (Color : Type)
         (COLOR_DICT : ascii -> option Color) (ML : list string)
         (gn : Z -> result (list Z)) (gs : Z -> result (list Name))
         (df : DataFrame) (col : string) (positions : list (Z * Name))
         (out : list (LongFormRow Name)),
    ML <> [] ->
    NoDup ML ->
    flanking_positions gn gs df = Ok positions ->
    positions <> [] ->
    NoDup (map snd positions) ->
    (forall aa, In aa amino -> COLOR_DICT aa <> None) ->
    parse_lager_context_df ML gn gs df col = Ok out ->
    List.length (unique String.eqb (map (@lf_context Name) out)) = List.length ML
    /\ (forall name var, In name (map snd positions) -> In var amino ->
          List.length (group_rows Name_eq_dec out name var) = List.length ML)
    /\ exists bars,
         increased_context_bars Name_eq_dec Name_str COLOR_DICT out = Ok bars.
Proof.
  intros Name Name_eq_dec Name_str Color COLOR_DICT ML gn gs df col positions
         out HML Hnd Hpos Hpositions Hnames Hcolor Hparse.
  destruct (parse_lager_context_df_Ok_inv _ _ _ _ _ Hparse)
    as ((col_df & Hcol) & _).
  assert (Hrows := fun r => parse_rows_In ML gn gs df col r Hcol Hpos Hparse).
  assert (Hout := Hparse).
  rewrite (parse_lager_context_df_Ok ML gn gs df col Hcol Hpos) in Hout.
  injection Hout as Hout.
  assert (Hlabels :
            unique String.eqb (map (@lf_context Name) out) = ML).
  { rewrite <- Hout, map_flat_map.
    rewrite (flat_map_ext _ (fun m => repeat m (List.length positions * 4)))
      by (intros mut; apply contexts_of_class).
    apply unique_from_blocks; [| exact Hnd | reflexivity].
    destruct positions; [contradiction | simpl; lia]. }
  assert (Hgroups : forall name var,
            In name (map snd positions) -> In var amino ->
            List.length (group_rows Name_eq_dec out name var) = List.length ML).
  { intros name var Hname Hvar. rewrite <- Hout.
    unfold group_rows. rewrite filter_flat_map.
    rewrite (@flat_map_length_const _ _ _ 1%nat); [lia |].
    intros mut _.
    apply (group_rows_of_class Name_eq_dec col mut _ _ positions name Hvar
             Hnames Hname). }
  split; [rewrite Hlabels; reflexivity |]. split; [exact Hgroups |].
  unfold increased_context_bars.
  assert (Htitle : exists title, sbs_title out = Ok title).
  { rewrite <- Hout. destruct ML as [| m ML']; [contradiction |].
    destruct positions as [| p ps]; [contradiction |].
    eexists. reflexivity. }
  destruct Htitle as (title & ->). unfold bind. rewrite Hlabels.
  destruct (cluster_offsets _ _) as [w x1] eqn:Hoff.
  apply for_each_Ok_exists. intros [x name] Hxn. cbn [fst snd].
  assert (Hlen : List.length x = List.length ML).
  { assert (Hx : In x (snd (cluster_offsets
                             (List.length
                                (unique (Name_eqb Name_eq_dec)
                                   (map (@lf_name Name) out)))
                             (arange (List.length ML))))).
    { rewrite Hoff. cbn [snd]. exact (in_combine_l _ _ _ _ Hxn). }
    rewrite (offsets_length _ _ _ Hx). unfold arange.
    rewrite length_map, length_seq. reflexivity. }
  assert (Hname : In name (map snd positions)).
  { apply in_combine_r in Hxn. apply unique_from_In in Hxn.
    apply in_map_iff in Hxn. destruct Hxn as (r1 & <- & Hr1).
    apply Hrows in Hr1.
    destruct Hr1 as (mut & pos & aa & _ & Hp & _ & ->).
    cbn [lf_name]. apply in_map. exact Hp. }
  assert (Hvars : forall var,
            In var (unique Ascii.eqb (map (@lf_variable Name) out)) ->
            In var amino).
  { intros var Hvar. apply unique_from_In in Hvar.
    apply in_map_iff in Hvar. destruct Hvar as (r2 & <- & Hr2).
    apply Hrows in Hr2.
    destruct Hr2 as (mut & pos & aa & _ & _ & Haa & ->). exact Haa. }
  destruct (@stacked_bars_Ok Name Name_eq_dec Name_str Color COLOR_DICT out
              x w name (unique Ascii.eqb (map (@lf_variable Name) out)) None)
    as (bars & Hbars & _).
  - rewrite Hlen. destruct ML; [contradiction | simpl; lia].
  - intros var Hvar. rewrite Hlen. apply Hgroups; [exact Hname | auto].
  - intros var Hvar. apply Hcolor. auto.
  - left. reflexivity.
  - exists bars. exact Hbars.
Qed.

(** ** The two patterns on flanked keys *)

Lemma lacks_cons_inv (c d : ascii) (s : string) :
  lacks c (String d s) -> d <> c /\ lacks c s.
Proof.
  intros H. split.
  - apply H. left. reflexivity.
  - intros x Hx. apply H. right. exact Hx.
Qed.

Lemma is_word_not_bracket (a : ascii) :
  is_word a = true -> a <> "["%char /\ a <> "]"%char.
Proof.
  intros H. split; intros ->; discriminate H.
Qed.

Lemma match_tail_lacks (s : string) : lacks "]" s -> match_tail s = None.
Proof.
  induction s as [| c s IH]; intros H; simpl.
  - reflexivity.
  - apply lacks_cons_inv in H. destruct H as [Hc Hs].
    rewrite (IH Hs). apply Ascii.eqb_neq in Hc. rewrite Hc.
    destruct (is_dot c); reflexivity.
Qed.

Lemma match_tail_single (core right : string) (b : ascii) :
  all_dot core -> is_word b = true -> lacks "]" right ->
  match_tail (core ++ String "]" (String b right))
  = Some (core ++ String "]" (String b ""))%string.
Proof.
  intros Hcore Hb Hright. induction core as [| c core IH]; cbn [append].
  - assert (Hnone : match_tail (String b right) = None).
    { apply match_tail_lacks. intros d [<- | Hd].
      - apply is_word_not_bracket. exact Hb.
      - apply Hright. exact Hd. }
    remember (String b right) as rest eqn:Hrest.
    cbn [match_tail]. replace (is_dot "]") with true by reflexivity.
    rewrite Hnone. subst rest.
    replace (Ascii.eqb "]" "]") with true by reflexivity.
    rewrite Hb. reflexivity.
  - cbn [match_tail]. apply all_dot_inv in Hcore. destruct Hcore as [Hc Hcore].
    rewrite Hc, (IH Hcore). reflexivity.
Qed.

Lemma match_class_tail_core (core rest : string) :
  all_dot core -> lacks "]" core ->
  match_class_tail (core ++ String "]" rest) = Some core.
Proof.
  intros Hdot Hlack. induction core as [| c core IH]; cbn [append match_class_tail].
  - reflexivity.
  - apply all_dot_inv in Hdot. destruct Hdot as [Hc Hdot].
    apply lacks_cons_inv in Hlack. destruct Hlack as [Hn Hlack].
    apply Ascii.eqb_neq in Hn. rewrite Hn, Hc, (IH Hdot Hlack). reflexivity.
Qed.

Lemma search_context_skip (left rest : string) (a : ascii) :
  lacks "[" left -> a <> "["%char ->
  search_context (left ++ String a rest) = search_context (String a rest).
Proof.
  intros Hleft Ha. induction left as [| c left IH]; cbn [append].
  - reflexivity.
  - apply lacks_cons_inv in Hleft. destruct Hleft as [_ Hleft].
    specialize (IH Hleft).
    assert (Hnext : exists d tl, (left ++ String a rest)%string = String d tl
                                 /\ d <> "["%char).
    { destruct left as [| d left']; cbn [append].
      - exists a, rest. auto.
      - exists d, (left' ++ String a rest)%string. split; [reflexivity |].
        apply Hleft. left. reflexivity. }
    destruct Hnext as (d & tl & Heq & Hd).
    rewrite Heq in *. cbn [search_context match_here].
    apply Ascii.eqb_neq in Hd. rewrite Hd, andb_false_r. exact IH.
Qed.

Lemma search_class_skip (left rest : string) :
  lacks "[" left -> search_class (left ++ rest) = search_class rest.
Proof.
  intros Hleft. induction left as [| c left IH]; cbn [append].
  - reflexivity.
  - apply lacks_cons_inv in Hleft. destruct Hleft as [Hc Hleft].
    cbn [search_class]. apply Ascii.eqb_neq in Hc. rewrite Hc. exact (IH Hleft).
Qed.

(** X6: on a key made of flanking characters without brackets around one
    bracketed core, the context pattern gives the core with one flanking
    character on each side, and the class pattern gives the core, from the
    key and from the extracted context alike. *)
Theorem patterns_on_flanked_key :
  forall (left core right : string) (a b : ascii),
    lacks "[" left -> is_word a = true -> is_word b = true ->
    all_dot core -> lacks "]" core -> lacks "]" right ->
    search_context (flanked_key left a core b right)
    = Some (flanked_key "" a core b "")
    /\ search_class (flanked_key left a core b right) = Some core
    /\ search_class (flanked_key "" a core b "") = Some core.
Proof.
  intros left core right a b Hleft Ha Hb Hdot Hcore Hright.
  destruct (is_word_not_bracket a Ha) as [Hao _].
  unfold flanked_key. split; [| split].
  - rewrite (@search_context_skip left _ a Hleft Hao).
    cbn [append search_context match_here].
    rewrite Ha, (@match_tail_single core right b Hdot Hb Hright).
    replace (Ascii.eqb "[" "[") with true by reflexivity. reflexivity.
  - rewrite (@search_class_skip left _ Hleft).
    cbn [search_class]. apply Ascii.eqb_neq in Hao. rewrite Hao.
    cbn [search_class]. replace (Ascii.eqb "[" "[") with true by reflexivity.
    rewrite (@match_class_tail_core core _ Hdot Hcore). reflexivity.
  - cbn [append search_class]. apply Ascii.eqb_neq in Hao. rewrite Hao.
    cbn [search_class]. replace (Ascii.eqb "[" "[") with true by reflexivity.
    rewrite (@match_class_tail_core core _ Hdot Hcore). reflexivity.
Qed.

Lemma patterns_on_flanked_key_witness :
  search_context "TA[C>A]AT" = Some "A[C>A]A"
  /\ search_class "TA[C>A]AT" = Some "C>A"
  /\ search_class "A[C>A]A" = Some "C>A".
Proof.
  apply (@patterns_on_flanked_key "T" "C>A" "T" "A" "A").
  - intros d [<- | []]; discriminate.
  - reflexivity.
  - reflexivity.
  - intros d [<- | [<- | [<- | []]]]; reflexivity.
  - intros d [<- | [<- | [<- | []]]]; discriminate.
  - intros d [<- | []]; discriminate.
Defined.

Lemma match_tail_whole (body : string) (b : ascii) :
  all_dot body -> is_word b = true ->
  match_tail (body ++ String "]" (String b ""))
  = Some (body ++ String "]" (String b ""))%string.
Proof.
  intros Hbody Hb. induction body as [| c body IH]; cbn [append].
  - assert (Hnone : match_tail (String b "") = None).
    { apply match_tail_lacks. intros d [<- | []].
      apply is_word_not_bracket. exact Hb. }
    remember (String b "") as rest eqn:Hrest.
    cbn [match_tail]. replace (is_dot "]") with true by reflexivity.
    rewrite Hnone. subst rest.
    replace (Ascii.eqb "]" "]") with true by reflexivity.
    rewrite Hb. reflexivity.
  - cbn [match_tail]. apply all_dot_inv in Hbody. destruct Hbody as [Hc Hbody].
    rewrite Hc, (IH Hbody). reflexivity.
Qed.

(** X7: extraction is idempotent: the context extracted from a key is its
    own context. *)
Theorem extraction_idempotent :
  forall s m : string,
    search_context s = Some m -> search_context m = Some m.
Proof.
  intros s m Hs.
  destruct (search_context_sound _ Hs)
    as (pre & a & body & b & post & _ & -> & Ha & Hb & Hbody).
  cbn [search_context match_here].
  rewrite Ha, (@match_tail_whole body b Hbody Hb).
  replace (Ascii.eqb "[" "[") with true by reflexivity. reflexivity.
Qed.

Lemma extraction_idempotent_witness :
  search_context "x[a]b]c[d]_ ]z" = Some "x[a]b]c[d]_ ]z".
Proof.
  apply (@extraction_idempotent "__x[a]b]c[d]_ ]z!"). reflexivity.
Defined.

(** ** The label transform on lists *)

Lemma format_xlabel_long (label : string) :
  (3 <= String.length label)%nat ->
  exists t, format_xlabel label = Ok t /\ String.length t = 3%nat.
Proof.
  intros Hlen.
  destruct label as [| a [| b [| c rest]]]; simpl in Hlen; try lia.
  set (s := String a (String b (String c rest))).
  assert (Hs : String.length s = S (S (S (String.length rest)))) by reflexivity.
  destruct (@get_in_range s (String.length s - 1)) as (l & Hl); [lia |].
  exists (String a (String c (String l ""))). split; [| reflexivity].
  unfold format_xlabel, str_index.
  rewrite (@str_get_nonneg s 0), (@str_get_nonneg s 2) by lia.
  rewrite str_get_last by lia. rewrite Hl. reflexivity.
Qed.

Lemma format_xlabel_short (label : string) :
  (String.length label < 3)%nat -> format_xlabel label = Raise IndexError.
Proof.
  intros Hlen.
  destruct label as [| a [| b [| c rest]]]; try reflexivity.
  simpl in Hlen. lia.
Qed.

Lemma format_xlabel_raises (label : string) (e : exn) :
  format_xlabel label = Raise e -> e = IndexError.
Proof.
  intros H.
  destruct (Nat.lt_ge_cases (String.length label) 3) as [Hs | Hl].
  - rewrite (format_xlabel_short _ Hs) in H. injection H as <-. reflexivity.
  - destruct (format_xlabel_long _ Hl) as (t & Ht & _). congruence.
Qed.

(** X8: the label transform is all or nothing: it returns, with one label
    of three characters for each input, when every input has at least three
    characters, and it raises an index error as soon as one input is
    shorter. *)
Theorem format_xlabels_all_or_nothing :
  forall labels : list string,
    (Forall (fun l => (3 <= String.length l)%nat) labels ->
     exists out,
       format_xlabels labels = Ok out
       /\ List.length out = List.length labels
       /\ Forall (fun t => String.length t = 3%nat) out)
    /\ (Exists (fun l => (String.length l < 3)%nat) labels ->
        format_xlabels labels = Raise IndexError).
Proof.
  intros labels. split.
  - induction 1 as [| label labels Hl _ IH].
    + exists []. repeat split; constructor.
    + destruct (format_xlabel_long _ Hl) as (t & Ht & Hlen).
      destruct IH as (out & Hout & Hn & Hall).
      exists (t :: out). cbn [format_xlabels]. rewrite Ht, Hout.
      repeat split; [simpl; lia | constructor; assumption].
  - induction labels as [| label labels IH]; intros Hex.
    + inversion Hex.
    + cbn [format_xlabels].
      destruct (format_xlabel label) as [t | e] eqn:Hlabel.
      * assert (Hrest : Exists (fun l => (String.length l < 3)%nat) labels).
        { inversion Hex as [? ? Hshort | ? ? Hrest]; subst; [| exact Hrest].
          rewrite (format_xlabel_short _ Hshort) in Hlabel. discriminate Hlabel. }
        cbn [bind]. rewrite (IH Hrest). reflexivity.
      * apply format_xlabel_raises in Hlabel. subst e. reflexivity.
Qed.

Lemma format_xlabels_all_or_nothing_witness :
  format_xlabels ["A[C>A]A"; "AC"; "T[G>C]T"] = Raise IndexError.
Proof.
  destruct (format_xlabels_all_or_nothing ["A[C>A]A"; "AC"; "T[G>C]T"])
    as (_ & H).
  apply H. right. left. simpl. lia.
Defined.

(** ** Bar geometry: the other group counts *)

Section OtherGroupCounts.

Local Open Scope Q_scope.

(** X10: with a number of distinct names other than two and four no bar is
    drawn at all, and no error is raised for it. *)
Theorem other_group_counts_draw_nothing :
  forall (Name : Type) (Name_eq_dec : forall a b : Name, {a = b} + {a <> b})
         (Name_str : Name -> string) (df : list (LongFormRow Name)),
    List.length (unique (Name_eqb Name_eq_dec) (map (@lf_name Name) df)) <> 2%nat ->
    List.length (unique (Name_eqb Name_eq_dec) (map (@lf_name Name) df)) <> 4%nat ->
    grouped_bars Name_eq_dec Name_str df = Ok [].
Proof.
  intros Name Name_eq_dec Name_str df H2 H4. unfold grouped_bars, cluster_offsets.
  apply Nat.eqb_neq in H2. apply Nat.eqb_neq in H4. rewrite H2, H4.
  reflexivity.
Qed.

Lemma other_group_counts_draw_nothing_witness :
  grouped_bars Z.eq_dec (fun _ => "")
    [mkLongFormRow 1%Z "C>A" "A" "SBS1" 3%Z;
     mkLongFormRow 2%Z "C>A" "A" "SBS1" 4%Z;
     mkLongFormRow 3%Z "C>A" "A" "SBS1" 7%Z]
  = Ok [].
Proof.
  apply other_group_counts_draw_nothing; simpl; lia.
Defined.

End OtherGroupCounts.

(** ** Partition markers *)

Lemma arange_length (n : nat) : List.length (arange n) = n.
Proof. unfold arange. rewrite length_map, length_seq. reflexivity. Qed.

Lemma chunks_from_concat (A : Type) (k : nat) (fuel : nat) (l : list A) :
  (0 < k)%nat -> (List.length l <= fuel)%nat ->
  List.concat (chunks_from fuel k l) = l
  /\ Forall (fun c => c <> [] /\ (List.length c <= k)%nat) (chunks_from fuel k l)
  /\ List.length (chunks_from fuel k l) = ((List.length l + k - 1) / k)%nat.
Proof.
  intros Hk. revert l. induction fuel as [| fuel IH]; intros l Hfuel.
  - destruct l; [| simpl in Hfuel; lia]. simpl.
    repeat split; [constructor |].
    symmetry. apply Nat.div_small. lia.
  - destruct l as [| a l].
    + simpl. repeat split; [constructor |].
      symmetry. apply Nat.div_small. lia.
    + cbn [chunks_from].
      assert (Hskip : (List.length (skipn k (a :: l)) <= fuel)%nat).
      { rewrite length_skipn. cbn [List.length] in *. lia. }
      destruct (IH _ Hskip) as (Hcat & Hall & Hlen).
      split; [| split].
      * cbn [List.concat]. rewrite Hcat. apply firstn_skipn.
      * constructor; [| exact Hall]. split.
        -- destruct k; [lia | discriminate].
        -- rewrite length_firstn. lia.
      * cbn [List.length]. rewrite Hlen, length_skipn.
        destruct (Nat.le_gt_cases (List.length (a :: l)) k) as [Hle | Hgt].
        -- replace (List.length (a :: l) - k)%nat with 0%nat by lia.
           rewrite (Nat.div_small (0 + k - 1) k) by lia.
           cbn [List.length] in *.
           apply (Nat.div_unique _ _ 1%nat (List.length l)); lia.
        -- cbn [List.length] in *.
           set (x := (S (List.length l) - k + k - 1)%nat).
           assert (Hx := Nat.div_mod_eq x k).
           assert (Hm := Nat.mod_upper_bound x k ltac:(lia)).
           apply (Nat.div_unique _ _ _ (x mod k)); [exact Hm |].
           rewrite Nat.mul_succ_r. unfold x in *. lia.
Qed.

(** X11: the blocks cut the ticks into consecutive runs: chained together
    they give the ticks back in order, no block is empty or longer than the
    step, and their number is the number of ticks divided by the step,
    rounded up; a step of zero raises a value error. *)
Theorem chunks_partition :
  forall (A : Type) (k : nat) (l : list A),
    (k = 0%nat -> chunks k l = Raise ValueError)
    /\ ((0 < k)%nat ->
        exists blocks,
          chunks k l = Ok blocks
          /\ List.concat blocks = l
          /\ Forall (fun c => c <> [] /\ (List.length c <= k)%nat) blocks
          /\ List.length blocks = ((List.length l + k - 1) / k)%nat).
Proof.
  intros A k l. split.
  - intros ->. reflexivity.
  - intros Hk. unfold chunks.
    assert (Hnz : (k =? 0)%nat = false) by (apply Nat.eqb_neq; lia).
    rewrite Hnz. eexists. split; [reflexivity |].
    apply chunks_from_concat; [exact Hk | lia].
Qed.

Lemma chunks_partition_witness :
  exists blocks,
    chunks 2 [1; 2; 3; 4; 5] = Ok blocks
    /\ List.concat blocks = [1; 2; 3; 4; 5]
    /\ Forall (fun c => c <> [] /\ (List.length c <= 2)%nat) blocks
    /\ List.length blocks = 3%nat.
Proof.
  destruct (chunks_partition 2 [1; 2; 3; 4; 5]) as (_ & H).
  apply H. lia.
Defined.

(** X12: the block labels need at least six context ticks: with fewer the
    block length is zero and the marker step raises a value error; with six
    or more it returns. *)
Theorem markers_need_six_labels :
  forall (Name : Type) (df : list (LongFormRow Name)),
    let n := List.length (unique String.eqb (map (@lf_context Name) df)) in
    ((n < 6)%nat -> increased_context_markers df = Raise ValueError)
    /\ ((6 <= n)%nat -> exists markers, increased_context_markers df = Ok markers).
Proof.
  intros Name df n. unfold increased_context_markers. fold n.
  rewrite arange_length. split; intros Hn.
  - rewrite (Nat.div_small n 6 Hn). reflexivity.
  - unfold chunks.
    assert (Hq : (n / 6 =? 0)%nat = false).
    { apply Nat.eqb_neq. intros H0. apply Nat.div_small_iff in H0; lia. }
    rewrite Hq. eexists. reflexivity.
Qed.

Lemma markers_need_six_labels_witness :
  increased_context_markers
    [mkLongFormRow 0 "A[C>A]A" "A" "SBS1" 1; mkLongFormRow 0 "A[C>G]A" "A" "SBS1" 2]
  = Raise ValueError.
Proof.
  destruct (@markers_need_six_labels Z
              [mkLongFormRow 0 "A[C>A]A" "A" "SBS1" 1;
               mkLongFormRow 0 "A[C>G]A" "A" "SBS1" 2]) as (H & _).
  apply H. simpl. lia.
Defined.

Lemma chunks_from_seq (A : Type) (f : nat -> A) (k m : nat) :
  (0 < k)%nat ->
  forall (a fuel : nat),
    (k * m <= fuel)%nat ->
    chunks_from fuel k (map f (seq a (k * m)))
    = map (fun i => map f (seq (a + k * i) k)) (seq 0 m).
Proof.
  intros Hk. induction m as [| m IH]; intros a fuel Hfuel.
  - rewrite Nat.mul_0_r. destruct fuel; reflexivity.
  - destruct fuel as [| fuel]; [lia |].
    replace (k * S m)%nat with (k + k * m)%nat by lia.
    rewrite seq_app, map_app.
    assert (Hlen : List.length (map f (seq a k)) = k)
      by (rewrite length_map, length_seq; reflexivity).
    cbn [chunks_from].
    destruct (map f (seq a k) ++ map f (seq (a + k) (k * m))) as [| x xs] eqn:Hl.
    { apply (f_equal (@List.length A)) in Hl. rewrite length_app, Hlen in Hl.
      simpl in Hl. lia. }
    rewrite <- Hl.
    rewrite firstn_app, skipn_app, Hlen, Nat.sub_diag.
    rewrite firstn_O, skipn_O, app_nil_r.
    rewrite firstn_all2, skipn_all2 by (rewrite Hlen; lia).
    cbn [app].
    rewrite (IH (a + k)%nat fuel) by lia.
    cbn [seq map]. f_equal.
    + rewrite Nat.mul_0_r, Nat.add_0_r. reflexivity.
    + rewrite <- seq_shift, map_map. apply map_ext. intros i.
      replace (a + k * S i)%nat with (a + k + k * i)%nat by lia.
      reflexivity.
Qed.

Lemma last_map_seq (A : Type) (f : nat -> A) (b k : nat) (d : A) :
  (0 < k)%nat -> last (map f (seq b k)) d = f (b + k - 1)%nat.
Proof.
  intros Hk. destruct k as [| k]; [lia |].
  rewrite seq_S, map_app. cbn [map]. rewrite last_last.
  f_equal. lia.
Qed.

Lemma nth_map_seq (A : Type) (f : nat -> A) (b k j : nat) (d : A) :
  (j < k)%nat -> nth j (map f (seq b k)) d = f (b + j)%nat.
Proof.
  intros Hj. rewrite (nth_indep _ d (f 0%nat))
    by (rewrite length_map, length_seq; exact Hj).
  rewrite map_nth, seq_nth by exact Hj. reflexivity.
Qed.

(** X13: with [6 * k] context ticks and six classes among the rows, the
    ticks fall into six blocks of [k]: the label of the [i]-th class stands
    over the tick [k * i + k / 2], and a divider follows each block but the
    last, half a tick after the block's last tick [k * i + k - 1]. *)
Theorem six_equal_blocks :
  forall (Name : Type) (df : list (LongFormRow Name)) (k : nat)
         (t0 t1 t2 t3 t4 t5 : option string),
    List.length (unique String.eqb (map (@lf_context Name) df)) = (6 * k)%nat ->
    (1 <= k)%nat ->
    unique option_string_eq (map search_class (map (@lf_context Name) df))
    = [t0; t1; t2; t3; t4; t5] ->
    let tick (n : nat) := inject_Z (Z.of_nat n) in
    let after (i : nat) := Some (tick (k * i + k - 1)%nat + (1 # 2))%Q in
    increased_context_markers df
    = Ok [mkBlockMarker (tick (k * 0 + k / 2)%nat) t0 (after 0%nat);
          mkBlockMarker (tick (k * 1 + k / 2)%nat) t1 (after 1%nat);
          mkBlockMarker (tick (k * 2 + k / 2)%nat) t2 (after 2%nat);
          mkBlockMarker (tick (k * 3 + k / 2)%nat) t3 (after 3%nat);
          mkBlockMarker (tick (k * 4 + k / 2)%nat) t4 (after 4%nat);
          mkBlockMarker (tick (k * 5 + k / 2)%nat) t5 None].
Proof.
  intros Name df k t0 t1 t2 t3 t4 t5 Hlabels Hk Htypes tick after.
  unfold increased_context_markers. rewrite Htypes, Hlabels, arange_length.
  replace (6 * k)%nat with (k * 6)%nat by lia.
  rewrite Nat.div_mul by lia.
  unfold chunks.
  assert (Hnz : (k =? 0)%nat = false) by (apply Nat.eqb_neq; lia).
  rewrite Hnz. cbn [bind]. unfold arange at 2.
  rewrite arange_length.
  rewrite (@chunks_from_seq Q (fun i => inject_Z (Z.of_nat i)) k 6 ltac:(lia)
             0%nat (k * 6)%nat (le_n _)).
  cbn [seq map combine List.length block_markers Nat.sub Nat.ltb Nat.leb].
  assert (Hmid : (k / 2 < k)%nat) by (apply Nat.div_lt; lia).
  rewrite !length_map, !length_seq.
  rewrite !last_map_seq by lia.
  rewrite !nth_map_seq by exact Hmid.
  unfold after, tick.
  repeat (f_equal; try lia).
Qed.

Lemma six_equal_blocks_witness :
  increased_context_markers
    (rows_of_contexts
       ["A[C>A]A"; "A[C>A]C"; "A[C>G]A"; "A[C>G]C"; "A[C>T]A"; "A[C>T]C";
        "A[T>A]A"; "A[T>A]C"; "A[T>C]A"; "A[T>C]C"; "A[T>G]A"; "A[T>G]C"])
  = Ok [mkBlockMarker 1 (Some "C>A") (Some (3 # 2));
        mkBlockMarker 3 (Some "C>G") (Some (7 # 2));
        mkBlockMarker 5 (Some "C>T") (Some (11 # 2));
        mkBlockMarker 7 (Some "T>A") (Some (15 # 2));
        mkBlockMarker 9 (Some "T>C") (Some (19 # 2));
        mkBlockMarker 11 (Some "T>G") None]%Q.
Proof.
  apply (@six_equal_blocks Z
           (rows_of_contexts
              ["A[C>A]A"; "A[C>A]C"; "A[C>G]A"; "A[C>G]C"; "A[C>T]A"; "A[C>T]C";
               "A[T>A]A"; "A[T>A]C"; "A[T>C]A"; "A[T>C]C"; "A[T>G]A"; "A[T>G]C"])
           2%nat (Some "C>A") (Some "C>G") (Some "C>T") (Some "T>A")
           (Some "T>C") (Some "T>G")).
  - reflexivity.
  - lia.
  - reflexivity.
Defined.

(** ** parse_96_df *)

Lemma unique_from_length (A : Type) (eqb : A -> A -> bool) (seen l : list A) :
  (List.length (unique_from eqb seen l) <= List.length l)%nat.
Proof.
  revert seen. induction l as [| a l IH]; intros seen; simpl.
  - lia.
  - destruct (existsb (eqb a) seen); simpl.
    + specialize (IH seen). lia.
    + specialize (IH (a :: seen)). lia.
Qed.

Lemma unique_from_NoDup (seen l : list string) :
  NoDup l -> (forall x, In x seen -> ~ In x l) ->
  unique_from String.eqb seen l = l.
Proof.
  revert seen. induction l as [| a l IH]; intros seen Hnd Hseen; simpl.
  - reflexivity.
  - inversion Hnd as [| ? ? Ha Hl]; subst.
    destruct (existsb (String.eqb a) seen) eqn:Hex.
    + apply existsb_exists in Hex. destruct Hex as (x & Hx & Heq).
      apply String.eqb_eq in Heq. subst x.
      exfalso. apply (Hseen a Hx). left. reflexivity.
    + f_equal. apply IH; [exact Hl |].
      intros x [<- | Hx] Hin; [exact (Ha Hin) |].
      apply (Hseen x Hx). right. exact Hin.
Qed.

Lemma mutation_color_Raise (Color : Type) (C : string -> option Color)
  (m : option string) (e : exn) :
  mutation_color C m = Raise e -> exists key, e = KeyError key.
Proof.
  unfold mutation_color. destruct m as [m |].
  - destruct (C m); intros H; [discriminate H | injection H as <-; eexists; reflexivity].
  - intros H. injection H as <-. eexists. reflexivity.
Qed.

Section Parse96Facts.

Variable Color : Type.
Variable C : string -> option Color.

Lemma draw_bars_Ok_inv (vals : list Z) (pairs : list (nat * option string))
  (added : list string) (bars : list (Bar96 Color)) :
  draw_bars C vals added pairs = Ok bars ->
  map (@bar96_x Color) bars = map fst pairs
  /\ map (fun b => Some (bar96_height b)) bars
     = map (fun p => nth_error vals (fst p)) pairs
  /\ legend bars = unique_from String.eqb added (present_classes (map snd pairs))
  /\ Forall (fun p => exists m, snd p = Some m /\ C m <> None) pairs.
Proof.
  revert added bars.
  induction pairs as [| [x mutation] pairs IH]; intros added bars H.
  - injection H as <-. repeat split; constructor.
  - cbn [draw_bars] in H.
    apply bind_Ok_inv in H. destruct H as (color & Hcolor & H).
    apply bind_Ok_inv in H. destruct H as (value & Hvalue & H).
    unfold iloc in Hvalue.
    destruct (nth_error vals x) as [v |] eqn:Hnth; [| discriminate Hvalue].
    injection Hvalue as <-.
    destruct mutation as [m |]; [| discriminate H].
    assert (Hknown : C m <> None).
    { unfold mutation_color in Hcolor. destruct (C m); [discriminate | discriminate Hcolor]. }
    cbn [map fst snd present_classes unique_from].
    destruct (existsb (String.eqb m) added).
    + apply bind_Ok_inv in H. destruct H as (rest & Hrest & H).
      injection H as <-.
      destruct (IH _ _ Hrest) as (Hx & Hh & Hl & Hall).
      cbn [map bar96_x bar96_height]. rewrite Hx, Hh, Hnth.
      repeat split; try reflexivity.
      * unfold legend in *. cbn [flat_map bar96_label app]. exact Hl.
      * constructor; [exists m; auto | exact Hall].
    + apply bind_Ok_inv in H. destruct H as (rest & Hrest & H).
      injection H as <-.
      destruct (IH _ _ Hrest) as (Hx & Hh & Hl & Hall).
      cbn [map bar96_x bar96_height]. rewrite Hx, Hh, Hnth.
      repeat split; try reflexivity.
      * unfold legend in *. cbn [flat_map bar96_label app]. rewrite Hl. reflexivity.
      * constructor; [exists m; auto | exact Hall].
Qed.

Lemma draw_bars_Ok (vals : list Z) (pairs : list (nat * option string))
  (added : list string) :
  Forall (fun p => (exists m, snd p = Some m /\ C m <> None)
                   /\ (fst p < List.length vals)%nat) pairs ->
  exists bars, draw_bars C vals added pairs = Ok bars.
Proof.
  revert added. induction pairs as [| [x mutation] pairs IH]; intros added H.
  - exists []. reflexivity.
  - inversion H as [| ? ? [(m & Hm & Hc) Hx] Hrest]; subst.
    cbn [fst snd] in *. subst mutation.
    cbn [draw_bars]. unfold mutation_color, iloc.
    destruct (C m) as [c |]; [| contradiction].
    destruct (nth_error vals x) as [v |] eqn:Hnth;
      [| apply nth_error_None in Hnth; lia].
    cbn [bind].
    destruct (existsb (String.eqb m) added).
    + destruct (IH added Hrest) as (bars & ->). eexists. reflexivity.
    + destruct (IH (m :: added) Hrest) as (bars & ->). eexists. reflexivity.
Qed.

Lemma draw_bars_Raise (vals : list Z) (pairs : list (nat * option string))
  (added : list string) :
  Forall (fun p => (fst p < List.length vals)%nat) pairs ->
  Exists (fun p => forall m, snd p = Some m -> C m = None) pairs ->
  exists key, draw_bars C vals added pairs = Raise (KeyError key).
Proof.
  revert added. induction pairs as [| [x mutation] pairs IH];
    intros added Hx Hbad.
  - inversion Hbad.
  - inversion Hx as [| ? ? Hx0 Hxs]; subst. cbn [fst] in Hx0.
    cbn [draw_bars].
    destruct (mutation_color C mutation) as [color |] eqn:Hcolor.
    + cbn [bind]. unfold iloc.
      destruct (nth_error vals x) as [v |] eqn:Hnth;
        [| apply nth_error_None in Hnth; lia].
      cbn [bind].
      destruct mutation as [m |]; [| eexists; reflexivity].
      assert (Hrest : Exists (fun p => forall m, snd p = Some m -> C m = None) pairs).
      { inversion Hbad as [? ? Hhead | ? ? Hrest]; subst; [| exact Hrest].
        exfalso. cbn [snd] in Hhead. specialize (Hhead m eq_refl).
        unfold mutation_color in Hcolor. rewrite Hhead in Hcolor.
        discriminate Hcolor. }
      destruct (existsb (String.eqb m) added).
      * destruct (IH added Hxs Hrest) as (key & ->). eexists. reflexivity.
      * destruct (IH (m :: added) Hxs Hrest) as (key & ->). eexists. reflexivity.
    + destruct (mutation_color_Raise _ _ Hcolor) as (key & ->).
      exists key. reflexivity.
Qed.

End Parse96Facts.

Lemma map_fst_combine (A B : Type) (l1 : list A) (l2 : list B) :
  (List.length l1 <= List.length l2)%nat ->
  map fst (combine l1 l2) = l1
  /\ map snd (combine l1 l2) = firstn (List.length l1) l2.
Proof.
  revert l2. induction l1 as [| a l1 IH]; intros l2 H.
  - split; reflexivity.
  - destruct l2 as [| b l2]; [simpl in H; lia |].
    destruct (IH l2) as [H1 H2]; [simpl in H; lia |].
    simpl. rewrite H1, H2. split; reflexivity.
Qed.

Lemma nth_error_skipn_cons (A : Type) (l : list A) (a : nat) (x : A) :
  nth_error l a = Some x -> skipn a l = x :: skipn (S a) l.
Proof.
  revert l. induction a as [| a IH]; intros l H.
  - destruct l; [discriminate H | injection H as ->; reflexivity].
  - destruct l as [| y l]; [discriminate H |]. exact (IH l H).
Qed.

Lemma heights_of_rows (vals hs : list Z) (d a : nat) :
  map Some hs = map (nth_error vals) (seq a d) ->
  hs = firstn d (skipn a vals) /\ (a + d <= List.length vals \/ d = 0)%nat.
Proof.
  revert a hs. induction d as [| d IH]; intros a hs H.
  - destruct hs; [| discriminate H]. split; [reflexivity | right; reflexivity].
  - destruct hs as [| h hs]; [discriminate H |].
    cbn [seq map] in H. injection H as Hh Hrest. symmetry in Hh.
    destruct (IH _ _ Hrest) as [-> Hlen].
    rewrite (nth_error_skipn_cons _ _ Hh). split; [reflexivity | left].
    assert (Ha : (a < List.length vals)%nat)
      by (apply nth_error_Some; congruence).
    lia.
Qed.

Lemma format_xlabels_Ok_inv (labels out : list string) :
  format_xlabels labels = Ok out ->
  List.length out = List.length labels
  /\ Forall (fun t => String.length t = 3%nat) out
  /\ Forall (fun l => (3 <= String.length l)%nat) labels.
Proof.
  revert out. induction labels as [| label labels IH]; intros out H.
  - injection H as <-. repeat split; constructor.
  - cbn [format_xlabels] in H.
    apply bind_Ok_inv in H. destruct H as (t & Ht & H).
    apply bind_Ok_inv in H. destruct H as (ts & Hts & H).
    injection H as <-. destruct (IH _ Hts) as (Hlen & Hall & Hlong).
    assert (Hl : (3 <= String.length label)%nat).
    { destruct (Nat.lt_ge_cases (String.length label) 3) as [Hs | Hl]; [| exact Hl].
      rewrite (format_xlabel_short _ Hs) in Ht. discriminate Ht. }
    destruct (format_xlabel_long _ Hl) as (t' & Ht' & Hlen').
    assert (t' = t) by congruence. subst t'.
    repeat split; [simpl; lia | constructor; assumption | constructor; assumption].
Qed.

Lemma parse_96_df_Ok_inv (Color : Type) (C : string -> option Color)
  (df : DataFrame) (col : string) (page : Page96 Color) :
  parse_96_df C df col = Ok page ->
  exists vals bars ticks,
    lookup_column col (samples df) = Ok vals
    /\ draw_bars C vals []
         (combine (seq 0 (List.length (unique String.eqb (MutationType df))))
            (map search_class (MutationType df))) = Ok bars
    /\ format_xlabels (unique String.eqb (MutationType df)) = Ok ticks
    /\ page = mkPage96 bars
                (group_markers
                   (List.length (groupby_groups (map search_class (MutationType df))))
                   0 (groupby_groups (map search_class (MutationType df))))
                col ticks (List.length (MutationType df)).
Proof.
  intros H. unfold parse_96_df in H.
  apply bind_Ok_inv in H. destruct H as (vals & Hvals & H).
  apply bind_Ok_inv in H. destruct H as (bars & Hbars & H).
  apply bind_Ok_inv in H. destruct H as (ticks & Hticks & H).
  injection H as <-. exists vals, bars, ticks. auto.
Qed.

(** X14: a page of the 96-context plot has one bar and one tick for each
    distinct key, the bars at 0, 1, 2, ... with the values of the rows 0, 1,
    2, ... of the column, its x axis ends at the number of rows, and its title
    is the column name.  With repeated keys there are fewer bars than rows,
    and the last rows are not drawn. *)
Theorem parse_96_df_page_shape :
  forall (Color : Type) (C : string -> option Color)
         (df : DataFrame) (col : string) (page : Page96 Color),
    parse_96_df C df col = Ok page ->
    let d := List.length (unique String.eqb (MutationType df)) in
    exists vals,
      lookup_column col (samples df) = Ok vals
      /\ map (@bar96_x Color) (page_bars page) = seq 0 d
      /\ map (@bar96_height Color) (page_bars page) = firstn d vals
      /\ List.length (page_ticks page) = d
      /\ (d <= List.length (MutationType df))%nat
      /\ page_xlim page = List.length (MutationType df)
      /\ page_title page = col.
Proof.
  intros Color C df col page H d.
  destruct (parse_96_df_Ok_inv _ _ _ H)
    as (vals & bars & ticks & Hvals & Hbars & Hticks & ->).
  fold d in Hbars.
  assert (Hd : (d <= List.length (MutationType df))%nat)
    by apply unique_from_length.
  destruct (draw_bars_Ok_inv _ _ _ _ Hbars) as (Hx & Hh & _ & _).
  destruct (@map_fst_combine _ _ (seq 0 d) (map search_class (MutationType df)))
    as [Hfst _]; [rewrite length_seq, length_map; exact Hd |].
  exists vals. cbn [page_bars page_ticks page_xlim page_title].
  split; [exact Hvals |]. split; [rewrite Hx; exact Hfst |].
  split; [| split; [| auto]].
  - rewrite <- (map_map fst (nth_error vals)), Hfst in Hh.
    rewrite <- (map_map (@bar96_height Color) Some) in Hh.
    destruct (heights_of_rows _ _ _ _ Hh) as [-> _]. reflexivity.
  - destruct (format_xlabels_Ok_inv _ Hticks) as (Hlen & _). exact Hlen.
Qed.

Lemma parse_96_df_page_shape_witness :
  exists vals,
    lookup_column "SBS1" (samples example_table_96) = Ok vals
    /\ map (@bar96_x nat)
         [mkBar96 0 3 0%nat (Some "C>A"); mkBar96 1 4 0%nat None;
          mkBar96 2 5 5%nat (Some "T>G"); mkBar96 3 6 1%nat (Some "C>G")]
       = seq 0 4
    /\ map (@bar96_height nat)
         [mkBar96 0 3 0%nat (Some "C>A"); mkBar96 1 4 0%nat None;
          mkBar96 2 5 5%nat (Some "T>G"); mkBar96 3 6 1%nat (Some "C>G")]
       = firstn 4 vals
    /\ List.length ["ACA"; "ACC"; "ATA"; "ACT"] = 4%nat
    /\ (4 <= 4)%nat
    /\ 4%nat = 4%nat
    /\ "SBS1" = "SBS1".
Proof.
  apply (@parse_96_df_page_shape nat example_colors example_table_96 "SBS1"
           (mkPage96
              [mkBar96 0 3 0%nat (Some "C>A"); mkBar96 1 4 0%nat None;
               mkBar96 2 5 5%nat (Some "T>G"); mkBar96 3 6 1%nat (Some "C>G")]
              [mkBlockMarker 1 (Some "C>A") (Some (3 # 2));
               mkBlockMarker 3 (Some "C>G") (Some (7 # 2));
               mkBlockMarker 2 (Some "T>G") None]
              "SBS1" ["ACA"; "ACC"; "ATA"; "ACT"] 4)).
  vm_compute. reflexivity.
Defined.

Lemma combine_nth_error_In (A B : Type) (l1 : list A) (l2 : list B)
  (i : nat) (a : A) (b : B) :
  nth_error l1 i = Some a -> nth_error l2 i = Some b -> In (a, b) (combine l1 l2).
Proof.
  revert l1 l2. induction i as [| i IH]; intros l1 l2 H1 H2;
    destruct l1 as [| x l1]; destruct l2 as [| y l2]; try discriminate.
  - injection H1 as ->. injection H2 as ->. left. reflexivity.
  - right. exact (IH _ _ H1 H2).
Qed.

(** X15: a plotted row whose key has no bracketed class, or a class that
    is not in the colour table, makes the page raise a key error; the rows
    that are plotted are the first [d] rows, [d] the number of distinct
    keys. *)
Theorem parse_96_df_unknown_class_raises :
  forall (Color : Type) (C : string -> option Color)
         (df : DataFrame) (col : string) (vals : list Z) (i : nat) (k : string),
    lookup_column col (samples df) = Ok vals ->
    List.length vals = List.length (MutationType df) ->
    nth_error (MutationType df) i = Some k ->
    (i < List.length (unique String.eqb (MutationType df)))%nat ->
    (forall m, search_class k = Some m -> C m = None) ->
    exists key, parse_96_df C df col = Raise (KeyError key).
Proof.
  intros Color C df col vals i k Hvals Hlen Hk Hi Hbad.
  unfold parse_96_df. rewrite Hvals. cbn [bind].
  set (d := List.length (unique String.eqb (MutationType df))) in *.
  assert (Hd : (d <= List.length (MutationType df))%nat)
    by apply unique_from_length.
  destruct (@draw_bars_Raise Color C vals
              (combine (seq 0 d) (map search_class (MutationType df))) [])
    as (key & ->).
  - apply Forall_forall. intros [x m] Hin. apply in_combine_l in Hin.
    apply in_seq in Hin. cbn [fst]. lia.
  - apply Exists_exists. exists (i, search_class k). split.
    + apply (@combine_nth_error_In _ _ _ _ i).
      * rewrite nth_error_nth' with (d := 0%nat) by (rewrite length_seq; exact Hi).
        rewrite seq_nth by exact Hi. reflexivity.
      * rewrite nth_error_map, Hk. reflexivity.
    + exact Hbad.
  - exists key. reflexivity.
Qed.

Lemma parse_96_df_unknown_class_raises_witness :
  exists key,
    parse_96_df example_colors
      (mkDataFrame ["A[C>A]A"; "ACA"; "A[C>G]T"] [("SBS1", [3; 4; 5])] None)
      "SBS1"
    = Raise (KeyError key).
Proof.
  apply (@parse_96_df_unknown_class_raises nat example_colors
           (mkDataFrame ["A[C>A]A"; "ACA"; "A[C>G]T"] [("SBS1", [3; 4; 5])] None)
           "SBS1" [3; 4; 5] 1%nat "ACA").
  - reflexivity.
  - reflexivity.
  - reflexivity.
  - simpl. lia.
  - intros m Hm. discriminate Hm.
Defined.

(** X16: the legend of a page lists the classes of the plotted rows once
    each, in the order in which they first occur: the label goes to the first
    bar of each class and to no other. *)
Theorem parse_96_df_legend :
  forall (Color : Type) (C : string -> option Color)
         (df : DataFrame) (col : string) (page : Page96 Color),
    parse_96_df C df col = Ok page ->
    let d := List.length (unique String.eqb (MutationType df)) in
    legend (page_bars page)
    = unique String.eqb
        (present_classes (firstn d (map search_class (MutationType df)))).
Proof.
  intros Color C df col page H d.
  destruct (parse_96_df_Ok_inv _ _ _ H)
    as (vals & bars & ticks & _ & Hbars & _ & ->).
  fold d in Hbars. cbn [page_bars].
  destruct (draw_bars_Ok_inv _ _ _ _ Hbars) as (_ & _ & Hlegend & _).
  destruct (@map_fst_combine _ _ (seq 0 d) (map search_class (MutationType df)))
    as [_ Hsnd].
  { rewrite length_seq, length_map. apply unique_from_length. }
  rewrite Hsnd, length_seq in Hlegend. exact Hlegend.
Qed.

Lemma parse_96_df_legend_witness :
  legend
    [mkBar96 0 3 0%nat (Some "C>A"); mkBar96 1 4 0%nat None;
     mkBar96 2 5 5%nat (Some "T>G"); mkBar96 3 6 1%nat (Some "C>G")]
  = ["C>A"; "T>G"; "C>G"].
Proof.
  apply (@parse_96_df_legend nat example_colors example_table_96 "SBS1"
           (mkPage96
              [mkBar96 0 3 0%nat (Some "C>A"); mkBar96 1 4 0%nat None;
               mkBar96 2 5 5%nat (Some "T>G"); mkBar96 3 6 1%nat (Some "C>G")]
              [mkBlockMarker 1 (Some "C>A") (Some (3 # 2));
               mkBlockMarker 3 (Some "C>G") (Some (7 # 2));
               mkBlockMarker 2 (Some "T>G") None]
              "SBS1" ["ACA"; "ACC"; "ATA"; "ACT"] 4)).
  vm_compute. reflexivity.
Defined.

Lemma group_markers_labels (n i : nat) (groups : list (string * list nat)) :
  map text_label (group_markers n i groups) = map (fun g => Some (fst g)) groups.
Proof.
  revert i. induction groups as [| [k rows] groups IH]; intros i.
  - reflexivity.
  - cbn [group_markers map text_label fst]. rewrite IH. reflexivity.
Qed.

Lemma group_markers_dividers (n i : nat) (groups : list (string * list nat)) :
  (i + List.length groups = n)%nat -> groups <> [] ->
  exists before final,
    group_markers n i groups = before ++ [final]
    /\ Forall (fun m => divider m <> None) before
    /\ divider final = None.
Proof.
  revert i. induction groups as [| [k rows] groups IH]; intros i Hn Hne.
  - contradiction.
  - cbn [group_markers]. destruct groups as [| g groups].
    + assert (Hlast : (i <? n - 1)%nat = false)
        by (apply Nat.ltb_ge; simpl in Hn; lia).
      rewrite Hlast. eexists [], _. cbn [group_markers app].
      repeat split. constructor.
    + assert (Hmid : (i <? n - 1)%nat = true)
        by (apply Nat.ltb_lt; simpl in Hn; lia).
      rewrite Hmid.
      destruct (IH (S i)) as (before & final & -> & Hall & Hfinal);
        [simpl in *; lia | discriminate |].
      eexists (_ :: before), final. cbn [app].
      repeat split; [| exact Hfinal].
      constructor; [discriminate | exact Hall].
Qed.

(** X17: the 96-context page has one block label for each class that
    occurs among the keys, rows without a class being in no block, and a
    divider after every block but the last in the order of the groups. *)
Theorem parse_96_df_markers :
  forall (Color : Type) (C : string -> option Color)
         (df : DataFrame) (col : string) (page : Page96 Color),
    parse_96_df C df col = Ok page ->
    let classes :=
      unique String.eqb (present_classes (map search_class (MutationType df))) in
    Permutation (map Some classes) (map text_label (page_markers page))
    /\ (classes <> [] ->
        exists before final,
          page_markers page = before ++ [final]
          /\ Forall (fun m => divider m <> None) before
          /\ divider final = None).
Proof.
  intros Color C df col page H classes.
  destruct (parse_96_df_Ok_inv _ _ _ H) as (vals & bars & ticks & _ & _ & _ & ->).
  cbn [page_markers]. split.
  - rewrite group_markers_labels. unfold groupby_groups. rewrite map_map.
    cbn [fst]. fold classes.
    rewrite <- (map_map (fun k => k) Some), map_id.
    apply Permutation_map. apply sorted_perm.
  - intros Hne. apply group_markers_dividers; [reflexivity |].
    unfold groupby_groups. fold classes. intros Hnil.
    apply map_eq_nil in Hnil.
    assert (Hperm := sorted_perm (fun k : string => k) String.ltb classes).
    rewrite Hnil in Hperm. apply Permutation_sym, Permutation_nil in Hperm.
    contradiction.
Qed.

Lemma parse_96_df_markers_witness :
  Permutation (map Some ["C>A"; "T>G"; "C>G"])
    (map text_label
       [mkBlockMarker 1 (Some "C>A") (Some (3 # 2));
        mkBlockMarker 3 (Some "C>G") (Some (7 # 2));
        mkBlockMarker 2 (Some "T>G") None])
  /\ (["C>A"; "T>G"; "C>G"] <> [] ->
      exists before final,
        [mkBlockMarker 1 (Some "C>A") (Some (3 # 2));
         mkBlockMarker 3 (Some "C>G") (Some (7 # 2));
         mkBlockMarker 2 (Some "T>G") None] = before ++ [final]
        /\ Forall (fun m => divider m <> None) before
        /\ divider final = None).
Proof.
  apply (@parse_96_df_markers nat example_colors example_table_96 "SBS1"
           (mkPage96
              [mkBar96 0 3 0%nat (Some "C>A"); mkBar96 1 4 0%nat None;
               mkBar96 2 5 5%nat (Some "T>G"); mkBar96 3 6 1%nat (Some "C>G")]
              [mkBlockMarker 1 (Some "C>A") (Some (3 # 2));
               mkBlockMarker 3 (Some "C>G") (Some (7 # 2));
               mkBlockMarker 2 (Some "T>G") None]
              "SBS1" ["ACA"; "ACC"; "ATA"; "ACT"] 4)).
  vm_compute. reflexivity.
Defined.

(** ** The reports, page by page *)

Lemma for_columns_prefix (Page : Type) (page : string -> result Page)
  (cols : list string) :
  exists pages,
    fst (for_columns page cols) = map (@Saved Page) pages
    /\ rendered_prefix page cols pages (snd (for_columns page cols)).
Proof.
  induction cols as [| col cols IH]; cbn [for_columns].
  - exists []. split; [reflexivity |].
    exists [], []. repeat split; [constructor | left; auto].
  - destruct (page col) as [p | e] eqn:Hcol; cbn [fst snd].
    + destruct IH as (pages & Hfst & done & rest & Hcols & Hall & Hret).
      exists (p :: pages). split; [rewrite Hfst; reflexivity |].
      exists (col :: done), rest. split; [rewrite Hcols; reflexivity |].
      split; [constructor; assumption | exact Hret].
    + exists []. split; [reflexivity |].
      exists [], (col :: cols). split; [reflexivity |].
      split; [constructor | right; exists col, cols, e; auto].
Qed.

(** X18: each report saves the pages of its columns in sorted order up to
    the first column whose page raises: with no such column it saves a page
    for every column and returns, otherwise it raises the exception of that
    column and saves nothing after it.  The larger-context report goes over
    the sample columns, the 96-context report over all columns after the
    first. *)
Theorem report_pages_in_order :
  forall (Name Page Key : Type) (key : string -> Key)
         (ltb : Key -> Key -> bool) (ML : list string)
         (gn : Z -> result (list Z)) (gs : Z -> result (list Name))
         (render : list (LongFormRow Name) -> result Page)
         (parse_96 : DataFrame -> string -> result Page)
         (st : Store) (df : Ref) (folder : Path),
    let o1 := larger_context_barplot key ltb ML gn gs render st df folder in
    let o2 := create_96_barplot key ltb parse_96 st df folder in
    (exists path pages,
       document o1 = Opened Page path :: map (@Saved Page) pages ++ [Closed Page]
       /\ rendered_prefix (larger_context_page ML gn gs render (tables o1 df))
            (sorted key ltb (map fst (samples (st df)))) pages (returned o1))
    /\ (exists path pages,
          document o2 = Opened Page path :: map (@Saved Page) pages ++ [Closed Page]
          /\ rendered_prefix (parse_96 (st df))
               (sorted key ltb (tl (columns (st df)))) pages (returned o2)).
Proof.
  intros Name Page Key key ltb ML gn gs render parse_96 st df folder o1 o2.
  split.
  - unfold o1, larger_context_barplot.
    cbn [document returned tables with_PdfPages fst snd].
    unfold store_set. rewrite Nat.eqb_refl. rewrite larger_context_columns.
    match goal with
    | |- context [for_columns ?page ?cols] =>
        destruct (for_columns_prefix page cols) as (pages & Hfst & Hpre)
    end.
    eexists. exists pages. rewrite Hfst. split; [reflexivity | exact Hpre].
  - unfold o2, create_96_barplot.
    cbn [document returned with_PdfPages fst snd].
    match goal with
    | |- context [for_columns ?page ?cols] =>
        destruct (for_columns_prefix page cols) as (pages & Hfst & Hpre)
    end.
    eexists. exists pages. rewrite Hfst. split; [reflexivity | exact Hpre].
Qed.

Lemma larger_context_barplot_unfold (Name Page Key : Type)
  (key : string -> Key) (ltb : Key -> Key -> bool) (ML : list string)
  (gn : Z -> result (list Z)) (gs : Z -> result (list Name))
  (render : list (LongFormRow Name) -> result Page)
  (st : Store) (df : Ref) (folder : Path) :
  let t := set_context (st df) (str_extract_context (MutationType (st df))) in
  let body := for_columns (larger_context_page ML gn gs render t)
                (sorted key ltb (map fst (samples (st df)))) in
  let o := larger_context_barplot key ltb ML gn gs render st df folder in
  tables o df = t
  /\ document o
     = Opened Page
         (path_join folder
            ("signatures." ++ decimal (row_count (st df)) ++ ".pdf")%string)
       :: fst body ++ [Closed Page]
  /\ returned o = snd body.
Proof.
  intros t body o. unfold o, larger_context_barplot.
  cbn [tables document returned with_PdfPages fst snd].
  unfold store_set. rewrite Nat.eqb_refl.
  rewrite (larger_context_columns (st df)). repeat split.
Qed.

(** X19: the larger-context report can be run again on the table it has
    written to: the context column of the first run is not taken for a sample
    column, and the second run leaves the same tables, the same document and
    the same result as the first. *)
Theorem larger_context_barplot_rerun :
  forall (Name Page Key : Type) (key : string -> Key)
         (ltb : Key -> Key -> bool) (ML : list string)
         (gn : Z -> result (list Z)) (gs : Z -> result (list Name))
         (render : list (LongFormRow Name) -> result Page)
         (st : Store) (df : Ref) (folder : Path),
    let o1 := larger_context_barplot key ltb ML gn gs render st df folder in
    let o2 := larger_context_barplot key ltb ML gn gs render (tables o1) df folder in
    document o2 = document o1
    /\ returned o2 = returned o1
    /\ (forall r : Ref, tables o2 r = tables o1 r).
Proof.
  intros Name Page Key key ltb ML gn gs render st df folder o1 o2.
  destruct (larger_context_barplot_unfold key ltb ML gn gs render st df folder)
    as (Htab & Hdoc & Hret).
  destruct (larger_context_barplot_unfold key ltb ML gn gs render (tables o1)
              df folder) as (Htab2 & Hdoc2 & Hret2).
  fold o1 in Htab, Hdoc, Hret. fold o2 in Htab2, Hdoc2, Hret2.
  assert (Hsame : set_context (tables o1 df)
                    (str_extract_context (MutationType (tables o1 df)))
                  = tables o1 df).
  { rewrite Htab. reflexivity. }
  rewrite Hsame in Htab2, Hdoc2, Hret2.
  split; [| split].
  - rewrite Hdoc2, Hdoc, Htab. reflexivity.
  - rewrite Hret2, Hret, Htab. reflexivity.
  - intros r. unfold o2, larger_context_barplot. cbn [tables].
    unfold store_set at 1. destruct (Nat.eqb r df) eqn:Hr.
    + apply Nat.eqb_eq in Hr. subst r. exact Hsame.
    + reflexivity.
Qed.

(** ** The 96-context report on a standard table *)

Lemma lookup_column_found (col : string) (cols : list (string * list Z)) :
  In col (map fst cols) ->
  exists vals, lookup_column col cols = Ok vals /\ In (col, vals) cols.
Proof.
  induction cols as [| [name v] cols IH]; intros Hin.
  - destruct Hin.
  - cbn [lookup_column]. destruct (String.eqb name col) eqn:Heq.
    + apply String.eqb_eq in Heq. subst name. exists v. split; [reflexivity | left; reflexivity].
    + destruct Hin as [Hname | Hin].
      * cbn [fst] in Hname. subst name. rewrite String.eqb_refl in Heq. discriminate Heq.
      * destruct (IH Hin) as (vals & Hl & Hv). exists vals. split; [exact Hl | right; exact Hv].
Qed.

Lemma format_xlabels_long (labels : list string) :
  Forall (fun l => (3 <= String.length l)%nat) labels ->
  exists out, format_xlabels labels = Ok out /\ List.length out = List.length labels.
Proof.
  induction 1 as [| label labels Hl _ IH].
  - exists []. split; reflexivity.
  - destruct (format_xlabel_long _ Hl) as (t & Ht & _).
    destruct IH as (out & Hout & Hlen).
    exists (t :: out). cbn [format_xlabels]. rewrite Ht, Hout.
    split; [reflexivity | simpl; lia].
Qed.

Lemma for_columns_all_Ok (Page : Type) (page : string -> result Page)
  (P : Page -> Prop) (cols : list string) :
  (forall c, In c cols -> exists p, page c = Ok p /\ P p) ->
  exists pages,
    for_columns page cols = (map (@Saved Page) pages, Ok tt)
    /\ List.length pages = List.length cols
    /\ Forall P pages.
Proof.
  induction cols as [| col cols IH]; intros H.
  - exists []. repeat split. constructor.
  - destruct (H col (or_introl eq_refl)) as (p & Hp & HP).
    destruct IH as (pages & Hfor & Hlen & Hall);
      [intros c Hc; apply H; right; exact Hc |].
    exists (p :: pages). cbn [for_columns]. rewrite Hp, Hfor.
    repeat split; [simpl; lia | constructor; assumption].
Qed.

Lemma parse_96_df_returns (Color : Type) (C : string -> option Color)
  (df : DataFrame) (col : string) :
  NoDup (MutationType df) ->
  Forall (fun k => (3 <= String.length k)%nat
                   /\ exists m, search_class k = Some m /\ C m <> None)
         (MutationType df) ->
  Forall (fun c => List.length (snd c) = List.length (MutationType df))
         (samples df) ->
  In col (map fst (samples df)) ->
  exists page,
    parse_96_df C df col = Ok page
    /\ List.length (page_ticks page) = List.length (MutationType df)
    /\ List.length (page_bars page) = List.length (MutationType df).
Proof.
  intros Hnd Hkeys Hsamples Hcol.
  destruct (lookup_column_found _ _ Hcol) as (vals & Hvals & Hin).
  rewrite Forall_forall in Hsamples. specialize (Hsamples _ Hin). cbn [snd] in Hsamples.
  assert (Huniq : unique String.eqb (MutationType df) = MutationType df).
  { unfold unique. apply unique_from_NoDup; [exact Hnd | intros x []]. }
  unfold parse_96_df. rewrite Hvals, Huniq. cbn [bind].
  set (n := List.length (MutationType df)) in *.
  destruct (@draw_bars_Ok Color C vals
              (combine (seq 0 n) (map search_class (MutationType df))) [])
    as (bars & Hbars).
  { apply Forall_forall. intros [x c] Hp. cbn [fst snd]. split.
    - apply in_combine_r in Hp. apply in_map_iff in Hp.
      destruct Hp as (k & <- & Hk).
      rewrite Forall_forall in Hkeys. destruct (Hkeys k Hk) as (_ & m & Hm & Hc).
      exists m. auto.
    - apply in_combine_l in Hp. apply in_seq in Hp. lia. }
  rewrite Hbars. cbn [bind].
  assert (Hlong : Forall (fun l => (3 <= String.length l)%nat) (MutationType df)).
  { eapply Forall_impl; [| exact Hkeys]. intros k [Hk _]. exact Hk. }
  destruct (format_xlabels_long Hlong) as (ticks & Hticks & Hlen).
  rewrite Hticks. cbn [bind].
  eexists. split; [reflexivity |]. cbn [page_ticks page_bars].
  split; [exact Hlen |].
  destruct (draw_bars_Ok_inv _ _ _ _ Hbars) as (Hx & _).
  apply (f_equal (@List.length nat)) in Hx.
  rewrite !length_map, length_combine, length_seq, length_map in Hx.
  fold n in Hx. lia.
Qed.

(** X20: on a table without a context column whose keys are distinct, have
    at least three characters and a class of the colour table each, the
    96-context report returns normally and its document holds one page for
    each sample column, every page with one tick and one bar for each row. *)
Theorem create_96_barplot_pages :
  forall (Color Key : Type) (C : string -> option Color)
         (key : string -> Key) (ltb : Key -> Key -> bool)
         (st : Store) (df : Ref) (folder : Path),
    let t := st df in
    let n := List.length (MutationType t) in
    context t = None ->
    NoDup (MutationType t) ->
    Forall (fun k => (3 <= String.length k)%nat
                     /\ exists m, search_class k = Some m /\ C m <> None)
           (MutationType t) ->
    Forall (fun c => List.length (snd c) = n) (samples t) ->
    let o := create_96_barplot key ltb (parse_96_df C) st df folder in
    returned o = Ok tt
    /\ exists pages,
         document o
         = Opened (Page96 Color) (folder ++ ["signatures.96.pdf"])
           :: map (@Saved (Page96 Color)) pages ++ [Closed (Page96 Color)]
         /\ List.length pages = List.length (samples t)
         /\ Forall (fun p => List.length (page_ticks p) = n
                             /\ List.length (page_bars p) = n) pages.
Proof.
  intros Color Key C key ltb st df folder t n Hctx Hnd Hkeys Hsamples o.
  assert (Hcols : tl (columns t) = map fst (samples t)).
  { unfold columns. rewrite Hctx. cbn [tl]. apply app_nil_r. }
  destruct (@for_columns_all_Ok (Page96 Color) (parse_96_df C t)
              (fun p => List.length (page_ticks p) = n
                        /\ List.length (page_bars p) = n)
              (sorted key ltb (map fst (samples t))))
    as (pages & Hfor & Hlen & Hall).
  { intros c Hc.
    apply (Permutation_in _ (Permutation_sym (sorted_perm key ltb _))) in Hc.
    destruct (@parse_96_df_returns Color C t c Hnd Hkeys Hsamples Hc)
      as (page & Hpage & Hticks & Hbars).
    exists page. auto. }
  unfold o, create_96_barplot. fold t. rewrite Hcols, Hfor.
  cbn [returned document with_PdfPages fst snd]. split; [reflexivity |].
  exists pages. split; [reflexivity |]. split; [| exact Hall].
  rewrite Hlen.
  rewrite <- (Permutation_length (sorted_perm key ltb (map fst (samples t)))).
  apply length_map.
Qed.

Lemma create_96_barplot_pages_witness :
  let o := create_96_barplot custom_sort_column_names key_ltb
             (parse_96_df example_colors) (fun _ => example_table_96) 0%nat
             ["out"] in
  returned o = Ok tt
  /\ exists pages,
       document o
       = Opened (Page96 nat) (["out"] ++ ["signatures.96.pdf"])
         :: map (@Saved (Page96 nat)) pages ++ [Closed (Page96 nat)]
       /\ List.length pages = 2%nat
       /\ Forall (fun p => List.length (page_ticks p) = 4%nat
                           /\ List.length (page_bars p) = 4%nat) pages.
Proof.
  apply (@create_96_barplot_pages nat (string * N) example_colors
           custom_sort_column_names key_ltb (fun _ => example_table_96) 0%nat
           ["out"]).
  - reflexivity.
  - repeat constructor; simpl; intuition discriminate.
  - repeat constructor; simpl; try lia; eexists; split;
      try reflexivity; discriminate.
  - repeat constructor.
Defined.

(** ** The two reports on one table *)

(** X21: the order of the two reports matters: the 96-context report takes
    every column after the first for a sample column, so that on a table the
    larger-context report has written to it also renders the column named
    context; it can only return if the page of that column is rendered, and it
    raises if that page raises. *)
Theorem context_column_in_96_report :
  forall (Name Page Key : Type) (key : string -> Key)
         (ltb : Key -> Key -> bool) (ML : list string)
         (gn : Z -> result (list Z)) (gs : Z -> result (list Name))
         (render : list (LongFormRow Name) -> result Page)
         (parse_96 : DataFrame -> string -> result Page)
         (st : Store) (df : Ref) (folder folder' : Path),
    let o1 := larger_context_barplot key ltb ML gn gs render st df folder in
    let o2 := create_96_barplot key ltb parse_96 (tables o1) df folder' in
    (returned o2 = Ok tt -> exists p, parse_96 (tables o1 df) "context" = Ok p)
    /\ (forall e, parse_96 (tables o1 df) "context" = Raise e ->
          exists e', returned o2 = Raise e').
Proof.
  intros Name Page Key key ltb ML gn gs render parse_96 st df folder folder'
         o1 o2.
  assert (Hin : In "context" (sorted key ltb (tl (columns (tables o1 df))))).
  { eapply Permutation_in; [apply sorted_perm |].
    destruct (larger_context_barplot_unfold key ltb ML gn gs render st df folder)
      as (Htab & _). fold o1 in Htab. rewrite Htab.
    unfold columns, set_context. cbn [tl context samples].
    apply in_or_app. right. left. reflexivity. }
  assert (Hraise : forall e, parse_96 (tables o1 df) "context" = Raise e ->
                     exists e', returned o2 = Raise e').
  { intros e He. unfold o2, create_96_barplot.
    cbn [returned with_PdfPages snd].
    exact (for_columns_Raise _ _ _ Hin He). }
  split; [| exact Hraise].
  intros Hok. destruct (parse_96 (tables o1 df) "context") as [p | e] eqn:Hp.
  - exists p. reflexivity.
  - destruct (Hraise e eq_refl) as (e' & He'). congruence.
Qed.

Lemma context_column_in_96_report_witness :
  exists e',
    returned
      (create_96_barplot custom_sort_column_names key_ltb
         (fun (t : DataFrame) (col : string) =>
            if String.eqb col "context"
            then Raise (RenderError "injected") else Ok 0%nat)
         (tables (larger_context_barplot custom_sort_column_names key_ltb
                    MUTATION_LIST count_up count_up (@render_rows Z)
                    (fun _ => example_table_96) 0%nat ["out"]))
         0%nat ["out"])
    = Raise e'.
Proof.
  destruct (@context_column_in_96_report Z nat (string * N)
              custom_sort_column_names key_ltb MUTATION_LIST count_up count_up
              (@render_rows Z)
              (fun (t : DataFrame) (col : string) =>
                 if String.eqb col "context"
                 then Raise (RenderError "injected") else Ok 0%nat)
              (fun _ => example_table_96) 0%nat ["out"] ["out"])
    as (_ & H).
  apply (H (RenderError "injected")). reflexivity.
Defined.

(** ** The stable sort *)

Lemma insert_by_key_filter (Key : Type) (key : string -> Key)
  (ltb : Key -> Key -> bool) (P : string -> bool) (x : string)
  (l : list string) :
  (forall a b, P a = true -> P b = true -> ltb (key b) (key a) = false) ->
  filter P (insert_by_key key ltb x l) = filter P (x :: l).
Proof.
  intros Htie. induction l as [| y l IH]; cbn [insert_by_key].
  - reflexivity.
  - destruct (ltb (key y) (key x)) eqn:Hlt; [| reflexivity].
    cbn [filter] in *. rewrite IH.
    destruct (P x) eqn:Hx; destruct (P y) eqn:Hy; try reflexivity.
    rewrite (Htie x y Hx Hy) in Hlt. discriminate Hlt.
Qed.

(** X22: the column sort is stable: among columns none of which has a
    smaller key than another (columns with equal keys), the order of the
    table is kept. *)
Theorem sorted_is_stable :
  forall (Key : Type) (key : string -> Key) (ltb : Key -> Key -> bool)
         (P : string -> bool) (names : list string),
    (forall a b, P a = true -> P b = true -> ltb (key b) (key a) = false) ->
    filter P (sorted key ltb names) = filter P names.
Proof.
  intros Key key ltb P names Htie.
  induction names as [| x names IH]; cbn [sorted fold_right].
  - reflexivity.
  - fold (sorted key ltb names).
    rewrite (insert_by_key_filter key ltb P x _ Htie).
    cbn [filter]. rewrite IH. reflexivity.
Qed.

Lemma sorted_is_stable_witness :
  filter (fun s => String.eqb (name_prefix s) "SBS"
                   && (digits_value 0 (name_digits s) =? 1)%N)
    (sorted custom_sort_column_names key_ltb ["SBS2"; "SBS01"; "SBS1"; "SBS001"])
  = ["SBS01"; "SBS1"; "SBS001"].
Proof.
  apply (@sorted_is_stable (string * N) custom_sort_column_names key_ltb
           (fun s => String.eqb (name_prefix s) "SBS"
                     && (digits_value 0 (name_digits s) =? 1)%N)
           ["SBS2"; "SBS01"; "SBS1"; "SBS001"]).
  intros a b Ha Hb.
  apply andb_prop in Ha. destruct Ha as [Ha1 Ha2].
  apply andb_prop in Hb. destruct Hb as [Hb1 Hb2].
  apply String.eqb_eq in Ha1. apply String.eqb_eq in Hb1.
  apply N.eqb_eq in Ha2. apply N.eqb_eq in Hb2.
  unfold key_ltb, custom_sort_column_names. cbn [fst snd].
  rewrite Ha1, Hb1, Ha2, Hb2. reflexivity.
Defined.

Lemma parser_output_has_all_groups_witness :
  let out :=
    flat_map
      (fun mut =>
         flat_map
           (rows_at_position "SBS1" mut
              (select_context
                 [mkColRow "A[C>A]G" 3 (Some "C>A");
                  mkColRow "C[C>G]T" 4 (Some "C>G")] mut)
              (col_sum
                 (select_context
                    [mkColRow "A[C>A]G" 3 (Some "C>A");
                     mkColRow "C[C>G]T" 4 (Some "C>G")] mut)))
           [(0, -1); (6, 1)])
      ["C>A"; "C>G"; "C>T"] in
  List.length (unique String.eqb (map (@lf_context Z) out)) = 3%nat
  /\ (forall name var, In name (map snd [(0, -1); (6, 1)]) -> In var amino ->
        List.length (group_rows Z.eq_dec out name var) = 3%nat)
  /\ exists bars,
       increased_context_bars Z.eq_dec (fun _ => "") example_base_colors out
       = Ok bars.
Proof.
  apply (@parser_output_has_all_groups Z Z.eq_dec (fun _ => "") nat
           example_base_colors ["C>A"; "C>G"; "C>T"] flank_indices flank_labels
           (mkDataFrame ["A[C>A]G"; "C[C>G]T"] [("SBS1", [3; 4])]
              (Some [Some "C>A"; Some "C>G"]))
           "SBS1" [(0, -1); (6, 1)]).
  - discriminate.
  - repeat constructor; simpl; intuition discriminate.
  - reflexivity.
  - discriminate.
  - repeat constructor; simpl; intuition discriminate.
  - intros aa [<- | [<- | [<- | [<- | []]]]]; discriminate.
  - reflexivity.
Defined.
